(** * hexloader: an Intel-HEX serial bootloader for the ATmega328P

    A shallow embedding of [hexloader.c] and the properties of its
    decode / flash / verify engine, line reader and boot handoff.

    Conventions of the model.
    - [uint8_t], [uint16_t] and [uint32_t] values are integers of [Z] with the
      wrap-around of every assignment and conversion written out ([u8],
      [u16], [u32]).  [int] is 16 bits wide on the AVR.
    - A [char] is its code in [Z]; [chr "A"] is the code of a literal.  The
      line buffer holds the codes 0..255; every comparison the code makes on
      a [char] has the same outcome whether [char] is signed or not, since
      the literals it compares with are below 128.
    - [int] arithmetic that leaves the 16-bit range ([256 * hex_byte_to_dec]
      in [hex_word_to_dec]) wraps, as the compiled code does.
    - A [char *] is the list of characters found from the pointer onwards, so
      [line + 3] is [drop 3 line].  The list ends where the array ends.  A
      read behind the array is undefined in C; the functions of the model
      are total and compute with 0 there, which says nothing about the
      code: properties that depend on what is read are stated for reads
      within the array ([fits_line] for the records in [line]).
    - The globals of the C file are the fields of one [state] record, together
      with the two function-local [static] variables ([len], [last_address]).
    - Functions that may never return ([reboot], [for (;;)], [jmp 0]) live in
      the monad [M], whose result is either [Ret] or [Halt]. *)

From Stdlib Require Import ZArith Lia List Bool Ascii String.
From stdpp Require Import base list.
Import ListNotations.
Local Open Scope Z_scope.

(** ** Constants *)

Definition RX_BUFFER_LEN : Z := 1024.
Definition LF : Z := 10.
Definition CR : Z := 13.
Definition ESC : Z := 27.

Definition ERROR_RX_DATA_OVERRUN : Z := 1.
Definition ERROR_RX_FRAME_ERROR : Z := 2.
Definition ERROR_RX_BUFFER_OVERFLOW : Z := 4.

Definition MODE_FLASH : Z := 0.
Definition MODE_VERIFY : Z := 1.

Definition FLASH_WAITING : Z := 0.
Definition FLASH_GOING_ON : Z := 1.
Definition FLASH_OK : Z := 2.
Definition FLASH_ERROR : Z := 3.

Definition PAGE_SIZE : Z := 128.
Definition MAX_LINE_LEN : Z := 64.
Definition FLASH_SIZE : Z := 32768.

Definition BOOTAPP_SIG_1 : Z := 0xb0.
Definition BOOTAPP_SIG_2 : Z := 0xaa.

(** Bit numbers of the reset-cause register MCUSR and of the UART status
    register UCSR0A, from the ATmega328P register map ([avr/io.h]). *)
Definition EXTRF : Z := 1.
Definition WDRF : Z := 3.
Definition DOR0 : Z := 3.
Definition FE0 : Z := 4.

Definition _BV (bit : Z) : Z := Z.shiftl 1 bit.

(** ** Machine integers and characters *)

Definition u8 (x : Z) : Z := x mod 256.
Definition u16 (x : Z) : Z := x mod 65536.
Definition u32 (x : Z) : Z := x mod 4294967296.

Definition chr (c : ascii) : Z := Z.of_nat (nat_of_ascii c).

Definition chars (s : string) : list Z := map chr (list_ascii_of_string s).

(** [s[k]] for a [char *s]. *)
Definition at_ (s : list Z) (k : nat) : Z := nth k s 0.

(** ** Conversion utils *)

Definition nibble_to_hex (x : Z) : Z :=
  let x := Z.land x 0xf in
  if (0 <=? x) && (x <=? 9) then u8 (x + chr "0") else u8 (x + chr "A" - 10).

Definition byte_to_hex (x : Z) : Z :=
  u16 (Z.lor (Z.shiftl (nibble_to_hex (u8 (Z.shiftr x 4))) 8)
             (nibble_to_hex (u8 (Z.land x 0xf)))).

Definition word_to_hex (x : Z) : Z :=
  u32 (Z.lor (Z.shiftl (byte_to_hex (u8 (Z.shiftr x 8))) 16)
             (byte_to_hex (u8 (Z.land x 0xff)))).

Definition hex_nibble_to_dec (x : Z) : Z :=
  if (chr "0" <=? x) && (x <=? chr "9") then u8 (x - chr "0")
  else if (chr "A" <=? x) && (x <=? chr "F") then u8 (x - chr "A" + 10)
  else if (chr "a" <=? x) && (x <=? chr "f") then u8 (x - chr "a" + 10)
  else 0.

Definition hex_byte_to_dec (s : list Z) : Z :=
  u8 (16 * hex_nibble_to_dec (at_ s 0) + hex_nibble_to_dec (at_ s 1)).

Definition hex_word_to_dec (s : list Z) : Z :=
  u16 (256 * hex_byte_to_dec s + hex_byte_to_dec (drop 2 s)).

(** The two characters packed by [byte_to_hex], in the order
    [uart_send_byte_hex] sends them, and the four of [word_to_hex], in the
    order of [uart_send_int_hex]. *)
Definition byte_hex_chars (x : Z) : list Z :=
  let h := byte_to_hex x in [Z.shiftr h 8; Z.land h 0xff].

Definition word_hex_chars (x : Z) : list Z :=
  let h := word_to_hex x in
  [Z.shiftr h 24; Z.land (Z.shiftr h 16) 0xff;
   Z.land (Z.shiftr h 8) 0xff; Z.land h 0xff].

(** ** Program state *)

(** One call into the flash self-programming interface of [avr/boot.h]. *)
Inductive spm_call :=
| PageErase (address : Z)
| PageFill (address word : Z)
| PageWrite (address : Z)
| RwwEnable.

Record state := mkState {
  r2 : Z;                      (* boot signature, first register *)
  r3 : Z;                      (* boot signature, second register *)
  wdt_armed : bool;            (* watchdog running with the 15 ms timeout *)
  rx_buffer : list Z;
  rx_head : Z;
  rx_tail : Z;
  uart_error : Z;
  clock : Z;
  t0 : Z;
  sent : list Z;               (* bytes handed to [uart_send_byte], oldest first *)
  line : list Z;               (* char line[MAX_LINE_LEN] *)
  overrun : list (Z * Z);      (* stores to [line[i]] with [i] outside the array *)
  len : Z;                     (* static uint8_t len of get_line *)
  page : list Z;               (* uint8_t page[PAGE_SIZE] *)
  current_page_address : Z;
  last_address : Z;            (* static uint16_t last_address of flash_hex_line *)
  flash : Z -> Z;              (* program memory, as [pgm_read_byte] sees it *)
  spm_buffer : list Z;         (* temporary page buffer of the SPM hardware *)
  spm_calls : list spm_call    (* calls made to the self-programming interface *)
}.

Definition set_sig (a b : Z) (s : state) : state :=
  mkState a b (wdt_armed s) (rx_buffer s) (rx_head s) (rx_tail s)
    (uart_error s) (clock s) (t0 s) (sent s) (line s) (overrun s) (len s)
    (page s) (current_page_address s) (last_address s) (flash s)
    (spm_buffer s) (spm_calls s).

Definition set_wdt (b : bool) (s : state) : state :=
  mkState (r2 s) (r3 s) b (rx_buffer s) (rx_head s) (rx_tail s)
    (uart_error s) (clock s) (t0 s) (sent s) (line s) (overrun s) (len s)
    (page s) (current_page_address s) (last_address s) (flash s)
    (spm_buffer s) (spm_calls s).

Definition set_rx (buf : list Z) (head tail err : Z) (s : state) : state :=
  mkState (r2 s) (r3 s) (wdt_armed s) buf head tail
    err (clock s) (t0 s) (sent s) (line s) (overrun s) (len s)
    (page s) (current_page_address s) (last_address s) (flash s)
    (spm_buffer s) (spm_calls s).

Definition set_time (c t : Z) (s : state) : state :=
  mkState (r2 s) (r3 s) (wdt_armed s) (rx_buffer s) (rx_head s) (rx_tail s)
    (uart_error s) c t (sent s) (line s) (overrun s) (len s)
    (page s) (current_page_address s) (last_address s) (flash s)
    (spm_buffer s) (spm_calls s).

Definition set_sent (o : list Z) (s : state) : state :=
  mkState (r2 s) (r3 s) (wdt_armed s) (rx_buffer s) (rx_head s) (rx_tail s)
    (uart_error s) (clock s) (t0 s) o (line s) (overrun s) (len s)
    (page s) (current_page_address s) (last_address s) (flash s)
    (spm_buffer s) (spm_calls s).

Definition set_line (l : list Z) (ov : list (Z * Z)) (n : Z) (s : state) : state :=
  mkState (r2 s) (r3 s) (wdt_armed s) (rx_buffer s) (rx_head s) (rx_tail s)
    (uart_error s) (clock s) (t0 s) (sent s) l ov n
    (page s) (current_page_address s) (last_address s) (flash s)
    (spm_buffer s) (spm_calls s).

Definition set_page (p : list Z) (s : state) : state :=
  mkState (r2 s) (r3 s) (wdt_armed s) (rx_buffer s) (rx_head s) (rx_tail s)
    (uart_error s) (clock s) (t0 s) (sent s) (line s) (overrun s) (len s)
    p (current_page_address s) (last_address s) (flash s)
    (spm_buffer s) (spm_calls s).

Definition set_current_page_address (a : Z) (s : state) : state :=
  mkState (r2 s) (r3 s) (wdt_armed s) (rx_buffer s) (rx_head s) (rx_tail s)
    (uart_error s) (clock s) (t0 s) (sent s) (line s) (overrun s) (len s)
    (page s) a (last_address s) (flash s)
    (spm_buffer s) (spm_calls s).

Definition set_last_address (a : Z) (s : state) : state :=
  mkState (r2 s) (r3 s) (wdt_armed s) (rx_buffer s) (rx_head s) (rx_tail s)
    (uart_error s) (clock s) (t0 s) (sent s) (line s) (overrun s) (len s)
    (page s) (current_page_address s) a (flash s)
    (spm_buffer s) (spm_calls s).

Definition set_spm (f : Z -> Z) (b : list Z) (c : list spm_call) (s : state) : state :=
  mkState (r2 s) (r3 s) (wdt_armed s) (rx_buffer s) (rx_head s) (rx_tail s)
    (uart_error s) (clock s) (t0 s) (sent s) (line s) (overrun s) (len s)
    (page s) (current_page_address s) (last_address s) f b c.

(** ** Control: functions that may not return *)

Inductive halt :=
| IDLE_UNTIL_RESET     (* reboot(): IDLE_WHILE(1), interrupts still served *)
| SPIN_UNTIL_RESET     (* reboot_to_app(): for (;;) *)
| JMP_0.               (* main(): asm("jmp 0"), the application runs *)

Inductive result (A : Type) :=
| Ret (a : A) (s : state)
| Halt (h : halt) (s : state).
Arguments Ret {A} a s.
Arguments Halt {A} h s.

Definition M (A : Type) : Type := state -> result A.

#[global] Instance M_ret : MRet M := fun A a s => Ret a s.
#[global] Instance M_bind : MBind M := fun A B f m s =>
  match m s with
  | Ret a s' => f a s'
  | Halt h s' => Halt h s'
  end.

#[global] Instance M_fmap : FMap M := fun A B f m s =>
  match m s with
  | Ret a s' => Ret (f a) s'
  | Halt h s' => Halt h s'
  end.

Definition gets {A} (f : state -> A) : M A := fun s => Ret (f s) s.
Definition modify (f : state -> state) : M unit := fun s => Ret tt (f s).
Definition when (b : bool) (c : M unit) : M unit := if b then c else mret tt.
Definition stop {A} (h : halt) : M A := fun s => Halt h s.
Definition call {A} (f : state -> A * state) : M A :=
  fun s => let (a, s') := f s in Ret a s'.

(** ** Interrupt service routines *)

(** ISR(USART_RX_vect), with the status register UCSR0A and the data
    register UDR0 as the hardware presents them.  The watchdog counter
    that [wdt_reset] restarts is not part of the state. *)
Definition ISR_USART_RX (status data : Z) (s : state) : state :=
  let new_head := u16 ((rx_head s + 1) mod RX_BUFFER_LEN) in
  let e0 := uart_error s in
  let e1 := if negb (Z.land status (_BV DOR0) =? 0)
            then u8 (Z.lor e0 ERROR_RX_DATA_OVERRUN) else e0 in
  let e2 := if negb (Z.land status (_BV FE0) =? 0)
            then u8 (Z.lor e1 ERROR_RX_FRAME_ERROR) else e1 in
  if new_head =? rx_tail s
  then set_rx (rx_buffer s) (rx_head s) (rx_tail s)
              (u8 (Z.lor e2 ERROR_RX_BUFFER_OVERFLOW)) s
  else set_rx (<[Z.to_nat (rx_head s) := u8 data]> (rx_buffer s))
              new_head (rx_tail s) e2 s.

(** ISR(TIMER0_COMPA_vect); the status LED and its brightness ramp are
    port and timer registers outside the state. *)
Definition ISR_TIMER0_COMPA (s : state) : state :=
  set_time (u32 (clock s + 1)) (t0 s) s.

Definition millis (s : state) : Z := clock s.

(** ** UART functions *)

(** [uart_send_byte] never drops a byte: it sleeps until the transmit ring
    has room.  The model keeps the stream of bytes it was given. *)
Definition uart_send_byte (c : Z) (s : state) : state :=
  set_sent (sent s ++ [u8 c]) s.

(** [uart_send_string] for a PROGMEM string without an inner NUL. *)
Definition uart_send_string (str : list Z) (s : state) : state :=
  fold_left (fun s c => uart_send_byte c s) str s.

(** [uart_send_int] recurses once per decimal digit; a [uint16_t] has at
    most five. *)
Fixpoint uart_send_int_rec (digits : nat) (x : Z) (s : state) : state :=
  match digits with
  | O => s
  | S d =>
      if x <? 10 then uart_send_byte (x + chr "0") s
      else uart_send_byte (x mod 10 + chr "0") (uart_send_int_rec d (x / 10) s)
  end.

Definition uart_send_int (x : Z) (s : state) : state :=
  uart_send_int_rec 5 (u16 x) s.

Definition uart_send_byte_hex (x : Z) (s : state) : state :=
  let h := byte_to_hex (u8 x) in
  uart_send_byte (Z.land h 0xff) (uart_send_byte (Z.shiftr h 8) s).

Definition uart_send_int_hex (x : Z) (s : state) : state :=
  let h := word_to_hex (u16 x) in
  uart_send_byte (Z.land h 0xff)
    (uart_send_byte (Z.land (Z.shiftr h 8) 0xff)
      (uart_send_byte (Z.land (Z.shiftr h 16) 0xff)
        (uart_send_byte (Z.shiftr h 24) s))).

(** Returns -1 when the ring is empty. *)
Definition uart_recv_byte (s : state) : Z * state :=
  if rx_tail s =? rx_head s then (-1, s)
  else
    let c := at_ (rx_buffer s) (Z.to_nat (rx_tail s)) in
    (c, set_rx (rx_buffer s) (rx_head s)
               (u16 ((rx_tail s + 1) mod RX_BUFFER_LEN)) (uart_error s) s).

Definition uart_available (s : state) : bool :=
  negb (rx_tail s =? rx_head s).

(** ** Reboot functions *)

Definition crlf : list Z := [CR; LF].

Definition wdt_enable (s : state) : state := set_wdt true s.
Definition wdt_disable (s : state) : state := set_wdt false s.

Definition reboot : M unit :=
  modify wdt_enable;;
  stop IDLE_UNTIL_RESET.

Definition reboot_to_bootloader : M unit :=
  modify (uart_send_string (chars "Rebooting into bootloader" ++ crlf ++ crlf));;
  modify (set_sig 0 0);;
  reboot.

Definition reboot_to_app : M unit :=
  modify (uart_send_string (chars "Have a nice day!" ++ crlf ++ crlf));;
  modify (set_sig BOOTAPP_SIG_1 BOOTAPP_SIG_2);;
  modify wdt_enable;;
  stop SPIN_UNTIL_RESET.

Definition BOOT_APP (s : state) : bool :=
  (r2 s =? BOOTAPP_SIG_1) && (r3 s =? BOOTAPP_SIG_2).

(** ** Input parsing *)

(** The assignment [line[i] = c].  A store whose index lies outside the
    array is undefined in C; the model leaves [line] alone and records the
    index and the value in [overrun]. *)
Definition store_line (i c : Z) (s : state) : state :=
  if (0 <=? i) && (i <? MAX_LINE_LEN)
  then set_line (<[Z.to_nat i := c]> (line s)) (overrun s) (len s) s
  else set_line (line s) (overrun s ++ [(i, c)]) (len s) s.

Definition set_len (n : Z) (s : state) : state :=
  set_line (line s) (overrun s) (u8 n) s.

Definition line0_is_hex (s : state) : bool := at_ (line s) 0 =? chr ":".

Definition get_line : M Z :=
  e ← gets uart_error;
  when (negb (Z.land e ERROR_RX_BUFFER_OVERFLOW =? 0))
    (modify (uart_send_string
       (crlf ++ chars "UART error: buffer overflow (try a lower baud rate)" ++ crlf));;
     reboot_to_bootloader);;
  e ← gets uart_error;
  when (negb (Z.land e ERROR_RX_DATA_OVERRUN =? 0))
    (modify (uart_send_string (crlf ++ chars "UART error: data overrun" ++ crlf));;
     reboot_to_bootloader);;
  avail ← gets uart_available;
  if (avail : bool) then
    c ← u8 <$> call uart_recv_byte;
    if c =? ESC then
      modify (uart_send_string crlf);;
      modify (store_line 0 0);;
      modify (set_len 0);;
      mret 1
    else if (c =? CR) || (c =? LF) then
      n ← gets len;
      modify (store_line n 0);;
      if 0 <? n then
        modify (set_len 0);;
        hex ← gets line0_is_hex;
        when (negb (hex : bool)) (modify (uart_send_string crlf));;
        mret 1
      else mret 0
    else
      n ← gets len;
      if n <? MAX_LINE_LEN - 1 then
        modify (store_line n c);;
        modify (set_len (n + 1));;
        hex ← gets line0_is_hex;
        when (negb (hex : bool)) (modify (uart_send_byte c));;
        mret 0
      else if n =? MAX_LINE_LEN - 1 then
        modify (store_line n 0);;
        modify (set_len (n + 1));;
        mret 0
      else mret 0
  else mret 0.

Definition prompt (s : state) : state := uart_send_string (chars ">: ") s.

(** ** Flash self-programming interface

    [avr/boot.h] belongs to the C library.  Each call is appended to
    [spm_calls]; its effect on program memory is the one the data sheet
    gives for an unlocked page: erasing sets the page to 0xff, filling loads
    one word of the temporary buffer, writing copies the buffer to the page
    and clears it.  [boot_spm_busy_wait], [cli] and [sei] leave the state
    alone. *)

Definition erased_page : list Z := replicate (Z.to_nat PAGE_SIZE) 0xff.

Definition boot_page_erase (address : Z) (s : state) : state :=
  set_spm (fun x => if x / PAGE_SIZE =? address / PAGE_SIZE then 0xff else flash s x)
          (spm_buffer s) (spm_calls s ++ [PageErase address]) s.

Definition boot_page_fill (address word : Z) (s : state) : state :=
  let off := Z.to_nat (address mod PAGE_SIZE) in
  set_spm (flash s)
          (<[S off := Z.shiftr word 8]> (<[off := Z.land word 0xff]> (spm_buffer s)))
          (spm_calls s ++ [PageFill address word]) s.

Definition boot_page_write (address : Z) (s : state) : state :=
  set_spm (fun x => if x / PAGE_SIZE =? address / PAGE_SIZE
                    then at_ (spm_buffer s) (Z.to_nat (x mod PAGE_SIZE))
                    else flash s x)
          erased_page (spm_calls s ++ [PageWrite address]) s.

Definition boot_rww_enable_safe (s : state) : state :=
  set_spm (flash s) (spm_buffer s) (spm_calls s ++ [RwwEnable]) s.

Definition pgm_read_byte (address : Z) (s : state) : Z := flash s address.

(** ** Flashing functions *)

Definition point_out_error (col carets : Z) (s : state) : state :=
  let s := uart_send_string (replicate (Z.to_nat (u8 col)) (chr " ")) s in
  let s := uart_send_string (replicate (Z.to_nat (u8 carets)) (chr "^")) s in
  uart_send_string crlf s.

(** [for (i = 0; line[i]; i++) uart_send_byte(line[i]);] *)
Fixpoint dump_chars (l : list Z) (s : state) : state :=
  match l with
  | [] => s
  | c :: l' => if c =? 0 then s else dump_chars l' (uart_send_byte c s)
  end.

Definition dump_line (s : state) : state :=
  uart_send_string crlf (dump_chars (line s) s).

(** [page] has exactly [PAGE_SIZE] cells and the loop sets every one. *)
Definition new_page (s : state) : state := set_page erased_page s.

(** The even offsets 0, 2, ..., PAGE_SIZE - 2. *)
Definition word_offsets : list Z :=
  map (fun k => 2 * Z.of_nat k) (seq 0 (Z.to_nat (PAGE_SIZE / 2))).

Definition write_current_page (s : state) : state :=
  let base := u16 (current_page_address s * PAGE_SIZE) in
  let s := boot_page_erase base s in
  let s := fold_left
             (fun s i =>
                let word := u16 (Z.lor (at_ (page s) (Z.to_nat i))
                                       (Z.shiftl (at_ (page s) (Z.to_nat (i + 1))) 8)) in
                boot_page_fill (u16 (base + i)) word s)
             word_offsets s in
  boot_page_write base s.

Definition is_address_valid (last address : Z) (s : state) : bool * state :=
  if (last =? 0xffff) && negb (address =? 0) then
    (false, point_out_error 3 4 (dump_line
       (uart_send_string (crlf ++ chars "First address must be 0:" ++ crlf) s)))
  else if negb (last =? 0xffff) && (address <? last) then
    (false, point_out_error 3 4 (dump_line
       (uart_send_string (crlf ++ chars "Addresses must be increasing:" ++ crlf) s)))
  else (true, s).

(** How the [for] loop over the data bytes of a record is left. *)
Inductive loop_exit :=
| Completed (checksum : Z) (s : state)
| Returned (status : Z) (s : state).

(** The flash-mode branch of the loop body, for the data byte [b] at
    position [i]. *)
Definition stage_byte (address i b : Z) (s : state) : state :=
  let s :=
    if negb (u16 (address + i) / PAGE_SIZE =? current_page_address s)
    then set_current_page_address (u16 (address + i) / PAGE_SIZE)
           (new_page (write_current_page s))
    else s in
  set_page (<[Z.to_nat (u16 (address + i) mod PAGE_SIZE) := b]> (page s)) s.

(** The verify-mode branch reports a mismatch through this diagnostic. *)
Definition report_mismatch (i : Z) (s : state) : state :=
  point_out_error (9 + i * 2) 2 (dump_line
    (uart_send_string (crlf ++ chars "Hex and flash mismatch:" ++ crlf) s)).

(** The loop [for (i = 0; i < count; i++)] of [flash_hex_line], with [n]
    iterations still to run.  The characters of data byte [i] are
    [line[9 + 2 * i]] and [line[10 + 2 * i]]: they lie in the array for
    [i <= 26].  A record with more data bytes makes the C code read
    behind the array, where its behaviour is undefined and depends on what
    the linker has placed there; the value the model computes for such a
    read (0) is not a statement about the code. *)
Fixpoint data_loop (mode address : Z) (n : nat) (i checksum : Z) (s : state)
  : loop_exit :=
  match n with
  | O => Completed checksum s
  | S n' =>
      let b := hex_byte_to_dec (drop (Z.to_nat (9 + i * 2)) (line s)) in
      if mode =? MODE_FLASH then
        data_loop mode address n' (i + 1) (u8 (checksum + b))
          (stage_byte address i b s)
      else if negb (pgm_read_byte (u16 (address + i)) s =? b) then
        Returned FLASH_ERROR (report_mismatch i s)
      else data_loop mode address n' (i + 1) (u8 (checksum + b)) s
  end.

Arguments write_current_page : simpl never.
Arguments stage_byte : simpl never.
Arguments report_mismatch : simpl never.

(** [flash_hex_line].  The last characters it reads are those of the
    checksum byte, [line[9 + 2 * count]] and [line[10 + 2 * count]]: for
    [count <= 26] every read lies in the array ([fits_line], and lemma
    [fits_line_reads] for the fields read); for a larger [count] the same
    remark as for [data_loop] applies. *)
Definition flash_hex_line (mode : Z) (s : state) : Z * state :=
  let count := hex_byte_to_dec (drop 1 (line s)) in
  let address := hex_word_to_dec (drop 3 (line s)) in
  let record_type := hex_byte_to_dec (drop 7 (line s)) in
  let (valid, s) :=
    if record_type =? 0 then is_address_valid (last_address s) address s
    else (true, s) in
  if negb valid then (FLASH_ERROR, s)
  else
    let checksum := u8 (count + u8 address + Z.shiftr address 8 + record_type) in
    match data_loop mode address (Z.to_nat count) 0 checksum s with
    | Returned status s => (status, s)
    | Completed checksum s =>
        let checksum :=
          u8 (checksum + hex_byte_to_dec (drop (Z.to_nat (9 + count * 2)) (line s))) in
        if negb (checksum =? 0) then
          (FLASH_ERROR,
           dump_line (uart_send_string (crlf ++ chars "Checksum error in line:" ++ crlf) s))
        else if record_type =? 1 then
          if mode =? MODE_FLASH then
            let s := write_current_page s in
            let s := boot_rww_enable_safe s in
            let s := new_page s in
            let s := set_current_page_address 0 s in
            (FLASH_OK, set_last_address 0xffff s)
          else (FLASH_OK, s)
        else
          let s := uart_send_string
                     (CR :: chars (if mode =? MODE_FLASH then "Flashed: " else "Verified: ")) s in
          let s := uart_send_int (address + count) s in
          (FLASH_GOING_ON, set_last_address (u16 (address + count - 1)) s)
    end.


(** One iteration of the loop of [dump_flash]. *)
Definition dump_flash_step (acc : Z * state) (address : Z) : Z * state :=
  let (checksum, s) := acc in
  let (checksum, s) :=
    if address mod 16 =? 0 then
      let s := uart_send_string (crlf ++ chars ":10") s in
      let s := uart_send_int_hex address s in
      let s := uart_send_byte_hex 0 s in
      (u8 (- 0x10 - Z.shiftr address 8 - Z.land address 0xff), s)
    else (checksum, s) in
  let b := pgm_read_byte address s in
  let s := uart_send_byte_hex b s in
  let checksum := u8 (checksum - b) in
  if address mod 16 =? 15 then (checksum, uart_send_byte_hex checksum s)
  else (checksum, s).

Definition dump_flash (s : state) : state :=
  let r := fold_left dump_flash_step (seqZ 0 FLASH_SIZE) (0, s) in
  uart_send_string (crlf ++ chars ":00000001FF" ++ crlf) (snd r).

(** ** Bootloader sequence *)

Definition help_text : list Z :=
  chars " q" ++ [9] ++ chars "reboot to app" ++ crlf ++
  chars " r" ++ [9] ++ chars "reboot to bootloader" ++ crlf ++
  chars " d" ++ [9] ++ chars "dump flash in hex format" ++ crlf ++
  chars " esc" ++ [9] ++ chars "abort current command" ++ crlf.

Definition run_command : M unit :=
  c ← gets (fun s => at_ (line s) 0);
  if c =? chr "q" then reboot_to_app
  else if c =? chr "r" then reboot_to_bootloader
  else if c =? chr "d" then modify dump_flash;; modify prompt
  else if c =? chr "h" then modify (uart_send_string help_text);; modify prompt
  else if c =? 0 then modify prompt
  else modify (uart_send_string (chars "'h' for help" ++ crlf));; modify prompt.

(** What happens while [bootloader] runs: an interrupt is served, or the
    main flow executes one iteration of its [do ... while] loop.  The
    watchdog is not among the events.  Once it runs ([wdt_armed]) it resets
    the device 15 ms after the last [wdt_reset], which only the two UART
    interrupts execute, and that reset ends the run: a list of events is a
    run up to the next reset.  What is said about runs of any length
    without UART interrupts is therefore said for [wdt_armed = false]. *)
Inductive event :=
| USART_RX (status data : Z)
| TIMER0_COMPA
| MAIN_LOOP.

(** The body of the [do ... while] loop; the value is the new
    [flash_status]. *)
Definition pass_iteration (mode flash_status : Z) : M Z :=
  ready ← get_line;
  if negb (ready =? 0) then
    hex ← gets line0_is_hex;
    if (hex : bool) then
      when (flash_status =? FLASH_WAITING)
        (modify (fun s => set_time (clock s) (millis s) s));;
      call (flash_hex_line mode)
    else
      run_command;;
      mret flash_status
  else mret flash_status.

(** How one pass of the loop [do ... while (flash_status == FLASH_GOING_ON ||
    flash_status == FLASH_WAITING)] comes to an end. *)
Inductive pass_end :=
| PassEnded (flash_status : Z) (s : state) (rest : list event)
| PassHalted (h : halt) (s : state)
| PassPolling (flash_status : Z) (s : state).   (* no event left, still looping *)

Fixpoint pass_loop (mode flash_status : Z) (evs : list event) (s : state)
  : pass_end :=
  match evs with
  | [] => PassPolling flash_status s
  | USART_RX status data :: evs' =>
      pass_loop mode flash_status evs' (ISR_USART_RX status data s)
  | TIMER0_COMPA :: evs' =>
      pass_loop mode flash_status evs' (ISR_TIMER0_COMPA s)
  | MAIN_LOOP :: evs' =>
      match pass_iteration mode flash_status s with
      | Halt h s' => PassHalted h s'
      | Ret fs s' =>
          if (fs =? FLASH_GOING_ON) || (fs =? FLASH_WAITING)
          then pass_loop mode fs evs' s'
          else PassEnded fs s' evs'
      end
  end.

Definition banner (mode : Z) (s : state) : state :=
  if mode =? MODE_FLASH then
    uart_send_string
      (chars "AVR Hexloader 1.0." ++ crlf ++
       chars "Paste your hex file, 'h' for help" ++ crlf) s
  else uart_send_string (chars "Paste again to verify" ++ crlf) s.

(** The banner, the prompt and the polling loop of one mode. *)
Definition run_pass (mode : Z) (evs : list event) (s : state) : pass_end :=
  pass_loop mode FLASH_WAITING evs (prompt (banner mode s)).

Definition report_ok (s : state) : state :=
  let s := uart_send_string (chars " OK! (") s in
  let s := uart_send_int (millis s - t0 s) s in
  uart_send_string (chars "ms)" ++ crlf) s.

(** How a run of the bootloader ends. *)
Inductive outcome :=
| Halted (h : halt) (s : state)
| Exited (s : state)                              (* the function returned *)
| Polling (mode flash_status : Z) (s : state).    (* no event left, still looping *)

(** [for (mode = MODE_FLASH; mode <= MODE_VERIFY; mode++) { ... }
    reboot_to_app();] over the modes still to run. *)
Fixpoint passes (modes : list Z) (evs : list event) (s : state) : outcome :=
  match modes with
  | [] =>
      match reboot_to_app s with
      | Halt h s' => Halted h s'
      | Ret _ s' => Exited s'
      end
  | mode :: modes' =>
      match run_pass mode evs s with
      | PassHalted h s' => Halted h s'
      | PassPolling fs s' => Polling mode fs s'
      | PassEnded fs s' rest =>
          match when (negb (fs =? FLASH_OK)) reboot_to_bootloader s' with
          | Halt h s'' => Halted h s''
          | Ret _ s'' => passes modes' rest (report_ok s'')
          end
      end
  end.

(** The UART, timer and sleep-mode set-up writes device registers only. *)
Definition bootloader (evs : list event) (s : state) : outcome :=
  passes [MODE_FLASH; MODE_VERIFY] evs (new_page s).

(** [main], given the reset-cause register MCUSR. *)
Definition main (MCUSR : Z) (evs : list event) (s : state) : outcome :=
  let s := if negb (Z.land MCUSR (_BV WDRF) =? 0) && BOOT_APP s
           then wdt_disable s else s in
  if (Z.land MCUSR (Z.lor (_BV EXTRF) (_BV WDRF)) =? 0) || BOOT_APP s then
    Halted JMP_0 (set_sig 0 0 s)
  else bootloader evs (set_sig BOOTAPP_SIG_1 BOOTAPP_SIG_2 s).

(** The state after reset: zeroed globals, the initialised statics, and
    the given signature registers and program memory. *)
Definition reset_state (sig1 sig2 : Z) (mem : Z -> Z) (wdt : bool) : state :=
  mkState sig1 sig2 wdt (replicate (Z.to_nat RX_BUFFER_LEN) 0) 0 0 0 0 0 []
    (replicate (Z.to_nat MAX_LINE_LEN) 0) [] 0
    (replicate (Z.to_nat PAGE_SIZE) 0) 0 0xffff mem erased_page [].

(** The line buffer holding [str], NUL-padded. *)
Definition buffer (str : list Z) : list Z :=
  take (Z.to_nat MAX_LINE_LEN) (str ++ replicate (Z.to_nat MAX_LINE_LEN) 0).

(** A state with [str] in the line buffer, as [get_line] leaves it. *)
Definition with_line (str : list Z) (s : state) : state :=
  set_line (buffer str) (overrun s) (len s) s.

(** ** Records, as the specification describes them

    [:CCAAAATTDD...DDSS]: the fields of the record held in a line buffer,
    and the sum that makes a record valid. *)

Definition rec_count (l : list Z) : Z := hex_byte_to_dec (drop 1 l).
Definition rec_address (l : list Z) : Z := hex_word_to_dec (drop 3 l).
Definition rec_type (l : list Z) : Z := hex_byte_to_dec (drop 7 l).
Definition rec_byte (l : list Z) (i : Z) : Z :=
  hex_byte_to_dec (drop (Z.to_nat (9 + i * 2)) l).

Definition Zsum (l : list Z) : Z := foldr Z.add 0 l.

(** count + low address byte + high address byte + type + all data bytes +
    trailing checksum byte, modulo 256. *)
Definition rec_sum (l : list Z) : Z :=
  (rec_count l + rec_address l mod 256 + rec_address l / 256 + rec_type l
   + Zsum (map (rec_byte l) (seqZ 0 (rec_count l)))
   + rec_byte l (rec_count l)) mod 256.

(** [forallb] over the integers [0 .. n-1]. *)
Definition all_below (n : Z) (P : Z -> bool) : bool := forallb P (seqZ 0 n).

(** Page index and offset within the page of the data byte at position
    [i] of a record at [address], as [stage_byte] computes them. *)
Definition byte_page (address i : Z) : Z := u16 (address + i) / PAGE_SIZE.
Definition byte_offset (address i : Z) : Z := u16 (address + i) mod PAGE_SIZE.

(** Every data byte of the record in the line buffer equals the byte of
    program memory at its address ([n] bytes from position [i]). *)
Definition verify_ok (s : state) (address i : Z) (n : nat) : bool :=
  forallb (fun k => pgm_read_byte (u16 (address + k)) s =? rec_byte (line s) k)
          (seqZ i (Z.of_nat n)).

(** The decision of [is_address_valid], without its diagnostics. *)
Definition address_accepted (last address : Z) : bool :=
  if last =? 0xffff then address =? 0 else negb (address <? last).

(** The checksum before the first data byte is added. *)
Definition rec_header_sum (l : list Z) : Z :=
  u8 (rec_count l + u8 (rec_address l) + Z.shiftr (rec_address l) 8 + rec_type l).

(** ** Inputs and runs used to exercise the program *)

(** The state in which [bootloader] starts its first pass on a device whose
    flash is erased: [main] has set the signature, [new_page] has run. *)
Definition fresh : state :=
  new_page (reset_state BOOTAPP_SIG_1 BOOTAPP_SIG_2 (fun _ => 0xff) false).

(** A client that sends [str] one byte at a time, the main loop running
    once after every byte. *)
Definition typed (str : list Z) : list event :=
  flat_map (fun c => [USART_RX 0 c; MAIN_LOOP]) str.

(** The record [:CCAAAATTDD...DDSS] for the given address, type and data,
    with the checksum byte that makes the sum zero. *)
Definition hex_record (address type : Z) (data : list Z) : list Z :=
  let count := Z.of_nat (length data) in
  let sum := count + address mod 256 + address / 256 + type + Zsum data in
  chr ":" :: byte_hex_chars count ++ word_hex_chars address ++
  byte_hex_chars type ++ flat_map byte_hex_chars data ++
  byte_hex_chars (u8 (- sum)).


Definition eof_record : list Z := hex_record 0 1 [].

(** The calls [bootloader] makes to [flash_hex_line] for the successive hex
    lines of a pass: the loop goes on while the status is FLASH_GOING_ON. *)
Fixpoint flash_lines (mode : Z) (ls : list (list Z)) (status : Z) (s : state)
  : Z * state :=
  match ls with
  | [] => (status, s)
  | l :: ls' =>
      let (status', s') := flash_hex_line mode (with_line l s) in
      if status' =? FLASH_GOING_ON then flash_lines mode ls' status' s'
      else (status', s')
  end.

(** Start addresses and byte counts of data records that start at 0 and do
    not regress: [prev] is the end address (the address of the last byte)
    of the record before, if there is one. *)
Fixpoint addresses_ok (prev : option Z) (recs : list (Z * Z)) : bool :=
  match recs with
  | [] => true
  | (address, count) :: recs' =>
      match prev with
      | None => address =? 0
      | Some e => e <=? address
      end && addresses_ok (Some (address + count - 1)) recs'
  end.

Definition rec_span (str : list Z) : Z * Z :=
  (rec_address (buffer str), rec_count (buffer str)).

(** How [last_address] stands for the end address [prev] of the record
    before: 0xffff says that there is none, and it is also what the end
    address -1 of an empty record at address 0 wraps to. *)
Definition tracks (prev : option Z) (last : Z) : Prop :=
  match prev with
  | None => last = 0xffff
  | Some e => (e = -1 /\ last = 0xffff) \/ (0 <= e < 0xffff /\ last = e)
  end.

(** The calls [write_current_page] makes for page [index] holding [p]. *)
Definition page_program (index : Z) (p : list Z) : list spm_call :=
  let base := u16 (index * PAGE_SIZE) in
  [PageErase base] ++
  map (fun i => PageFill (u16 (base + i))
                  (u16 (Z.lor (at_ p (Z.to_nat i))
                              (Z.shiftl (at_ p (Z.to_nat (i + 1))) 8))))
      word_offsets ++
  [PageWrite base].

(** Number of pages committed to flash so far. *)
Definition page_flushes (s : state) : nat :=
  length (List.filter (fun c => match c with PageWrite _ => true | _ => false end)
                 (spm_calls s)).

(** [get_line] called once after each received byte; the value is the
    result of the last call. *)
Fixpoint poll_bytes (input : list Z) (s : state) : result Z :=
  match input with
  | [] => Ret 0 s
  | c :: input' =>
      match get_line (ISR_USART_RX 0 c s) with
      | Halt h s' => Halt h s'
      | Ret ready s' =>
          match input' with
          | [] => Ret ready s'
          | _ => poll_bytes input' s'
          end
      end
  end.

Definition returned_with (P : Z -> state -> bool) (r : result Z) : bool :=
  match r with
  | Ret a s => P a s
  | Halt _ _ => false
  end.


(** Tests on the end of a run, for runs on concrete input. *)
Definition halt_eqb (a b : halt) : bool :=
  match a, b with
  | IDLE_UNTIL_RESET, IDLE_UNTIL_RESET => true
  | SPIN_UNTIL_RESET, SPIN_UNTIL_RESET => true
  | JMP_0, JMP_0 => true
  | _, _ => false
  end.

Definition halted_with (h : halt) (P : state -> bool) (o : outcome) : bool :=
  match o with
  | Halted h' s => halt_eqb h h' && P s
  | _ => false
  end.

Definition pass_ended_with (P : Z -> state -> bool) (p : pass_end) : bool :=
  match p with
  | PassEnded fs s _ => P fs s
  | _ => false
  end.

(** The flash pass of [bootloader] ends FLASH_OK and the verify pass that
    follows ends in another state. *)
Definition verify_pass_fails (evs : list event) (s : state) : bool :=
  match run_pass MODE_FLASH evs (new_page s) with
  | PassEnded fs s1 rest1 =>
      (fs =? FLASH_OK) &&
      pass_ended_with (fun fs2 _ => negb (fs2 =? FLASH_OK))
        (run_pass MODE_VERIFY rest1 (report_ok s1))
  | _ => false
  end.

(** ** Frames: which globals a function may change *)

(** [s'] has the boot signature and the watchdog setting of [s]. *)
Definition same_boot (s s' : state) : Prop :=
  r2 s' = r2 s /\ r3 s' = r3 s /\ wdt_armed s' = wdt_armed s.

(** The signature a halted run leaves for the code that runs after the
    watchdog reset: zero for the bootloader, the magic pair for the
    application.  The bootloader itself never jumps to the application. *)
Definition halted_ok (h : halt) (s' : state) : Prop :=
  match h with
  | IDLE_UNTIL_RESET => r2 s' = 0 /\ r3 s' = 0 /\ wdt_armed s' = true
  | SPIN_UNTIL_RESET =>
      r2 s' = BOOTAPP_SIG_1 /\ r3 s' = BOOTAPP_SIG_2 /\ wdt_armed s' = true
  | JMP_0 => False
  end.

(** [m] either returns without touching signature and watchdog, or halts
    in one of the ways [P] with the signature that goes with it. *)
Definition safe {A} (P : halt -> Prop) (m : M A) : Prop :=
  forall s, match m s with
            | Ret _ s' => same_boot s s'
            | Halt h s' => P h /\ halted_ok h s'
            end.


(** [s'] is [s] with more bytes sent. *)
Definition outputs (s s' : state) : Prop :=
  exists o, s' = set_sent (sent s ++ o) s.

(** [s'] is [s] except for the staged page, its index and the flash. *)
Definition stages (s s' : state) : Prop :=
  s' = set_spm (flash s') (spm_buffer s') (spm_calls s')
         (set_current_page_address (current_page_address s')
            (set_page (page s') s)).

(** ** The receive ring, seen as a queue *)

(** [rx_buffer] has [RX_BUFFER_LEN] cells and both cursors index it. *)
Definition rx_wf (s : state) : Prop :=
  length (rx_buffer s) = Z.to_nat RX_BUFFER_LEN /\
  0 <= rx_head s < RX_BUFFER_LEN /\ 0 <= rx_tail s < RX_BUFFER_LEN.

(** Number of bytes between the consumer and the producer cursor. *)
Definition rx_count (s : state) : Z :=
  (rx_head s - rx_tail s) mod RX_BUFFER_LEN.

(** [n] cells of the ring from [start] on, wrapping at the end. *)
Fixpoint ring_read (buf : list Z) (start : Z) (n : nat) : list Z :=
  match n with
  | O => []
  | S n' => at_ buf (Z.to_nat start)
            :: ring_read buf ((start + 1) mod RX_BUFFER_LEN) n'
  end.

(** The bytes received and not yet consumed, oldest first. *)
Definition rx_pending (s : state) : list Z :=
  ring_read (rx_buffer s) (rx_tail s) (Z.to_nat (rx_count s)).

(** The receive interrupt served once per byte of [bytes], each with the
    given status register. *)
Definition receive_all (status : Z) (bytes : list Z) (s : state) : state :=
  fold_left (fun s b => ISR_USART_RX status b s) bytes s.

(** [uart_recv_byte] called [n] times; the values it returned, in order. *)
Fixpoint recv_n (n : nat) (s : state) : list Z * state :=
  match n with
  | O => ([], s)
  | S n' =>
      let (c, s1) := uart_recv_byte s in
      let (cs, s2) := recv_n n' s1 in
      (c :: cs, s2)
  end.

(** The receive ring with the error flags. *)
Definition rx_part (s : state) : list Z * Z * Z * Z :=
  (rx_buffer s, rx_head s, rx_tail s, uart_error s).

(** ** The line reader between two bytes *)

(** Nothing pending in the ring, no fatal flag latched, and [line] has its
    [MAX_LINE_LEN] cells. *)
Definition line_idle (s : state) : Prop :=
  rx_wf s /\ rx_pending s = [] /\
  Z.land (uart_error s) ERROR_RX_BUFFER_OVERFLOW = 0 /\
  Z.land (uart_error s) ERROR_RX_DATA_OVERRUN = 0 /\
  length (line s) = Z.to_nat MAX_LINE_LEN.

(** A byte that [get_line] accumulates: not a line end, not ESC. *)
Definition plain (c : Z) : Prop :=
  0 <= c < 256 /\ c <> CR /\ c <> LF /\ c <> ESC.

(** The line, output, and overrun fields. *)
Definition line_part (s : state) : list Z * list (Z * Z) * Z * list Z :=
  (line s, overrun s, len s, sent s).

(** ** The staged page before it is committed *)

Definition is_byte (b : Z) : Prop := 0 <= b < 256.

(** [page] and the SPM temporary buffer have their [PAGE_SIZE] cells, the
    staged values are bytes, and the page lies in the 16-bit address
    space. *)
Definition flash_ready (s : state) : Prop :=
  length (page s) = Z.to_nat PAGE_SIZE /\ Forall is_byte (page s) /\
  length (spm_buffer s) = Z.to_nat PAGE_SIZE /\
  0 <= current_page_address s * PAGE_SIZE < 65536.

(** ** Where the bytes of a record are while it is flashed *)

(** Every data byte of the record [l] before position [i] is either in
    its cell of the staged page or already in program memory. *)
Definition record_kept (l : list Z) (address i : Z) (s : state) : Prop :=
  forall k, 0 <= k < i ->
    if byte_page address k =? current_page_address s
    then at_ (page s) (Z.to_nat (byte_offset address k)) = rec_byte l k
    else flash s (u16 (address + k)) = rec_byte l k.

(** The staged page, its index, program memory and the SPM buffer. *)
Definition flash_part (s : state) : list Z * Z * (Z -> Z) * list Z :=
  (page s, current_page_address s, flash s, spm_buffer s).

(** ** Numbers as they are printed *)

Definition is_digit (c : Z) : Prop := chr "0" <= c <= chr "9".

(** The number a string of decimal digits denotes. *)
Definition dec_value (l : list Z) : Z :=
  fold_left (fun acc c => acc * 10 + (c - chr "0")) l 0.

(** An upper-case hexadecimal digit. *)
Definition is_hex_digit (c : Z) : Prop :=
  chr "0" <= c <= chr "9" \/ chr "A" <= c <= chr "F".

Definition is_hex_digitb (c : Z) : bool :=
  (chr "0" <=? c) && (c <=? chr "9") || (chr "A" <=? c) && (c <=? chr "F").

(** ** The image [dump_flash] prints *)

(** Row [k] of the dump: a data record with the sixteen bytes of program
    memory from address [16 * k], after a CR LF. *)
Definition dump_row (mem : Z -> Z) (k : Z) : list Z :=
  crlf ++ hex_record (16 * k) 0 (map mem (seqZ (16 * k) 16)).

(** What one iteration of the loop of [dump_flash] sends, and the
    checksum it leaves. *)
Definition dump_step_sum (mem : Z -> Z) (c a : Z) : Z :=
  u8 ((if a mod 16 =? 0 then u8 (- 0x10 - Z.shiftr a 8 - Z.land a 0xff) else c)
      - mem a).

Definition dump_step_out (mem : Z -> Z) (c a : Z) : list Z :=
  (if a mod 16 =? 0
   then crlf ++ chars ":10" ++ word_hex_chars (u16 a) ++ byte_hex_chars (u8 0)
   else []) ++
  byte_hex_chars (u8 (mem a)) ++
  (if a mod 16 =? 15 then byte_hex_chars (u8 (dump_step_sum mem c a)) else []).

(** ** The transmit ring

    The model above keeps the bytes given to [uart_send_byte] as one
    stream, [sent].  The code behind that stream is a second ring buffer,
    filled by [uart_send_byte] and emptied by the data-register-empty
    interrupt.  Here it is on its own: [UDR0] collects the bytes written to
    the data register, and [flow] says where the main flow stands, since
    [uart_send_byte] and [uart_flush] sleep until the interrupt has made
    their condition false. *)
Module Tx.

Definition TX_BUFFER_LEN : Z := 32.

Record tx := mkTx {
  tx_buffer : list Z;
  tx_head : Z;
  tx_tail : Z;
  UDRIE0 : bool;        (* the interrupt enable bit of UCSR0B *)
  UDR0 : list Z         (* the bytes written to the data register *)
}.

(** ISR(USART_UDRE_vect). *)
Definition ISR_USART_UDRE (t : tx) : tx :=
  if tx_head t =? tx_tail t
  then mkTx (tx_buffer t) (tx_head t) (tx_tail t) false (UDR0 t)
  else mkTx (tx_buffer t) (tx_head t)
            (u16 ((tx_tail t + 1) mod TX_BUFFER_LEN)) (UDRIE0 t)
            (UDR0 t ++ [at_ (tx_buffer t) (Z.to_nat (tx_tail t))]).

Inductive flow :=
| Running
| Sending (c : Z)     (* in [uart_send_byte], at IDLE_WHILE(tx_tail == new_head) *)
| Flushing.           (* in [uart_flush], at IDLE_WHILE(tx_tail != tx_head) *)

(** The condition [tx_tail == new_head] of [uart_send_byte], negated. *)
Definition room (t : tx) : bool :=
  negb (tx_tail t =? u16 ((tx_head t + 1) mod TX_BUFFER_LEN)).

(** [uart_send_byte] after its wait. *)
Definition enqueue (c : Z) (t : tx) : tx :=
  mkTx (<[Z.to_nat (tx_head t) := u8 c]> (tx_buffer t))
       (u16 ((tx_head t + 1) mod TX_BUFFER_LEN)) (tx_tail t) true (UDR0 t).

(** The main flow runs as far as it can: a waiting call checks its
    condition and either completes or goes back to sleep. *)
Definition main_step (f : flow) (t : tx) : flow * tx :=
  match f with
  | Running => (Running, t)
  | Sending c => if room t then (Running, enqueue c t) else (Sending c, t)
  | Flushing => if tx_tail t =? tx_head t then (Running, t) else (Flushing, t)
  end.

(** What happens, in order: the interrupt is served, or the main flow
    calls [uart_send_byte] or [uart_flush]. *)
Inductive event :=
| UDRE
| SEND (c : Z)
| FLUSH.

(** The interrupt is served only while it is enabled, and the main flow
    calls nothing while it sleeps in a call: other schedules give [None]. *)
Fixpoint run (evs : list event) (f : flow) (t : tx) : option (flow * tx) :=
  match evs with
  | [] => Some (f, t)
  | UDRE :: evs' =>
      if UDRIE0 t
      then let (f', t') := main_step f (ISR_USART_UDRE t) in run evs' f' t'
      else None
  | SEND c :: evs' =>
      match f with
      | Running => let (f', t') := main_step (Sending c) t in run evs' f' t'
      | _ => None
      end
  | FLUSH :: evs' =>
      match f with
      | Running => let (f', t') := main_step Flushing t in run evs' f' t'
      | _ => None
      end
  end.

Fixpoint ring_read (buf : list Z) (start : Z) (n : nat) : list Z :=
  match n with
  | O => []
  | S n' => at_ buf (Z.to_nat start)
            :: ring_read buf ((start + 1) mod TX_BUFFER_LEN) n'
  end.

Definition count (t : tx) : Z := (tx_head t - tx_tail t) mod TX_BUFFER_LEN.

(** The bytes in the ring, oldest first. *)
Definition pending (t : tx) : list Z :=
  ring_read (tx_buffer t) (tx_tail t) (Z.to_nat (count t)).

(** The ring has its cells, the cursors index it, and the interrupt is
    enabled whenever the ring holds a byte. *)
Definition wf (t : tx) : Prop :=
  length (tx_buffer t) = Z.to_nat TX_BUFFER_LEN /\
  0 <= tx_head t < TX_BUFFER_LEN /\ 0 <= tx_tail t < TX_BUFFER_LEN /\
  (tx_head t <> tx_tail t -> UDRIE0 t = true).

(** A sleeping call has its condition true. *)
Definition asleep (f : flow) (t : tx) : Prop :=
  match f with
  | Running => True
  | Sending _ => room t = false
  | Flushing => tx_tail t <> tx_head t
  end.

(** The byte a sleeping [uart_send_byte] still holds. *)
Definition held (f : flow) : list Z :=
  match f with
  | Sending c => [u8 c]
  | _ => []
  end.

(** The bytes given to [uart_send_byte] by a schedule. *)
Definition sends (evs : list event) : list Z :=
  flat_map (fun e => match e with SEND c => [u8 c] | _ => [] end) evs.

Definition empty : tx := mkTx (replicate (Z.to_nat TX_BUFFER_LEN) 0) 0 0 false [].

End Tx.

(** ** The status LED

    The timer interrupts with the registers they drive: compare match A
    counts the milliseconds, switches the LED on and moves the compare
    value B, at which the LED is switched off again.  [OCR0A] is the value
    [timer_init] writes. *)
Module Led.

Definition OCR0A : Z := 240.

Record timer := mkTimer {
  clock : Z;
  breathing_led : Z;
  OCR0B : Z;
  led : bool
}.

(** ISR(TIMER0_COMPA_vect). *)
Definition ISR_TIMER0_COMPA (t : timer) : timer :=
  let clock := u32 (clock t + 1) in
  if clock mod 8 =? 0 then
    let b := u16 (breathing_led t + 1) in
    let b := if OCR0A <? b then 0 else b in
    mkTimer clock b (if b <? OCR0A / 2 then u8 b else u8 (OCR0A - b)) true
  else mkTimer clock (breathing_led t) (OCR0B t) true.

(** ISR(TIMER0_COMPB_vect). *)
Definition ISR_TIMER0_COMPB (t : timer) : timer :=
  mkTimer (clock t) (breathing_led t) (OCR0B t) false.

(** The timer after reset: the globals are zero. *)
Definition reset : timer := mkTimer 0 0 0 false.

(** [n] compare matches A, with any number of compare matches B between
    them: those change the LED only. *)
Fixpoint ticks (n : nat) (t : timer) : timer :=
  match n with
  | O => t
  | S n' => ISR_TIMER0_COMPA (ticks n' t)
  end.

End Led.

(** ** Runs without input *)

(** No byte arrives: only timer interrupts and iterations of the main
    loop. *)
Definition quiet (evs : list event) : Prop :=
  Forall (fun e => match e with USART_RX _ _ => False | _ => True end) evs.

(** Nothing pending in the receive ring and no fatal flag latched. *)
Definition rx_idle (s : state) : Prop :=
  rx_tail s = rx_head s /\
  Z.land (uart_error s) ERROR_RX_BUFFER_OVERFLOW = 0 /\
  Z.land (uart_error s) ERROR_RX_DATA_OVERRUN = 0.

(** ** Flashing an image *)

(** What program memory will hold at [x] once the staged page is
    committed. *)
Definition view (s : state) (x : Z) : Z :=
  if x / PAGE_SIZE =? current_page_address s
  then at_ (page s) (Z.to_nat (x mod PAGE_SIZE)) else flash s x.

(** An image: data records as start address and bytes.  [b] is the byte of
    the image at address [y]. *)
Definition covers (recs : list (Z * list Z)) (y b : Z) : Prop :=
  exists a d k, In (a, d) recs /\ (k < length d)%nat /\
                y = a + Z.of_nat k /\ b = nth k d 0.

(** The records start at 0, follow each other without overlap, hold 1 to
    26 bytes (a line has room for 26) and end below 0xffff. *)
Fixpoint image_ok (next : Z) (recs : list (Z * list Z)) : Prop :=
  match recs with
  | [] => True
  | (a, d) :: rest =>
      (if next =? 0 then a = 0 else next <= a) /\
      (1 <= length d <= 26)%nat /\ Forall is_byte d /\
      a + Z.of_nat (length d) <= 65535 /\
      image_ok (a + Z.of_nat (length d)) rest
  end.

(** The hex lines of an image. *)
Definition image_lines (recs : list (Z * list Z)) : list (list Z) :=
  map (fun r => hex_record (fst r) 0 (snd r)) recs.

(** While an image is flashed: the bytes [K] taken so far lie below [next]
    and in pages up to the staged one, each is where the commit of the
    staged page will leave it right, and the pages that hold none of them
    have the contents [mem0] they started with. *)
Definition image_inv (mem0 : Z -> Z) (s : state) (next : Z)
    (K : Z -> Z -> Prop) : Prop :=
  flash_ready s /\ 0 <= next /\ current_page_address s * PAGE_SIZE <= next /\
  (forall y b, K y b ->
     0 <= y < next /\ y / PAGE_SIZE <= current_page_address s /\ view s y = b) /\
  ((exists y b, K y b /\ y / PAGE_SIZE = current_page_address s) \/
   (current_page_address s = 0 /\ forall y b, ~ K y b)) /\
  (forall x, x / PAGE_SIZE <> current_page_address s ->
     (forall y b, K y b -> y / PAGE_SIZE <> x / PAGE_SIZE) ->
     flash s x = mem0 x).

(** How [last_address] and the bytes taken stand for the next free
    address: nothing taken yet, or the last byte taken lies just below. *)
Definition image_tracks (s : state) (next : Z) (K : Z -> Z -> Prop) : Prop :=
  if next =? 0 then last_address s = 0xffff
  else last_address s = next - 1 /\ exists y b, K y b.

(** ** Records that fit the line buffer *)

(** [flash_hex_line] reads [line[1]] to [line[10 + 2 * count]].  All of
    them lie in the array when the record has at most 26 data bytes. *)
Definition fits_line (l : list Z) : Prop := 10 + 2 * rec_count l < MAX_LINE_LEN.

(** The page crossings among the [n] data bytes from position [i] of a
    record at [address]: the bytes that lie in another page than the byte
    before them, the first of them in another page than the staged page
    [cur]. *)
Fixpoint crossings (address cur i : Z) (n : nat) : nat :=
  match n with
  | O => O
  | S n' =>
      let first := if byte_page address i =? cur then O else 1%nat in
      (first + crossings address (byte_page address i) (i + 1) n')%nat
  end.

(** ** The command q during a pass *)

(** In the pass [mode] entered in state [s], the events [pre] leave the
    loop polling in state [t]; the next iteration of the loop gets a line
    from [get_line] that starts with q, and [reboot_to_app] halts in
    [s3]. *)
Definition quit_entered (mode : Z) (evs : list event) (s s3 : state) : Prop :=
  exists pre post fs t ready t1,
    evs = pre ++ MAIN_LOOP :: post /\
    run_pass mode pre s = PassPolling fs t /\
    get_line t = Ret ready t1 /\ ready <> 0 /\
    at_ (line t1) 0 = chr "q" /\
    reboot_to_app t1 = Halt SPIN_UNTIL_RESET s3.

(** * Properties *)

(** ** Conversion utils *)

Lemma all_below_spec (n : Z) (P : Z -> bool) :
  all_below n P = true -> forall x, 0 <= x < n -> P x = true.
Proof.
  unfold all_below. rewrite forallb_forall. intros H x Hx.
  apply H, list_elem_of_In, elem_of_seqZ. lia.
Qed.

Lemma chr_values :
  chr "0" = 48 /\ chr "9" = 57 /\ chr "A" = 65 /\ chr "F" = 70 /\
  chr "a" = 97 /\ chr "f" = 102 /\ chr ":" = 58.
Proof. repeat split; reflexivity. Qed.

Ltac chr_norm :=
  change (chr "0") with 48 in *; change (chr "9") with 57 in *;
  change (chr "A") with 65 in *; change (chr "F") with 70 in *;
  change (chr "a") with 97 in *; change (chr "f") with 102 in *;
  change (chr ":") with 58 in *.

(** Case analysis on the range tests of the goal. *)
Ltac range_cases :=
  repeat match goal with
         | |- context [if ?b then _ else _] =>
             let E := fresh "E" in
             destruct b eqn:E;
             [apply andb_true_iff in E as [?%Z.leb_le ?%Z.leb_le]
             |apply andb_false_iff in E as [?%Z.leb_gt | ?%Z.leb_gt]]
         end.

Lemma hex_nibble_to_dec_range (c : Z) : 0 <= hex_nibble_to_dec c <= 15.
Proof.
  unfold hex_nibble_to_dec, u8. chr_norm.
  range_cases; try lia; rewrite Z.mod_small; lia.
Qed.

Lemma hex_byte_to_dec_range (s : list Z) : 0 <= hex_byte_to_dec s < 256.
Proof. unfold hex_byte_to_dec, u8. apply Z.mod_pos_bound. lia. Qed.

Lemma hex_word_to_dec_range (s : list Z) : 0 <= hex_word_to_dec s < 65536.
Proof. unfold hex_word_to_dec, u16. apply Z.mod_pos_bound. lia. Qed.

(** C9: [hex_nibble_to_dec] gives a decimal digit its value, gives a letter
    A..F the value 10..15, gives the lowercase letter the value of its
    uppercase counterpart, and gives every other character 0. *)
Theorem hex_nibble_to_dec_permissive (c : Z) :
  (chr "0" <= c <= chr "9" -> hex_nibble_to_dec c = c - chr "0") /\
  (chr "A" <= c <= chr "F" ->
     hex_nibble_to_dec c = c - chr "A" + 10 /\
     hex_nibble_to_dec (c - chr "A" + chr "a") = hex_nibble_to_dec c) /\
  (~ chr "0" <= c <= chr "9" -> ~ chr "A" <= c <= chr "F" ->
   ~ chr "a" <= c <= chr "f" -> hex_nibble_to_dec c = 0).
Proof.
  unfold hex_nibble_to_dec, u8. chr_norm.
  repeat split; intros; range_cases; try lia; rewrite ?Z.mod_small; lia.
Qed.

Lemma hex_nibble_to_dec_permissive_witness :
  hex_nibble_to_dec (chr "7") = 7 /\
  hex_nibble_to_dec (chr "c") = hex_nibble_to_dec (chr "C") /\
  hex_nibble_to_dec (chr "C") = 12 /\
  hex_nibble_to_dec (chr "g") = 0.
Proof.
  destruct (hex_nibble_to_dec_permissive (chr "7")) as (H7 & _ & _).
  destruct (hex_nibble_to_dec_permissive (chr "C")) as (_ & HC & _).
  destruct (hex_nibble_to_dec_permissive (chr "g")) as (_ & _ & Hg).
  split; [apply H7; vm_compute; split; discriminate|].
  destruct HC as [HC1 HC2]; [vm_compute; split; discriminate|].
  split; [exact HC2|]. split; [exact HC1|].
  apply Hg; vm_compute; intros [H1 H2]; auto.
Defined.

(** Packing: [a << n | b] is [a * 2^n + b] when [b] fits in [n] bits. *)
Lemma lor_shiftl_low (a b n : Z) :
  0 <= n -> 0 <= b < 2 ^ n -> Z.lor (Z.shiftl a n) b = a * 2 ^ n + b.
Proof.
  intros Hn Hb.
  assert (D : Z.land (Z.shiftl a n) b = 0).
  { apply Z.bits_inj'. intros i Hi.
    rewrite Z.land_spec, Z.bits_0.
    destruct (Z_lt_le_dec i n) as [Lt | Ge].
    - rewrite Z.shiftl_spec_low by lia. reflexivity.
    - rewrite <- (Z.mod_small b (2 ^ n)) by lia.
      rewrite Z.mod_pow2_bits_high by lia. apply andb_false_r. }
  rewrite <- Z.lxor_lor by exact D.
  rewrite <- Z.add_nocarry_lxor by exact D.
  rewrite Z.shiftl_mul_pow2 by lia. reflexivity.
Qed.

Lemma byte_to_hex_range (x : Z) : 0 <= byte_to_hex x < 65536.
Proof. unfold byte_to_hex, u16. apply Z.mod_pos_bound. lia. Qed.

Lemma byte_round_trip (b : Z) :
  0 <= b < 256 ->
  hex_byte_to_dec (byte_hex_chars b) = b /\
  byte_hex_chars b = [nibble_to_hex (b / 16); nibble_to_hex (b mod 16)].
Proof.
  intros Hb.
  assert (B : all_below 256 (fun b =>
            (hex_byte_to_dec (byte_hex_chars b) =? b) &&
            bool_decide (byte_hex_chars b =
                         [nibble_to_hex (b / 16); nibble_to_hex (b mod 16)]))
          = true) by (vm_compute; reflexivity).
  pose proof (all_below_spec _ _ B b Hb) as [B1 B2]%andb_true_iff.
  apply Z.eqb_eq in B1. apply bool_decide_eq_true in B2. auto.
Qed.

(** The four characters of a word are those of its high byte followed by
    those of its low byte. *)
Lemma word_hex_chars_split (w : Z) :
  0 <= w < 65536 ->
  word_hex_chars w = byte_hex_chars (w / 256) ++ byte_hex_chars (w mod 256).
Proof.
  intros Hw. unfold word_hex_chars, byte_hex_chars, word_to_hex.
  assert (Hhi : u8 (Z.shiftr w 8) = w / 256).
  { unfold u8. rewrite Z.shiftr_div_pow2 by lia. change (2 ^ 8) with 256.
    apply Z.mod_small. Z.div_mod_to_equations. lia. }
  assert (Hlo : u8 (Z.land w 0xff) = w mod 256).
  { unfold u8. change 0xff with (Z.ones 8). rewrite Z.land_ones by lia.
    change (2 ^ 8) with 256. apply Z.mod_small, Z.mod_pos_bound. lia. }
  rewrite Hhi, Hlo.
  pose proof (byte_to_hex_range (w / 256)) as HA.
  pose proof (byte_to_hex_range (w mod 256)) as HB.
  set (A := byte_to_hex (w / 256)) in *. set (B := byte_to_hex (w mod 256)) in *.
  rewrite (lor_shiftl_low A B 16) by (change (2 ^ 16) with 65536; lia).
  change (2 ^ 16) with 65536. unfold u32.
  rewrite (Z.mod_small (A * 65536 + B)) by lia.
  rewrite !Z.shiftr_div_pow2 by lia.
  change 0xff with (Z.ones 8). rewrite !Z.land_ones by lia.
  change (2 ^ 24) with 16777216. change (2 ^ 16) with 65536.
  change (2 ^ 8) with 256. simpl app.
  f_equal; [|f_equal; [|f_equal; [|f_equal]]];
    Z.div_mod_to_equations; lia.
Qed.

(** C8: decoding the two hex digits of a byte gives the byte back, and the
    four hex digits of a 16-bit word give the word back; the digits are
    sent most significant first. *)
Theorem hex_round_trip (b w : Z) :
  0 <= b < 256 -> 0 <= w < 65536 ->
  hex_byte_to_dec (byte_hex_chars b) = b /\
  byte_hex_chars b = [nibble_to_hex (b / 16); nibble_to_hex (b mod 16)] /\
  hex_word_to_dec (word_hex_chars w) = w /\
  word_hex_chars w = byte_hex_chars (w / 256) ++ byte_hex_chars (w mod 256).
Proof.
  intros Hb Hw.
  destruct (byte_round_trip b Hb) as [B1 B2].
  pose proof (word_hex_chars_split w Hw) as W2.
  repeat split; trivial.
  assert (Hhi : 0 <= w / 256 < 256) by (Z.div_mod_to_equations; lia).
  assert (Hlo : 0 <= w mod 256 < 256) by (apply Z.mod_pos_bound; lia).
  destruct (byte_round_trip _ Hhi) as [H1 _].
  destruct (byte_round_trip _ Hlo) as [L1 _].
  rewrite W2. unfold hex_word_to_dec.
  replace (hex_byte_to_dec (byte_hex_chars (w / 256) ++ byte_hex_chars (w mod 256)))
    with (hex_byte_to_dec (byte_hex_chars (w / 256))) by reflexivity.
  replace (drop 2 (byte_hex_chars (w / 256) ++ byte_hex_chars (w mod 256)))
    with (byte_hex_chars (w mod 256)) by reflexivity.
  rewrite H1, L1. unfold u16. rewrite Z.mod_small; Z.div_mod_to_equations; lia.
Qed.

Lemma hex_round_trip_witness :
  hex_byte_to_dec (byte_hex_chars 0xa7) = 0xa7 /\
  byte_hex_chars 0xa7 = [nibble_to_hex (0xa7 / 16); nibble_to_hex (0xa7 mod 16)] /\
  hex_word_to_dec (word_hex_chars 0xbeef) = 0xbeef /\
  word_hex_chars 0xbeef = byte_hex_chars (0xbeef / 256) ++ byte_hex_chars (0xbeef mod 256).
Proof. apply (hex_round_trip 0xa7 0xbeef); lia. Defined.

(** ** Frames *)

Create HintDb frames.

Lemma outputs_refl (s : state) : outputs s s.
Proof. exists []. destruct s; unfold set_sent; simpl. now rewrite app_nil_r. Qed.

Lemma outputs_trans (s1 s2 s3 : state) :
  outputs s1 s2 -> outputs s2 s3 -> outputs s1 s3.
Proof.
  intros [o1 ->] [o2 ->]. exists (o1 ++ o2).
  destruct s1; unfold set_sent; simpl. now rewrite app_assoc.
Qed.

Lemma stages_refl (s : state) : stages s s.
Proof. now destruct s. Qed.

Lemma stages_trans (s1 s2 s3 : state) :
  stages s1 s2 -> stages s2 s3 -> stages s1 s3.
Proof.
  unfold stages. destruct s1, s2, s3; simpl.
  intros H1 H2. inversion H1; inversion H2; subst. reflexivity.
Qed.

Lemma uart_send_byte_outputs (c : Z) (s : state) : outputs s (uart_send_byte c s).
Proof. now exists [u8 c]. Qed.

Lemma uart_send_string_outputs (str : list Z) (s : state) :
  outputs s (uart_send_string str s).
Proof.
  unfold uart_send_string. revert s.
  induction str as [|c str IH]; intros s; simpl.
  - apply outputs_refl.
  - eapply outputs_trans; [apply uart_send_byte_outputs | apply IH].
Qed.

Lemma uart_send_int_outputs (x : Z) (s : state) : outputs s (uart_send_int x s).
Proof.
  unfold uart_send_int. generalize (u16 x) as y. generalize 5%nat as d.
  induction d as [|d IH]; intros y; simpl.
  - apply outputs_refl.
  - destruct (y <? 10).
    + apply uart_send_byte_outputs.
    + eapply outputs_trans; [apply IH | apply uart_send_byte_outputs].
Qed.

(** Five levels of recursion are enough for a [uint16_t]: with one level
    per decimal digit of [x], more levels change nothing. *)
Lemma uart_send_int_rec_enough (d extra : nat) :
  forall x s, 0 <= x < 10 ^ Z.of_nat (S d) ->
  uart_send_int_rec (S d + extra) x s = uart_send_int_rec (S d) x s.
Proof.
  induction d as [|d IH]; intros x s Hx.
  - cbn [Nat.add uart_send_int_rec].
    change (10 ^ Z.of_nat 1) with 10 in Hx.
    destruct (x <? 10) eqn:E; [reflexivity|]. apply Z.ltb_ge in E. lia.
  - change (S (S d) + extra)%nat with (S (S d + extra)).
    cbn [uart_send_int_rec]. destruct (x <? 10); [reflexivity|].
    f_equal. apply IH.
    rewrite Nat2Z.inj_succ, Z.pow_succ_r in Hx by lia.
    split; [apply Z.div_pos; lia|].
    apply Z.div_lt_upper_bound; lia.
Qed.

Lemma dump_chars_outputs (l : list Z) (s : state) : outputs s (dump_chars l s).
Proof.
  revert s. induction l as [|c l IH]; intros s; simpl.
  - apply outputs_refl.
  - destruct (c =? 0); [apply outputs_refl|].
    eapply outputs_trans; [apply uart_send_byte_outputs | apply IH].
Qed.

Lemma dump_line_outputs (s : state) : outputs s (dump_line s).
Proof.
  unfold dump_line.
  eapply outputs_trans; [apply dump_chars_outputs | apply uart_send_string_outputs].
Qed.

Lemma point_out_error_outputs (col carets : Z) (s : state) :
  outputs s (point_out_error col carets s).
Proof.
  unfold point_out_error.
  eapply outputs_trans; [apply uart_send_string_outputs|].
  eapply outputs_trans; apply uart_send_string_outputs.
Qed.

#[local] Hint Resolve outputs_refl uart_send_byte_outputs
  uart_send_string_outputs uart_send_int_outputs dump_line_outputs
  point_out_error_outputs : frames.

Ltac outputs_chain :=
  repeat first
    [ apply outputs_refl
    | eapply outputs_trans; [| solve [eauto with frames] ] ].

Lemma is_address_valid_outputs (last address : Z) (s : state) :
  outputs s (snd (is_address_valid last address s)).
Proof.
  unfold is_address_valid.
  destruct ((last =? 65535) && negb (address =? 0)); simpl.
  { outputs_chain. }
  destruct (negb (last =? 65535) && (address <? last)); simpl; outputs_chain.
Qed.

(** What [is_address_valid] decides. *)
Lemma is_address_valid_spec (last address : Z) (s : state) :
  fst (is_address_valid last address s) =
  if last =? 0xffff then address =? 0 else negb (address <? last).
Proof.
  unfold is_address_valid.
  destruct (last =? 65535), (address =? 0), (address <? last); reflexivity.
Qed.

Lemma is_address_valid_true (last address : Z) (s : state) :
  fst (is_address_valid last address s) = true ->
  snd (is_address_valid last address s) = s.
Proof.
  unfold is_address_valid.
  destruct (last =? 65535), (address =? 0), (address <? last);
    simpl; congruence.
Qed.

(** The fields of [s] that outputs leave alone. *)
Lemma outputs_fields (s s' : state) :
  outputs s s' ->
  line s' = line s /\ page s' = page s /\
  current_page_address s' = current_page_address s /\
  last_address s' = last_address s /\ flash s' = flash s /\
  spm_buffer s' = spm_buffer s /\ spm_calls s' = spm_calls s /\
  r2 s' = r2 s /\ r3 s' = r3 s /\ wdt_armed s' = wdt_armed s.
Proof. intros [o ->]. repeat split. Qed.

Lemma stages_fields (s s' : state) :
  stages s s' ->
  line s' = line s /\ sent s' = sent s /\ last_address s' = last_address s /\
  r2 s' = r2 s /\ r3 s' = r3 s /\ wdt_armed s' = wdt_armed s.
Proof. intros ->. repeat split. Qed.

Lemma fold_left_stages {A} (f : state -> A -> state) (l : list A) :
  (forall s x, stages s (f s x)) -> forall s, stages s (fold_left f l s).
Proof.
  intros Hf. induction l as [|x l IH]; intros s; simpl.
  - apply stages_refl.
  - eapply stages_trans; [apply Hf | apply IH].
Qed.

Lemma set_spm_stages f b c (s : state) : stages s (set_spm f b c s).
Proof. now destruct s. Qed.

Lemma set_page_stages p (s : state) : stages s (set_page p s).
Proof. now destruct s. Qed.

Lemma set_current_page_address_stages a (s : state) :
  stages s (set_current_page_address a s).
Proof. now destruct s. Qed.

Lemma write_current_page_stages (s : state) : stages s (write_current_page s).
Proof.
  unfold write_current_page.
  eapply stages_trans; [|apply set_spm_stages].
  eapply stages_trans; [apply set_spm_stages|].
  apply fold_left_stages. intros s' x. apply set_spm_stages.
Qed.

#[local] Hint Resolve stages_refl set_spm_stages set_page_stages
  set_current_page_address_stages write_current_page_stages : frames.

Lemma seqZ_S (i : Z) (n : nat) :
  seqZ i (Z.of_nat (S n)) = i :: seqZ (i + 1) (Z.of_nat n).
Proof.
  rewrite seqZ_cons by lia. f_equal. f_equal; lia.
Qed.

(** ** The loop over the data bytes *)

Lemma stage_byte_stages (address i b : Z) (s : state) :
  stages s (stage_byte address i b s).
Proof.
  unfold stage_byte.
  eapply stages_trans; [|apply set_page_stages].
  destruct (negb _); [|apply stages_refl].
  eapply stages_trans; [|apply set_current_page_address_stages].
  eapply stages_trans; [apply write_current_page_stages|].
  apply set_page_stages.
Qed.

Lemma u8_add_sum (c b t : Z) : u8 (u8 (c + b) + t) = u8 (c + (b + t)).
Proof. unfold u8. rewrite Z.add_mod_idemp_l by lia. f_equal. lia. Qed.

Lemma u8_small (c : Z) : 0 <= c < 256 -> u8 (c + 0) = c.
Proof. intros H. unfold u8. rewrite Z.add_0_r. now apply Z.mod_small. Qed.

Lemma u8_range (x : Z) : 0 <= u8 x < 256.
Proof. apply Z.mod_pos_bound. lia. Qed.

(** In flash mode the loop always runs to its end; it only touches the
    staged page, its index and the flash, and it adds up the data bytes. *)
Lemma data_loop_flash (address : Z) (n : nat) :
  forall i c s, 0 <= c < 256 ->
  exists s',
    data_loop MODE_FLASH address n i c s =
      Completed (u8 (c + Zsum (map (rec_byte (line s)) (seqZ i (Z.of_nat n))))) s'
    /\ stages s s'.
Proof.
  induction n as [|n IH]; intros i c s Hc.
  - exists s. split; [|apply stages_refl].
    cbn [data_loop]. change (Z.of_nat 0) with 0. cbn [seqZ map Zsum foldr].
    now rewrite u8_small.
  - rewrite seqZ_S.
    change (data_loop MODE_FLASH address (S n) i c s)
      with (data_loop MODE_FLASH address n (i + 1) (u8 (c + rec_byte (line s) i))
              (stage_byte address i (rec_byte (line s) i) s)).
    pose proof (stage_byte_stages address i (rec_byte (line s) i) s) as St.
    destruct (IH (i + 1) (u8 (c + rec_byte (line s) i))
                (stage_byte address i (rec_byte (line s) i) s) (u8_range _))
      as (s' & E & St').
    exists s'. split; [|eapply stages_trans; eassumption].
    rewrite E. destruct (stages_fields _ _ St) as [-> _].
    cbn [map Zsum foldr]. now rewrite u8_add_sum.
Qed.

(** In verify mode the loop changes nothing when it runs to its end, and
    it runs to its end exactly when every byte matches the flash. *)
Lemma data_loop_verify (mode address : Z) (n : nat) :
  (mode =? MODE_FLASH) = false ->
  forall i c s, 0 <= c < 256 ->
  if verify_ok s address i n
  then data_loop mode address n i c s =
         Completed (u8 (c + Zsum (map (rec_byte (line s)) (seqZ i (Z.of_nat n))))) s
  else exists s', data_loop mode address n i c s = Returned FLASH_ERROR s'
                  /\ outputs s s'.
Proof.
  intros Hm. unfold verify_ok.
  induction n as [|n IH]; intros i c s Hc.
  - cbn [data_loop]. change (Z.of_nat 0) with 0. cbn [seqZ map Zsum foldr forallb].
    now rewrite u8_small.
  - rewrite seqZ_S. cbn [data_loop map Zsum foldr forallb]. rewrite Hm.
    fold (rec_byte (line s) i).
    destruct (pgm_read_byte (u16 (address + i)) s =? rec_byte (line s) i);
      cbn [negb andb].
    + specialize (IH (i + 1) (u8 (c + rec_byte (line s) i)) s (u8_range _)).
      destruct (forallb _ _).
      * rewrite IH. now rewrite u8_add_sum.
      * exact IH.
    + eexists. split; [reflexivity|]. unfold report_mismatch. outputs_chain.
Qed.

(** ** One record *)

Lemma rec_count_range (l : list Z) : 0 <= rec_count l < 256.
Proof. apply hex_byte_to_dec_range. Qed.

Lemma rec_address_range (l : list Z) : 0 <= rec_address l < 65536.
Proof. apply hex_word_to_dec_range. Qed.

(** *** What is read of a record that fits the line buffer *)

Lemma at_in_array (l l' : list Z) (k : nat) :
  take 64 l' = take 64 l -> (k < 64)%nat -> at_ l' k = at_ l k.
Proof.
  intros E Hk. unfold at_. rewrite !nth_lookup.
  rewrite <- (lookup_take_lt l' 64 k), <- (lookup_take_lt l 64 k) by exact Hk.
  now rewrite E.
Qed.

Lemma at_drop (l : list Z) (k j : nat) : at_ (drop k l) j = at_ l (k + j).
Proof. unfold at_. rewrite !nth_lookup. now rewrite lookup_drop. Qed.

Lemma hex_byte_in_array (l l' : list Z) (k : nat) :
  take 64 l' = take 64 l -> (k + 1 < 64)%nat ->
  hex_byte_to_dec (drop k l') = hex_byte_to_dec (drop k l).
Proof.
  intros E Hk. unfold hex_byte_to_dec. rewrite !at_drop.
  rewrite (at_in_array l l' (k + 0) E), (at_in_array l l' (k + 1) E) by lia.
  reflexivity.
Qed.

(** The fields [flash_hex_line] reads of a record that fits the line
    buffer are cells of the array: they are the same for every list that
    has the same first [MAX_LINE_LEN] cells, whatever follows them. *)
Lemma fits_line_reads (l l' : list Z) :
  fits_line l -> take 64 l' = take 64 l ->
  rec_count l' = rec_count l /\ rec_address l' = rec_address l /\
  rec_type l' = rec_type l /\
  (forall i, 0 <= i <= rec_count l -> rec_byte l' i = rec_byte l i) /\
  rec_sum l' = rec_sum l.
Proof.
  unfold fits_line, MAX_LINE_LEN. intros F E.
  assert (C : rec_count l' = rec_count l)
    by (apply (hex_byte_in_array l l' 1 E); lia).
  assert (A : rec_address l' = rec_address l).
  { unfold rec_address, hex_word_to_dec. rewrite !drop_drop.
    rewrite (hex_byte_in_array l l' 3 E), (hex_byte_in_array l l' (3 + 2) E) by lia.
    reflexivity. }
  assert (T : rec_type l' = rec_type l)
    by (apply (hex_byte_in_array l l' 7 E); lia).
  assert (B : forall i, 0 <= i <= rec_count l -> rec_byte l' i = rec_byte l i).
  { intros i Hi. apply (hex_byte_in_array l l' _ E). lia. }
  split; [exact C|]. split; [exact A|]. split; [exact T|]. split; [exact B|].
  pose proof (rec_count_range l) as Rc.
  unfold rec_sum. rewrite C, A, T, (B (rec_count l)) by lia.
  do 2 f_equal. f_equal. f_equal. apply map_ext_in. intros i Hi.
  apply list_elem_of_In, elem_of_seqZ in Hi. apply B. lia.
Qed.

(** The running checksum of the code is the sum of the specification. *)
Lemma running_checksum (l : list Z) :
  u8 (u8 (rec_header_sum l + Zsum (map (rec_byte l) (seqZ 0 (rec_count l))))
      + rec_byte l (rec_count l)) = rec_sum l.
Proof.
  unfold rec_header_sum, rec_sum.
  rewrite Z.shiftr_div_pow2 by lia. change (2 ^ 8) with 256.
  generalize (Zsum (map (rec_byte l) (seqZ 0 (rec_count l)))) as sm.
  generalize (rec_byte l (rec_count l)) as tr. intros tr sm.
  unfold u8. Z.div_mod_to_equations. lia.
Qed.

Lemma is_address_valid_decides (last address : Z) (s : state) :
  is_address_valid last address s =
  (address_accepted last address, snd (is_address_valid last address s)).
Proof.
  unfold address_accepted. rewrite <- (is_address_valid_spec last address s).
  now destruct (is_address_valid _ _ _).
Qed.

(** [flash_hex_line] in verify mode. *)
Lemma flash_hex_line_verify (mode : Z) (s : state) :
  (mode =? MODE_FLASH) = false ->
  let l := line s in
  let r := flash_hex_line mode s in
  let accepted :=
    negb (rec_type l =? 0) || address_accepted (last_address s) (rec_address l) in
  let matches :=
    verify_ok s (rec_address l) 0 (Z.to_nat (rec_count l)) in
  exists o,
    (fst r = FLASH_ERROR /\ snd r = set_sent (sent s ++ o) s /\
     (accepted && matches && (rec_sum l =? 0) = false))
    \/ (fst r = FLASH_OK /\ snd r = s /\
        accepted = true /\ matches = true /\ rec_sum l = 0 /\ rec_type l = 1)
    \/ (fst r = FLASH_GOING_ON /\
        snd r = set_last_address (u16 (rec_address l + rec_count l - 1))
                  (set_sent (sent s ++ o) s) /\
        accepted = true /\ matches = true /\ rec_sum l = 0 /\ rec_type l <> 1).
Proof.
  intros Hm l r accepted matches. subst r. unfold flash_hex_line.
  fold l. fold (rec_count l) (rec_address l) (rec_type l).
  assert (V : exists o0,
      (if rec_type l =? 0
       then is_address_valid (last_address s) (rec_address l) s
       else (true, s)) = (accepted, set_sent (sent s ++ o0) s)
      /\ (accepted = true -> set_sent (sent s ++ o0) s = s)).
  { subst accepted. destruct (rec_type l =? 0); cbn [negb orb].
    - rewrite is_address_valid_decides.
      destruct (is_address_valid_outputs (last_address s) (rec_address l) s)
        as [o0 E0].
      exists o0. rewrite <- E0. split; [reflexivity|].
      intros Ha. apply is_address_valid_true.
      rewrite is_address_valid_spec. exact Ha.
    - destruct (outputs_refl s) as [o0 E0]. exists o0.
      now rewrite <- E0. }
  destruct V as (o0 & -> & Hs0).
  destruct accepted eqn:Hacc; cbn [negb andb].
  2: { exists o0. left. auto. }
  rewrite (Hs0 eq_refl). clear Hs0 o0.
  fold (rec_header_sum l).
  pose proof (data_loop_verify mode (rec_address l) (Z.to_nat (rec_count l)) Hm
                0 (rec_header_sum l) s (u8_range _)) as L.
  fold l in L. fold matches in L.
  destruct matches eqn:Hmat; cbn [andb].
  2: { destruct L as (s' & -> & [o ->]). exists o. left. auto. }
  rewrite L. rewrite Z2Nat.id by apply rec_count_range.
  fold (rec_byte l (rec_count l)). rewrite running_checksum.
  destruct (rec_sum l =? 0) eqn:Hsum; cbn [negb].
  2: { match goal with
       | |- context [dump_line ?x] =>
           assert (O : outputs s (dump_line x)) by outputs_chain
       end.
       destruct O as [o ->]. exists o. left. auto. }
  apply Z.eqb_eq in Hsum.
  destruct (rec_type l =? 1) eqn:Ht.
  - apply Z.eqb_eq in Ht. rewrite Hm. exists []. right. left.
    repeat split; auto.
  - apply Z.eqb_neq in Ht. rewrite Hm.
    match goal with
    | |- context [set_last_address _ ?x] =>
        assert (O : outputs s x) by outputs_chain
    end.
    destruct O as [o ->]. exists o. right. right. repeat split; auto.
Qed.

(** [flash_hex_line] in flash mode: [s1] is the state the loop over the
    data bytes leaves behind. *)
Lemma flash_hex_line_flash (s : state) :
  let l := line s in
  let r := flash_hex_line MODE_FLASH s in
  if negb (rec_type l =? 0) || address_accepted (last_address s) (rec_address l)
  then
    exists c1 s1,
      data_loop MODE_FLASH (rec_address l) (Z.to_nat (rec_count l)) 0
        (rec_header_sum l) s = Completed c1 s1 /\
      stages s s1 /\
      if rec_sum l =? 0 then
        if rec_type l =? 1 then
          r = (FLASH_OK,
               set_last_address 0xffff (set_current_page_address 0
                 (new_page (boot_rww_enable_safe (write_current_page s1)))))
        else
          fst r = FLASH_GOING_ON /\
          exists o, snd r = set_last_address
                              (u16 (rec_address l + rec_count l - 1))
                              (set_sent (sent s1 ++ o) s1)
      else fst r = FLASH_ERROR /\ outputs s1 (snd r)
  else fst r = FLASH_ERROR /\ outputs s (snd r).
Proof.
  intros l r. subst r. unfold flash_hex_line.
  fold l. fold (rec_count l) (rec_address l) (rec_type l).
  destruct (data_loop_flash (rec_address l) (Z.to_nat (rec_count l)) 0
              (rec_header_sum l) s (u8_range _)) as (s1 & L & St).
  fold l in L. rewrite Z2Nat.id in L by apply rec_count_range.
  assert (Hl : line s1 = l) by now destruct (stages_fields _ _ St) as [-> _].
  assert (K :
    let checksum :=
      u8 (u8 (rec_header_sum l + Zsum (map (rec_byte l) (seqZ 0 (rec_count l))))
          + hex_byte_to_dec (drop (Z.to_nat (9 + rec_count l * 2)) (line s1))) in
    checksum = rec_sum l).
  { rewrite Hl. apply running_checksum. }
  cbv zeta in K.
  destruct (rec_type l =? 0) eqn:Ht0; cbn [negb orb].
  - rewrite is_address_valid_decides.
    destruct (address_accepted (last_address s) (rec_address l)) eqn:Hacc;
      cbn [negb].
    + rewrite is_address_valid_true
        by (rewrite is_address_valid_spec; exact Hacc).
      fold (rec_header_sum l). rewrite L, K.
      eexists. exists s1. split; [reflexivity|]. split; [exact St|].
      destruct (rec_sum l =? 0); cbn [negb].
      * apply Z.eqb_eq in Ht0. rewrite Ht0.
        change (0 =? 1) with false. cbv iota. split; [reflexivity|].
        match goal with
        | |- context [set_last_address _ ?x] =>
            assert (O : outputs s1 x) by outputs_chain
        end.
        destruct O as [o ->]. now exists o.
      * split; [reflexivity|]. cbn [snd]. outputs_chain.
    + split; [reflexivity|]. apply is_address_valid_outputs.
  - fold (rec_header_sum l). cbn [negb]. rewrite L, K.
    eexists. exists s1. split; [reflexivity|]. split; [exact St|].
    destruct (rec_sum l =? 0); cbn [negb].
    + destruct (rec_type l =? 1); [reflexivity|].
      split; [reflexivity|].
      match goal with
      | |- context [set_last_address _ ?x] =>
          assert (O : outputs s1 x) by outputs_chain
      end.
      destruct O as [o ->]. now exists o.
    + split; [reflexivity|]. cbn [snd]. outputs_chain.
Qed.

(** ** Verify mode changes nothing but the address tracking state *)

(** C10: in verify mode [flash_hex_line] leaves the page buffer, the current
    page index and the flash alone and makes no call to the self-programming
    interface; besides sending text it changes [last_address] only, and only
    when it returns FLASH_GOING_ON, to the record's end address. *)
Theorem verify_mode_frame (s : state) :
  let r := flash_hex_line MODE_VERIFY s in
  page (snd r) = page s /\
  current_page_address (snd r) = current_page_address s /\
  flash (snd r) = flash s /\
  spm_buffer (snd r) = spm_buffer s /\
  spm_calls (snd r) = spm_calls s /\
  (exists o, snd r = set_last_address (last_address (snd r))
                       (set_sent (sent s ++ o) s)) /\
  last_address (snd r) =
    if fst r =? FLASH_GOING_ON
    then u16 (rec_address (line s) + rec_count (line s) - 1)
    else last_address s.
Proof.
  intros r.
  destruct (flash_hex_line_verify MODE_VERIFY s eq_refl) as (o & H).
  fold r in H.
  destruct H as [(E & -> & _) | [(E & -> & _) | (E & -> & _)]]; rewrite E;
    repeat split; try (exists o; now destruct s).
  exists []. destruct s; unfold set_sent, set_last_address; simpl.
  now rewrite app_nil_r.
Qed.

(** ** Status and address tracking, for either mode *)

Lemma flash_hex_line_status (mode : Z) (s : state) :
  let l := line s in
  let r := flash_hex_line mode s in
  (negb (rec_type l =? 0)
   || address_accepted (last_address s) (rec_address l) = false ->
   fst r = FLASH_ERROR) /\
  (rec_sum l <> 0 -> fst r = FLASH_ERROR) /\
  (fst r = FLASH_ERROR \/
   (fst r = FLASH_OK /\ rec_type l = 1 /\ rec_sum l = 0) \/
   (fst r = FLASH_GOING_ON /\ rec_type l <> 1 /\ rec_sum l = 0 /\
    last_address (snd r) = u16 (rec_address l + rec_count l - 1))).
Proof.
  intros l r.
  destruct (mode =? MODE_FLASH) eqn:Hm.
  - apply Z.eqb_eq in Hm. subst mode.
    pose proof (flash_hex_line_flash s) as F. fold l r in F. cbv zeta in F.
    destruct (negb (rec_type l =? 0)
              || address_accepted (last_address s) (rec_address l)).
    2: { destruct F as [E _]. auto. }
    destruct F as (c1 & s1 & _ & _ & F).
    destruct (rec_sum l =? 0) eqn:Hsum.
    2: { destruct F as [E _]. auto. }
    apply Z.eqb_eq in Hsum.
    split; [discriminate|]. split; [contradiction|].
    destruct (rec_type l =? 1) eqn:Ht.
    + apply Z.eqb_eq in Ht. rewrite F. right. left. auto.
    + apply Z.eqb_neq in Ht. destruct F as (E & o & ->).
      right. right. auto.
  - destruct (flash_hex_line_verify mode s Hm) as (o & H).
    fold l r in H. cbv zeta in H.
    destruct H as [(E & _ & _) | [(E & _ & A & _ & Hs & Ht)
                                 | (E & -> & A & _ & Hs & Ht)]].
    + auto.
    + rewrite A. split; [discriminate|]. split; [contradiction|].
      right. left. auto.
    + rewrite A. split; [discriminate|]. split; [contradiction|].
      right. right. auto.
Qed.

(** ** Address validation over a sequence of data records *)

Lemma with_line_fields (str : list Z) (s : state) :
  line (with_line str s) = buffer str /\
  last_address (with_line str s) = last_address s.
Proof. split; reflexivity. Qed.

(** A data record whose address breaks the order is rejected, and one that
    is accepted moves [last_address] to its end address. *)
Lemma flash_lines_rejects (mode : Z) (ls : list (list Z)) :
  forall prev status s,
  tracks prev (last_address s) ->
  Forall (fun l => rec_type (buffer l) = 0 /\
                   rec_address (buffer l) + rec_count (buffer l) - 1 < 0xffff) ls ->
  addresses_ok prev (map rec_span ls) = false ->
  fst (flash_lines mode ls status s) = FLASH_ERROR.
Proof.
  induction ls as [|l ls IH]; intros prev status s T F A.
  - discriminate A.
  - apply Forall_cons in F as [[Ht Hend] F].
    cbn [flash_lines map addresses_ok rec_span] in *.
    pose proof (flash_hex_line_status mode (with_line l s)) as (Hrej & _ & Hst).
    destruct (with_line_fields l s) as [Hl Hla]. rewrite Hl, Hla in *.
    destruct (flash_hex_line mode (with_line l s)) as [status' s'] eqn:E.
    cbn [fst snd] in *. rewrite Ht in *. cbn [negb orb Z.eqb] in Hrej.
    pose proof (rec_address_range (buffer l)) as Ra.
    pose proof (rec_count_range (buffer l)) as Rc.
    set (a := rec_address (buffer l)) in *. set (n := rec_count (buffer l)) in *.
    destruct Hst as [-> | [(_ & Ht1 & _) | (-> & _ & _ & Hlast)]].
    + reflexivity.
    + discriminate Ht1.
    + change (FLASH_GOING_ON =? FLASH_GOING_ON) with true. cbv iota.
      apply andb_false_iff in A as [A | A].
      * exfalso. assert (address_accepted (last_address s) a = false) as R.
        { unfold address_accepted, tracks in *. destruct prev as [e|].
          - apply Z.leb_gt in A. destruct T as [[-> _] | [He ->]]; [lia|].
            destruct (e =? 65535) eqn:Q; [apply Z.eqb_eq in Q; lia|].
            apply negb_false_iff, Z.ltb_lt. lia.
          - rewrite T. exact A. }
        specialize (Hrej R). discriminate Hrej.
      * apply (IH (Some (a + n - 1))); [|exact F|exact A].
        unfold tracks. rewrite Hlast. unfold u16.
        destruct (Z.eq_dec (a + n - 1) (-1)) as [Q | Q].
        -- left. rewrite Q. split; reflexivity.
        -- right. rewrite Z.mod_small by lia. split; [lia|reflexivity].
Qed.

(** The address check as it works while no record ends at 0xffff: when the
    end address of every data record (the address of its last byte) is
    below 0xffff, a sequence of data records processed from the initial
    address tracking state is rejected with FLASH_ERROR as soon as the
    first record does not start at 0 or a later record starts below the
    end address of the record before it.  In particular a first data
    record at address 5 is rejected. *)
Theorem address_violation_rejected (mode : Z) (ls : list (list Z)) (s : state) :
  last_address s = 0xffff ->
  (Forall (fun l => rec_type (buffer l) = 0 /\
                    rec_address (buffer l) + rec_count (buffer l) - 1 < 0xffff) ls ->
   addresses_ok None (map rec_span ls) = false ->
   fst (flash_lines mode ls FLASH_WAITING s) = FLASH_ERROR) /\
  (rec_type (line s) = 0 -> rec_address (line s) = 5 ->
   fst (flash_hex_line mode s) = FLASH_ERROR).
Proof.
  intros Hla. split.
  - intros F A. now apply (flash_lines_rejects mode ls None).
  - intros Ht Ha.
    destruct (flash_hex_line_status mode s) as (Hrej & _).
    apply Hrej. rewrite Ht, Ha, Hla. reflexivity.
Qed.

Lemma address_violation_rejected_witness :
  fst (flash_lines MODE_FLASH
         [hex_record 0 0 [0x0c; 0x94]; hex_record 1 0 [0x34; 0x00];
          hex_record 0 0 [0xff]] FLASH_WAITING fresh) = FLASH_ERROR /\
  fst (flash_hex_line MODE_FLASH
         (with_line (hex_record 5 0 [0x0c; 0x94]) fresh)) = FLASH_ERROR.
Proof.
  split.
  - apply (address_violation_rejected MODE_FLASH _ fresh); [reflexivity| |].
    + repeat constructor; vm_compute; congruence.
    + vm_compute. reflexivity.
  - apply (address_violation_rejected MODE_FLASH [] _); reflexivity.
Defined.

(** C2 fails on the code: [last_address] keeps 0xffff as the value that
    means that no record was seen, and a data record that ends at address
    0xffff leaves it there.  The data record that follows is then checked
    as a first record: at address 0 it is accepted, although it starts
    below the end address of the record before it.  Here one byte at 0,
    sixteen bytes at 0xfff0 and one byte at 0 again are all accepted. *)
Theorem address_regression_accepted :
  let ls := [hex_record 0 0 [0x55]; hex_record 0xfff0 0 (replicate 16 0);
             hex_record 0 0 [0x55]] in
  Forall (fun l => rec_type (buffer l) = 0) ls /\
  map rec_span ls = [(0, 1); (0xfff0, 16); (0, 1)] /\
  addresses_ok None (map rec_span ls) = false /\
  (let r := flash_lines MODE_FLASH (take 2 ls) FLASH_WAITING fresh in
   fst r = FLASH_GOING_ON /\ last_address (snd r) = 0xffff /\
   address_accepted (last_address (snd r)) 0 = true) /\
  fst (flash_lines MODE_FLASH ls FLASH_WAITING fresh) = FLASH_GOING_ON /\
  fst (flash_lines MODE_FLASH ls FLASH_WAITING fresh) <> FLASH_ERROR.
Proof.
  cbv zeta. split; [repeat constructor|].
  vm_compute. repeat split; discriminate.
Qed.


(** ** Signature and watchdog along the monadic code *)

Lemma same_boot_refl (s : state) : same_boot s s.
Proof. repeat split. Qed.

Lemma same_boot_trans (s1 s2 s3 : state) :
  same_boot s1 s2 -> same_boot s2 s3 -> same_boot s1 s3.
Proof. unfold same_boot. intuition congruence. Qed.

Lemma outputs_same_boot (s s' : state) : outputs s s' -> same_boot s s'.
Proof. intros [o ->]. repeat split. Qed.

Lemma stages_same_boot (s s' : state) : stages s s' -> same_boot s s'.
Proof. intros ->. repeat split. Qed.

Section Safe.
Context {A B : Type} (P : halt -> Prop).

Lemma safe_ret (a : A) : safe P (mret a).
Proof. intros s. apply same_boot_refl. Qed.

Lemma safe_bind (m : M A) (f : A -> M B) :
  safe P m -> (forall a, safe P (f a)) -> safe P (m ≫= f).
Proof.
  intros Hm Hf s. unfold mbind, M_bind. specialize (Hm s).
  destruct (m s) as [a s1 | h s1]; [|exact Hm].
  specialize (Hf a s1). destruct (f a s1) as [b s2 | h s2]; [|exact Hf].
  eapply same_boot_trans; eassumption.
Qed.

Lemma safe_fmap (g : A -> B) (m : M A) : safe P m -> safe P (g <$> m).
Proof.
  intros Hm s. unfold fmap, M_fmap. specialize (Hm s).
  now destruct (m s).
Qed.

Lemma safe_gets (g : state -> A) : safe P (gets g).
Proof. intros s. apply same_boot_refl. Qed.

Lemma safe_call (g : state -> A * state) :
  (forall s, same_boot s (snd (g s))) -> safe P (call g).
Proof. intros Hg s. unfold call. specialize (Hg s). now destruct (g s). Qed.

Lemma safe_if (b : bool) (m1 m2 : M A) :
  safe P m1 -> safe P m2 -> safe P (if b then m1 else m2).
Proof. now destruct b. Qed.
End Safe.

Lemma safe_modify (P : halt -> Prop) (g : state -> state) :
  (forall s, same_boot s (g s)) -> safe P (modify g).
Proof. intros Hg s. apply Hg. Qed.

Lemma safe_when (P : halt -> Prop) (b : bool) (m : M unit) :
  safe P m -> safe P (when b m).
Proof. intros Hm. unfold when. apply safe_if; [exact Hm | apply safe_ret]. Qed.

Lemma safe_weaken {A} (P Q : halt -> Prop) (m : M A) :
  (forall h, P h -> Q h) -> safe P m -> safe Q m.
Proof.
  intros PQ Hm s. specialize (Hm s). destruct (m s); [exact Hm|].
  destruct Hm. auto.
Qed.

Lemma uart_send_string_same_boot (str : list Z) (s : state) :
  same_boot s (uart_send_string str s).
Proof. apply outputs_same_boot, uart_send_string_outputs. Qed.

Lemma store_line_same_boot (i c : Z) (s : state) : same_boot s (store_line i c s).
Proof. unfold store_line. destruct (_ && _); repeat split. Qed.

Lemma reboot_to_bootloader_safe :
  safe (eq IDLE_UNTIL_RESET) reboot_to_bootloader.
Proof. intros s. cbn. repeat split. Qed.

Lemma reboot_to_app_safe : safe (eq SPIN_UNTIL_RESET) reboot_to_app.
Proof. intros s. cbn. repeat split. Qed.

(** Applies the rules of [safe] along the structure of the code. *)
Ltac safe_step :=
  first
    [ apply safe_bind; [|intros ?]
    | apply safe_when
    | apply safe_if
    | apply safe_ret
    | apply safe_gets
    | apply safe_fmap
    | apply safe_modify; intros ?;
      first [ apply uart_send_string_same_boot
            | apply store_line_same_boot
            | repeat split ]
    | apply safe_call; intros ? ].

(** [get_line] returns with signature and watchdog as they were, or reboots
    into the bootloader. *)
Lemma get_line_safe : safe (eq IDLE_UNTIL_RESET) get_line.
Proof.
  unfold get_line.
  repeat first [ apply reboot_to_bootloader_safe | safe_step ].
  unfold uart_recv_byte. destruct (_ =? _); repeat split.
Qed.

(** Unfolds the monadic combinators of a goal or hypothesis. *)
Ltac run_M :=
  unfold mbind, M_bind, mret, M_ret, fmap, M_fmap, gets, modify, when, stop,
    call in *.

Lemma uart_send_byte_same_boot (c : Z) (s : state) :
  same_boot s (uart_send_byte c s).
Proof. repeat split. Qed.

Lemma dump_flash_same_boot (s : state) : same_boot s (dump_flash s).
Proof.
  unfold dump_flash.
  eapply same_boot_trans; [|apply uart_send_string_same_boot].
  assert (G : forall l acc, same_boot (snd acc) (snd (fold_left dump_flash_step l acc))).
  { induction l as [|a l IH]; intros acc; [apply same_boot_refl|].
    cbn [fold_left]. eapply same_boot_trans; [|apply IH].
    destruct acc as [c t]. unfold dump_flash_step.
    destruct (a mod 16 =? 0), (a mod 16 =? 15); repeat split. }
  apply (G _ (0, s)).
Qed.

Lemma prompt_same_boot (s : state) : same_boot s (prompt s).
Proof. apply uart_send_string_same_boot. Qed.

Lemma run_command_safe : safe (fun _ => True) run_command.
Proof.
  unfold run_command.
  apply safe_bind; [apply safe_gets|]. intros c.
  repeat apply safe_if.
  - eapply safe_weaken; [|apply reboot_to_app_safe]. auto.
  - eapply safe_weaken; [|apply reboot_to_bootloader_safe]. auto.
  - apply safe_bind; intros; apply safe_modify; intros;
      [apply dump_flash_same_boot | apply prompt_same_boot].
  - apply safe_bind; intros; apply safe_modify; intros;
      [apply uart_send_string_same_boot | apply prompt_same_boot].
  - apply safe_modify. intros. apply prompt_same_boot.
  - apply safe_bind; intros; apply safe_modify; intros;
      [apply uart_send_string_same_boot | apply prompt_same_boot].
Qed.

(** [run_command] reboots into the application for the command q only. *)
Lemma run_command_spin (s s' : state) :
  run_command s = Halt SPIN_UNTIL_RESET s' -> at_ (line s) 0 = chr "q".
Proof.
  unfold run_command. run_M.
  destruct (at_ (line s) 0 =? chr "q") eqn:Q; [now apply Z.eqb_eq in Q|].
  repeat match goal with
         | |- context [if ?b then _ else _] => destruct b
         end; cbn; discriminate.
Qed.

Lemma flash_hex_line_same_boot (mode : Z) (s : state) :
  same_boot s (snd (flash_hex_line mode s)).
Proof.
  destruct (mode =? MODE_FLASH) eqn:Hm.
  - apply Z.eqb_eq in Hm. subst mode.
    pose proof (flash_hex_line_flash s) as F. cbv zeta in F.
    destruct (_ || _).
    2: { destruct F as [_ O]. now apply outputs_same_boot. }
    destruct F as (c1 & s1 & _ & St%stages_same_boot & F).
    eapply same_boot_trans; [exact St|].
    destruct (rec_sum (line s) =? 0).
    2: { destruct F as [_ O]. now apply outputs_same_boot. }
    destruct (rec_type (line s) =? 1).
    + rewrite F. cbn [snd].
      destruct (stages_same_boot _ _ (write_current_page_stages s1))
        as (? & ? & ?).
      repeat split; assumption.
    + destruct F as (_ & o & ->). repeat split.
  - destruct (flash_hex_line_verify mode s Hm) as (o & H). cbv zeta in H.
    destruct H as [(_ & -> & _) | [(_ & -> & _) | (_ & -> & _)]];
      repeat split.
Qed.

Lemma pass_iteration_safe (mode flash_status : Z) :
  safe (fun _ => True) (pass_iteration mode flash_status).
Proof.
  unfold pass_iteration.
  apply safe_bind.
  { eapply safe_weaken; [|apply get_line_safe]. auto. }
  intros ready. apply safe_if; [|apply safe_ret].
  apply safe_bind; [apply safe_gets|]. intros hex. apply safe_if.
  - apply safe_bind.
    + apply safe_when, safe_modify. intros s. repeat split.
    + intros _. apply safe_call. apply flash_hex_line_same_boot.
  - apply safe_bind; [apply run_command_safe|]. intros. apply safe_ret.
Qed.

(** For the command q [run_command] is [reboot_to_app]. *)
Lemma run_command_quit (s s' : state) :
  run_command s = Halt SPIN_UNTIL_RESET s' ->
  at_ (line s) 0 = chr "q" /\ reboot_to_app s = Halt SPIN_UNTIL_RESET s'.
Proof.
  intros C. pose proof (run_command_spin s s' C) as Q.
  split; [exact Q|].
  assert (T : (at_ (line s) 0 =? chr "q") = true) by (apply Z.eqb_eq; exact Q).
  unfold run_command in C. run_M. rewrite T in C. exact C.
Qed.

(** The main loop reboots into the application only when [get_line] has
    delivered a line that starts with q. *)
Lemma pass_iteration_spin (mode flash_status : Z) (s s' : state) :
  pass_iteration mode flash_status s = Halt SPIN_UNTIL_RESET s' ->
  exists ready s0, get_line s = Ret ready s0 /\ ready <> 0 /\
                   at_ (line s0) 0 = chr "q" /\
                   reboot_to_app s0 = Halt SPIN_UNTIL_RESET s'.
Proof.
  unfold pass_iteration. unfold mbind at 1. unfold M_bind at 1.
  pose proof (get_line_safe s) as G.
  destruct (get_line s) as [ready s0 | h s0] eqn:E.
  2: { destruct G as [<- _]. discriminate. }
  intros H. exists ready, s0. split; [reflexivity|].
  destruct (ready =? 0) eqn:R; cbn [negb] in H; [discriminate H|].
  apply Z.eqb_neq in R. split; [exact R|].
  run_M.
  destruct (line0_is_hex s0).
  - destruct (flash_status =? FLASH_WAITING); cbn in H;
      match type of H with
      | context [flash_hex_line ?m ?t] => destruct (flash_hex_line m t)
      end; discriminate H.
  - destruct (run_command s0) eqn:C; [discriminate H|].
    injection H as -> ->. eapply run_command_quit, C.
Qed.

(** ** The two passes *)

Lemma reboot_to_bootloader_halts (s : state) :
  exists s', reboot_to_bootloader s = Halt IDLE_UNTIL_RESET s'.
Proof. eexists. reflexivity. Qed.

Lemma reboot_to_app_halts (s : state) :
  exists s', reboot_to_app s = Halt SPIN_UNTIL_RESET s'.
Proof. eexists. reflexivity. Qed.

Lemma pass_loop_safe (mode : Z) (evs : list event) :
  forall flash_status s,
  match pass_loop mode flash_status evs s with
  | PassEnded _ s' _ => same_boot s s'
  | PassHalted h s' => halted_ok h s'
  | PassPolling _ s' => same_boot s s'
  end.
Proof.
  induction evs as [|e evs IH]; intros fs s; cbn [pass_loop].
  - apply same_boot_refl.
  - destruct e as [status data | |].
    + specialize (IH fs (ISR_USART_RX status data s)).
      assert (B : same_boot s (ISR_USART_RX status data s)).
      { unfold ISR_USART_RX. destruct (_ =? _); repeat split. }
      destruct (pass_loop _ _ _ _); try exact IH;
        eapply same_boot_trans; eassumption.
    + specialize (IH fs (ISR_TIMER0_COMPA s)).
      assert (B : same_boot s (ISR_TIMER0_COMPA s)) by repeat split.
      destruct (pass_loop _ _ _ _); try exact IH;
        eapply same_boot_trans; eassumption.
    + pose proof (pass_iteration_safe mode fs s) as I.
      destruct (pass_iteration mode fs s) as [fs' s1 | h s1].
      2: { apply I. }
      destruct ((fs' =? FLASH_GOING_ON) || (fs' =? FLASH_WAITING)); [|exact I].
      specialize (IH fs' s1).
      destruct (pass_loop _ _ _ _); try exact IH;
        eapply same_boot_trans; eassumption.
Qed.

(** A pass is cut short by a reboot into the application only through the
    command q: the loop was polling in some state [t] after the events
    [pre], and the iteration that followed got a line that starts with q. *)
Lemma pass_loop_spin (mode : Z) (evs : list event) :
  forall flash_status s s',
  pass_loop mode flash_status evs s = PassHalted SPIN_UNTIL_RESET s' ->
  exists pre post fs t ready t1,
    evs = pre ++ MAIN_LOOP :: post /\
    pass_loop mode flash_status pre s = PassPolling fs t /\
    get_line t = Ret ready t1 /\ ready <> 0 /\
    at_ (line t1) 0 = chr "q" /\
    reboot_to_app t1 = Halt SPIN_UNTIL_RESET s'.
Proof.
  induction evs as [|e evs IH]; intros fs s s'; cbn [pass_loop].
  - discriminate.
  - destruct e as [status data | |].
    + intros H. destruct (IH _ _ _ H) as (pre & post & fs1 & t & ready & t1 & E & P & G).
      exists (USART_RX status data :: pre), post, fs1, t, ready, t1.
      split; [rewrite E; reflexivity|]. split; [exact P | exact G].
    + intros H. destruct (IH _ _ _ H) as (pre & post & fs1 & t & ready & t1 & E & P & G).
      exists (TIMER0_COMPA :: pre), post, fs1, t, ready, t1.
      split; [rewrite E; reflexivity|]. split; [exact P | exact G].
    + destruct (pass_iteration mode fs s) as [fs' s1 | h s1] eqn:I.
      * destruct ((fs' =? FLASH_GOING_ON) || (fs' =? FLASH_WAITING)) eqn:Go;
          [|discriminate].
        intros H.
        destruct (IH _ _ _ H) as (pre & post & fs1 & t & ready & t1 & E & P & G).
        exists (MAIN_LOOP :: pre), post, fs1, t, ready, t1.
        split; [rewrite E; reflexivity|]. split; [|exact G].
        cbn [pass_loop]. rewrite I, Go. exact P.
      * intros H. injection H as -> ->.
        destruct (pass_iteration_spin _ _ _ _ I) as (ready & s0 & G).
        exists [], evs, fs, s, ready, s0.
        split; [reflexivity|]. split; [reflexivity | exact G].
Qed.

Lemma run_pass_spin (mode : Z) (evs : list event) (s s' : state) :
  run_pass mode evs s = PassHalted SPIN_UNTIL_RESET s' ->
  quit_entered mode evs s s'.
Proof. unfold run_pass, quit_entered. apply pass_loop_spin. Qed.

Lemma passes_halted_ok (modes : list Z) :
  forall evs s h s', passes modes evs s = Halted h s' -> halted_ok h s'.
Proof.
  induction modes as [|mode modes IH]; intros evs s h s'; cbn [passes].
  - pose proof (reboot_to_app_safe s) as R.
    destruct (reboot_to_app s); [discriminate|].
    intros H. injection H as <- <-. apply R.
  - unfold run_pass.
    pose proof (pass_loop_safe mode evs FLASH_WAITING (prompt (banner mode s))) as L.
    destruct (pass_loop _ _ _ _) as [fs s1 rest | h1 s1 | fs s1].
    + destruct (negb (fs =? FLASH_OK)); cbn [when].
      * pose proof (reboot_to_bootloader_safe s1) as R.
        destruct (reboot_to_bootloader s1); [apply IH|].
        intros H. injection H as <- <-. apply R.
      * apply IH.
    + intros H. injection H as <- <-. exact L.
    + discriminate.
Qed.

Lemma banner_prompt_same_boot (mode : Z) (s : state) :
  same_boot s (prompt (banner mode s)).
Proof.
  eapply same_boot_trans; [|apply prompt_same_boot].
  unfold banner. destruct (mode =? MODE_FLASH); apply uart_send_string_same_boot.
Qed.

Lemma report_ok_same_boot (s : state) : same_boot s (report_ok s).
Proof.
  unfold report_ok.
  eapply same_boot_trans; [|apply uart_send_string_same_boot].
  eapply same_boot_trans; [apply uart_send_string_same_boot|].
  apply outputs_same_boot, uart_send_int_outputs.
Qed.

(** While the passes run, signature and watchdog stay as [main] left
    them. *)
Lemma passes_polling (modes : list Z) :
  forall evs s mode fs s',
  passes modes evs s = Polling mode fs s' -> same_boot s s'.
Proof.
  induction modes as [|m modes IH]; intros evs s mode fs s'; cbn [passes].
  - destruct (reboot_to_app s); discriminate.
  - unfold run_pass.
    pose proof (pass_loop_safe m evs FLASH_WAITING (prompt (banner m s))) as L.
    pose proof (banner_prompt_same_boot m s) as B.
    destruct (pass_loop _ _ _ _) as [fs1 s1 rest | h1 s1 | fs1 s1].
    + destruct (negb (fs1 =? FLASH_OK)); cbn [when].
      * destruct (reboot_to_bootloader_halts s1) as [t ->]. discriminate.
      * unfold mret, M_ret. intros H%IH.
        eapply same_boot_trans; [exact B|].
        eapply same_boot_trans; [exact L|].
        eapply same_boot_trans; [apply report_ok_same_boot | exact H].
    + discriminate.
    + intros H. injection H as _ _ <-.
      eapply same_boot_trans; eassumption.
Qed.

(** C4, as the code has it: a pass that ends in a state other than FLASH_OK
    makes the bootloader set the signature to zero/zero, arm the watchdog
    and idle until the reset, whatever modes and input remain: a failed
    flash pass is not followed by the verify pass, and after a failed
    verify pass [reboot_to_app] is not reached.  The bootloader reaches
    [reboot_to_app], which sets the signature to the magic pair, only at
    the end of a verify pass that ended FLASH_OK after a flash pass that
    ended FLASH_OK, or in one of the two passes when the loop, still
    polling, gets a line that starts with q; whenever it halts, the
    signature is the one of the reboot it has chosen; and while it is still
    reading input the signature is the one [main] has written. *)
Theorem failed_pass_reboots_to_bootloader
  (mode : Z) (modes : list Z) (evs : list event) (s : state) :
  (forall fs s1 rest,
     run_pass mode evs s = PassEnded fs s1 rest -> fs <> FLASH_OK ->
     exists s2, passes (mode :: modes) evs s = Halted IDLE_UNTIL_RESET s2 /\
                r2 s2 = 0 /\ r3 s2 = 0 /\ wdt_armed s2 = true) /\
  (forall fs s1 rest,
     run_pass MODE_FLASH evs (new_page s) = PassEnded fs s1 rest ->
     fs <> FLASH_OK ->
     exists s2, bootloader evs s = Halted IDLE_UNTIL_RESET s2 /\
                reboot_to_bootloader s1 = Halt IDLE_UNTIL_RESET s2 /\
                r2 s2 = 0 /\ r3 s2 = 0 /\ wdt_armed s2 = true) /\
  (forall s1 rest1 fs s2 rest2,
     run_pass MODE_FLASH evs (new_page s) = PassEnded FLASH_OK s1 rest1 ->
     run_pass MODE_VERIFY rest1 (report_ok s1) = PassEnded fs s2 rest2 ->
     fs <> FLASH_OK ->
     exists s3, bootloader evs s = Halted IDLE_UNTIL_RESET s3 /\
                reboot_to_bootloader s2 = Halt IDLE_UNTIL_RESET s3 /\
                r2 s3 = 0 /\ r3 s3 = 0 /\ wdt_armed s3 = true) /\
  (forall s3,
     bootloader evs s = Halted SPIN_UNTIL_RESET s3 ->
     r2 s3 = BOOTAPP_SIG_1 /\ r3 s3 = BOOTAPP_SIG_2 /\ wdt_armed s3 = true /\
     ((exists s1 rest1 s2 rest2,
         run_pass MODE_FLASH evs (new_page s) = PassEnded FLASH_OK s1 rest1 /\
         run_pass MODE_VERIFY rest1 (report_ok s1) = PassEnded FLASH_OK s2 rest2 /\
         reboot_to_app (report_ok s2) = Halt SPIN_UNTIL_RESET s3)
      \/ quit_entered MODE_FLASH evs (new_page s) s3
      \/ (exists s1 rest1,
            run_pass MODE_FLASH evs (new_page s) = PassEnded FLASH_OK s1 rest1 /\
            quit_entered MODE_VERIFY rest1 (report_ok s1) s3))) /\
  (forall h s3, bootloader evs s = Halted h s3 -> halted_ok h s3) /\
  (forall m fs s3, bootloader evs s = Polling m fs s3 -> same_boot s s3).
Proof.
  split; [|split; [|split; [|split; [|split]]]].
  - intros fs s1 rest E Hfs. cbn [passes]. rewrite E.
    apply Z.eqb_neq in Hfs. rewrite Hfs. cbn [negb when].
    eexists. split; [reflexivity|]. repeat split.
  - intros fs s1 rest E Hfs. unfold bootloader. cbn [passes]. rewrite E.
    apply Z.eqb_neq in Hfs. rewrite Hfs. cbn [negb when].
    destruct (reboot_to_bootloader_halts s1) as [s2 R].
    pose proof (reboot_to_bootloader_safe s1) as Sf. rewrite R in Sf.
    destruct Sf as (_ & S1 & S2 & W).
    rewrite R. exists s2. repeat (split; [first [reflexivity | assumption]|]).
    assumption.
  - intros s1 rest1 fs s2 rest2 E1 E2 Hfs. unfold bootloader. cbn [passes].
    rewrite E1. change (negb (FLASH_OK =? FLASH_OK)) with false. cbn [when].
    unfold mret, M_ret. rewrite E2.
    apply Z.eqb_neq in Hfs. rewrite Hfs. cbn [negb when].
    destruct (reboot_to_bootloader_halts s2) as [s3 R].
    pose proof (reboot_to_bootloader_safe s2) as Sf. rewrite R in Sf.
    destruct Sf as (_ & S1 & S2 & W).
    rewrite R. exists s3. repeat (split; [first [reflexivity | assumption]|]).
    assumption.
  - intros s3 H.
    pose proof (passes_halted_ok _ _ _ _ _ H) as (S1 & S2 & W).
    repeat (split; [assumption|]).
    unfold bootloader in H. cbn [passes] in H.
    destruct (run_pass MODE_FLASH evs (new_page s))
      as [fs1 s1 rest1 | h1 s1 | fs1 s1] eqn:P1; [| |discriminate H].
    2: { injection H as -> ->. right. left. apply run_pass_spin, P1. }
    destruct (fs1 =? FLASH_OK) eqn:F1; cbn [negb when] in H.
    2: { destruct (reboot_to_bootloader_halts s1) as [s' R].
         rewrite R in H. discriminate H. }
    apply Z.eqb_eq in F1. subst fs1.
    unfold mret, M_ret in H.
    destruct (run_pass MODE_VERIFY rest1 (report_ok s1))
      as [fs2 s2 rest2 | h2 s2 | fs2 s2] eqn:P2; [| |discriminate H].
    2: { injection H as -> ->. right. right. exists s1, rest1.
         split; [first [reflexivity | exact P1]|]. apply run_pass_spin, P2. }
    destruct (fs2 =? FLASH_OK) eqn:F2; cbn [negb when] in H.
    2: { destruct (reboot_to_bootloader_halts s2) as [s' R].
         rewrite R in H. discriminate H. }
    apply Z.eqb_eq in F2. subst fs2. left. exists s1, rest1, s2, rest2.
    split; [first [reflexivity | exact P1]|].
    split; [first [reflexivity | exact P2]|].
    unfold mret, M_ret in H.
    destruct (reboot_to_app (report_ok s2)) as [u s4 | h4 s4];
      [discriminate H|].
    injection H as -> ->. reflexivity.
  - intros h s3. apply passes_halted_ok.
  - intros m fs s3 H%passes_polling. destruct H as (? & ? & ?).
    repeat split; assumption.
Qed.


Lemma halted_with_spec (h : halt) (P : state -> bool) (o : outcome) :
  halted_with h P o = true -> exists s, o = Halted h s /\ P s = true.
Proof.
  destruct o as [h' s | |]; try discriminate. cbn.
  intros [E ?]%andb_true_iff. exists s. split; [|assumption].
  now destruct h, h'.
Qed.

Lemma pass_ended_with_spec (P : Z -> state -> bool) (p : pass_end) :
  pass_ended_with P p = true ->
  exists fs s rest, p = PassEnded fs s rest /\ P fs s = true.
Proof.
  destruct p as [fs s rest | |]; try discriminate. cbn. intros H.
  now exists fs, s, rest.
Qed.

(** A record with a wrong checksum fails the flash pass; after a flash
    pass that took an end-of-file record, a record that does not match
    the flash fails the verify pass; two end-of-file records pass both. *)
Lemma failed_pass_reboots_to_bootloader_witness :
  (exists s2,
     bootloader (typed (chars ":0100000055AB" ++ [CR])) fresh
       = Halted IDLE_UNTIL_RESET s2 /\
     r2 s2 = 0 /\ r3 s2 = 0 /\ wdt_armed s2 = true) /\
  (exists s3,
     bootloader (typed (eof_record ++ [CR] ++ chars ":0100000055AA" ++ [CR])) fresh
       = Halted IDLE_UNTIL_RESET s3 /\
     r2 s3 = 0 /\ r3 s3 = 0 /\ wdt_armed s3 = true) /\
  (exists s3,
     bootloader (typed (eof_record ++ [CR] ++ eof_record ++ [CR])) fresh
       = Halted SPIN_UNTIL_RESET s3 /\
     r2 s3 = BOOTAPP_SIG_1 /\ r3 s3 = BOOTAPP_SIG_2 /\ wdt_armed s3 = true).
Proof.
  split; [|split].
  2: { set (evs := typed (eof_record ++ [CR] ++ chars ":0100000055AA" ++ [CR])).
       destruct (failed_pass_reboots_to_bootloader
                   MODE_FLASH [MODE_VERIFY] evs fresh) as (_ & _ & H & _).
       assert (T : verify_pass_fails evs fresh = true) by (vm_compute; reflexivity).
       unfold verify_pass_fails in T.
       destruct (run_pass MODE_FLASH evs (new_page fresh))
         as [fs s1 rest1 | |] eqn:P1; [|discriminate T|discriminate T].
       apply andb_true_iff in T as [F1 T]. apply Z.eqb_eq in F1. subst fs.
       apply pass_ended_with_spec in T as (fs2 & s2 & rest2 & P2 & Hfs).
       destruct (H s1 rest1 fs2 s2 rest2 eq_refl P2) as (s3 & E & _ & S1 & S2 & W).
       { intros ->. discriminate Hfs. }
       exists s3. split; [exact E|]. split; [exact S1|]. split; [exact S2 | exact W]. }
  - set (evs := typed (chars ":0100000055AB" ++ [CR])).
    destruct (failed_pass_reboots_to_bootloader
                MODE_FLASH [MODE_VERIFY] evs (new_page fresh)) as (H & _).
    assert (E : pass_ended_with (fun fs _ => negb (fs =? FLASH_OK))
                  (run_pass MODE_FLASH evs (new_page fresh)) = true)
      by (vm_compute; reflexivity).
    apply pass_ended_with_spec in E as (fs & s1 & rest & E & Hfs).
    apply (H fs s1 rest E).
    intros ->. discriminate Hfs.
  - set (evs := typed (eof_record ++ [CR] ++ eof_record ++ [CR])).
    destruct (failed_pass_reboots_to_bootloader
                MODE_FLASH [MODE_VERIFY] evs fresh) as (_ & _ & _ & H & _).
    assert (E : halted_with SPIN_UNTIL_RESET (fun _ => true)
                  (bootloader evs fresh) = true)
      by (vm_compute; reflexivity).
    apply halted_with_spec in E as (s3 & E & _).
    exists s3. split; [exact E|].
    destruct (H s3 E) as (S1 & S2 & W & _). auto.
Defined.

(** The command q makes the bootloader set the magic signature and reboot
    into the application although no pass has ended FLASH_OK. *)
Lemma quit_command_boots_application :
  let evs := typed (chars "q" ++ [CR]) in
  (exists s3, bootloader evs fresh = Halted SPIN_UNTIL_RESET s3 /\
              r2 s3 = BOOTAPP_SIG_1 /\ r3 s3 = BOOTAPP_SIG_2) /\
  (forall s1 rest,
     run_pass MODE_FLASH evs (new_page fresh) <> PassEnded FLASH_OK s1 rest).
Proof.
  intros evs. split.
  - assert (E : halted_with SPIN_UNTIL_RESET
                  (fun s => (r2 s =? BOOTAPP_SIG_1) && (r3 s =? BOOTAPP_SIG_2))
                  (bootloader evs fresh) = true)
      by (vm_compute; reflexivity).
    apply halted_with_spec in E as (s3 & E & [S1 S2]%andb_true_iff).
    apply Z.eqb_eq in S1, S2. exists s3. split; [exact E|].
    split; assumption.
  - intros s1 rest E.
    assert (N : pass_ended_with (fun _ _ => true)
                  (run_pass MODE_FLASH evs (new_page fresh)) = false)
      by (vm_compute; reflexivity).
    rewrite E in N. discriminate N.
Qed.

(** ** Boot handoff *)

(** No external-reset and no watchdog-reset flag in MCUSR. *)
Lemma reset_flags_clear (MCUSR : Z) :
  (Z.land MCUSR (Z.lor (_BV EXTRF) (_BV WDRF)) =? 0) =
  negb (Z.testbit MCUSR EXTRF) && negb (Z.testbit MCUSR WDRF).
Proof.
  change (Z.lor (_BV EXTRF) (_BV WDRF)) with 10.
  change EXTRF with 1. change WDRF with 3.
  destruct (Z.land MCUSR 10 =? 0) eqn:E.
  - apply Z.eqb_eq in E.
    assert (B : forall n, Z.testbit (Z.land MCUSR 10) n = false)
      by (intros n; rewrite E; apply Z.bits_0).
    pose proof (B 1) as B1. pose proof (B 3) as B3.
    rewrite Z.land_spec in B1, B3.
    change (Z.testbit 10 1) with true in B1.
    change (Z.testbit 10 3) with true in B3.
    rewrite andb_true_r in B1, B3. now rewrite B1, B3.
  - apply Z.eqb_neq in E. symmetry. apply not_true_is_false. intros H.
    apply andb_true_iff in H as [H1%negb_true_iff H3%negb_true_iff].
    apply E. apply Z.bits_inj'. intros n Hn.
    rewrite Z.land_spec, Z.bits_0.
    assert (C : n = 0 \/ n = 1 \/ n = 2 \/ n = 3 \/ 4 <= n) by lia.
    destruct C as [-> | [-> | [-> | [-> | C]]]].
    + apply andb_false_r.
    + now rewrite H1.
    + apply andb_false_r.
    + now rewrite H3.
    + rewrite (Z.bits_above_log2 10 n) by (change (Z.log2 10) with 3; lia).
      apply andb_false_r.
Qed.

(** C5: [main] jumps to the application exactly when MCUSR shows neither an
    external nor a watchdog reset or the signature is the pair (0xb0, 0xaa),
    and the signature is zero/zero when it jumps; otherwise it sets the
    signature to the pair and runs the bootloader, which never jumps. *)
Theorem main_boot_decision (MCUSR : Z) (evs : list event) (s : state) :
  let plain_power_up :=
    negb (Z.testbit MCUSR EXTRF) && negb (Z.testbit MCUSR WDRF) in
  let app_requested := (r2 s =? 0xb0) && (r3 s =? 0xaa) in
  if plain_power_up || app_requested
  then exists s', main MCUSR evs s = Halted JMP_0 s' /\ r2 s' = 0 /\ r3 s' = 0
  else main MCUSR evs s = bootloader evs (set_sig 0xb0 0xaa s) /\
       forall s', main MCUSR evs s <> Halted JMP_0 s'.
Proof.
  intros plain_power_up app_requested. unfold main.
  rewrite reset_flags_clear. fold plain_power_up.
  assert (A : BOOT_APP (if negb (Z.land MCUSR (_BV WDRF) =? 0) && BOOT_APP s
                        then wdt_disable s else s) = app_requested).
  { now destruct (_ && BOOT_APP s). }
  rewrite A.
  destruct (plain_power_up || app_requested) eqn:D.
  - eexists. split; [reflexivity|]. split; reflexivity.
  - apply orb_false_iff in D as [_ D].
    assert (B : BOOT_APP s = false) by exact D.
    rewrite B, andb_false_r.
    split; [reflexivity|].
    intros s' H. apply passes_halted_ok in H. exact H.
Qed.

(** ** The line buffer *)

Lemma returned_with_spec (P : Z -> state -> bool) (r : result Z) :
  returned_with P r = true -> exists a s, r = Ret a s /\ P a s = true.
Proof.
  destruct r as [a s | h s]; [|discriminate]. intros H. now exists a, s.
Qed.

Lemma outputs_line_fields (s s' : state) :
  outputs s s' -> len s' = len s /\ overrun s' = overrun s.
Proof. intros [o ->]. split; reflexivity. Qed.

Lemma set_len_fields (n : Z) (t : state) :
  len (set_len n t) = u8 n /\ overrun (set_len n t) = overrun t.
Proof. split; reflexivity. Qed.

Lemma store_line_fields (i c : Z) (t : state) :
  len (store_line i c t) = len t /\
  (0 <= i < 64 -> overrun (store_line i c t) = overrun t) /\
  (i = 64 -> overrun (store_line i c t) = overrun t ++ [(i, c)]).
Proof.
  unfold store_line, MAX_LINE_LEN.
  destruct ((0 <=? i) && (i <? 64)) eqn:E.
  - apply andb_true_iff in E as [?%Z.leb_le ?%Z.ltb_lt].
    repeat split. intros ->. lia.
  - repeat split. intros H.
    apply andb_false_iff in E as [?%Z.leb_gt | ?%Z.ltb_ge]; lia.
Qed.

Lemma sent_line_fields :
  (forall x t, len (uart_send_string x t) = len t) /\
  (forall x t, overrun (uart_send_string x t) = overrun t) /\
  (forall c t, len (uart_send_byte c t) = len t) /\
  (forall c t, overrun (uart_send_byte c t) = overrun t) /\
  (forall n t, len (set_len n t) = u8 n) /\
  (forall n t, overrun (set_len n t) = overrun t) /\
  (forall i c t, len (store_line i c t) = len t).
Proof.
  repeat split; intros; try reflexivity.
  - apply (outputs_line_fields _ _ (uart_send_string_outputs x t)).
  - apply (outputs_line_fields _ _ (uart_send_string_outputs x t)).
  - apply store_line_fields.
Qed.

(** Rewrites [len] and [overrun] through the steps of [get_line]. *)
Ltac line_fields :=
  destruct sent_line_fields as (F1 & F2 & F3 & F4 & F5 & F6 & F7);
  rewrite ?F1, ?F2, ?F3, ?F4, ?F5, ?F6, ?F7;
  clear F1 F2 F3 F4 F5 F6 F7.

Lemma Ret_inj {A} (a b : A) (s t : state) :
  Ret a s = Ret b t -> a = b /\ s = t.
Proof. intros H. now injection H. Qed.

(** Where [get_line] stores: [len] never exceeds 64; while it is below 64
    on entry every store falls inside [line]; the only store that can fall
    outside is the terminator at [line[64]]. *)
Lemma get_line_stores (s : state) (a : Z) (s' : state) :
  0 <= len s <= 64 ->
  get_line s = Ret a s' ->
  0 <= len s' <= 64 /\
  (len s < 64 -> overrun s' = overrun s) /\
  (overrun s' = overrun s \/ overrun s' = overrun s ++ [(64, 0)]).
Proof.
  intros Hlen. unfold get_line, reboot_to_bootloader, reboot.
  repeat (progress run_M).
  destruct (negb (Z.land (uart_error s) ERROR_RX_BUFFER_OVERFLOW =? 0));
    cbv beta iota; [discriminate|].
  destruct (negb (Z.land (uart_error s) ERROR_RX_DATA_OVERRUN =? 0));
    cbv beta iota; [discriminate|].
  unfold uart_available, uart_recv_byte.
  destruct (rx_tail s =? rx_head s) eqn:E; cbv beta iota; cbn [negb];
    rewrite ?E; cbv beta iota.
  { intros [<- <-]%Ret_inj. auto. }
  match goal with
  | |- context [set_rx ?b ?h ?t ?e s] => set (s1 := set_rx b h t e s)
  end.
  assert (L1 : len s1 = len s) by reflexivity.
  assert (O1 : overrun s1 = overrun s) by reflexivity.
  clearbody s1. rewrite <- L1, <- O1 in *. clear L1 O1 E.
  match goal with
  | |- context [u8 ?c =? ESC] => generalize (u8 c) as c'; intros c'
  end.
  change (MAX_LINE_LEN - 1) with 63.
  assert (U0 : u8 0 = 0) by reflexivity.
  destruct (c' =? ESC).
  { intros [<- <-]%Ret_inj.
    destruct (store_line_fields 0 0 (uart_send_string crlf s1)) as (_ & So & _).
    line_fields. rewrite So by lia. line_fields. rewrite U0.
    split; [lia|]. auto. }
  destruct ((c' =? CR) || (c' =? LF)).
  - destruct (store_line_fields (len s1) 0 s1) as (Sl & So & So').
    assert (Ov : (len s1 < 64 -> overrun (store_line (len s1) 0 s1) = overrun s1) /\
                 (overrun (store_line (len s1) 0 s1) = overrun s1 \/
                  overrun (store_line (len s1) 0 s1) = overrun s1 ++ [(64, 0)])).
    { split; [intros; apply So; lia|].
      destruct (Z.eq_dec (len s1) 64) as [Q | Q].
      - right. rewrite (So' Q), Q. reflexivity.
      - left. apply So. lia. }
    destruct (0 <? len s1).
    + destruct (negb (line0_is_hex _)); intros [<- <-]%Ret_inj;
        line_fields; rewrite U0; (split; [lia | exact Ov]).
    + intros [<- <-]%Ret_inj. line_fields. split; [lia | exact Ov].
  - destruct (len s1 <? 63) eqn:Lt.
    + apply Z.ltb_lt in Lt.
      destruct (store_line_fields (len s1) c' s1) as (_ & So & _).
      assert (U : u8 (len s1 + 1) = len s1 + 1)
        by (unfold u8; apply Z.mod_small; lia).
      destruct (negb (line0_is_hex _)); intros [<- <-]%Ret_inj;
        line_fields; rewrite U, So by lia; (split; [lia | auto]).
    + apply Z.ltb_ge in Lt.
      destruct (len s1 =? 63) eqn:Eq.
      * apply Z.eqb_eq in Eq.
        destruct (store_line_fields (len s1) 0 s1) as (_ & So & _).
        intros [<- <-]%Ret_inj.
        line_fields. rewrite So by lia. rewrite Eq.
        change (u8 (63 + 1)) with 64. split; [lia | auto].
      * intros [<- <-]%Ret_inj. split; [lia | auto].
Qed.

(** C7 fails on the code: after 64 characters without a line end,
    [len] is 64, and the line end that follows makes [get_line] store the
    terminator at [line[64]], one past the 64-byte array. *)
Theorem get_line_overruns_line :
  exists s', poll_bytes (replicate 64 (chr "A") ++ [CR]) fresh = Ret 1 s' /\
             overrun s' = [(64, 0)].
Proof.
  assert (E : returned_with
                (fun a s => (a =? 1) &&
                            bool_decide (overrun s = [(64, 0)]))
                (poll_bytes (replicate 64 (chr "A") ++ [CR]) fresh) = true)
    by (vm_compute; reflexivity).
  apply returned_with_spec in E as (a & s' & E & [A O]%andb_true_iff).
  apply Z.eqb_eq in A. subst a. apply bool_decide_eq_true in O.
  exists s'. split; assumption.
Qed.

(** ** What flash mode leaves in the page buffer *)

Lemma byte_offset_range (address i : Z) : 0 <= byte_offset address i < 128.
Proof. apply Z.mod_pos_bound. reflexivity. Qed.

(** Quotient and remainder of [x] by the constant [d], for [lia]. *)
Ltac euclid x d :=
  pose proof (Z.div_mod x d ltac:(lia));
  pose proof (Z.mod_pos_bound x d ltac:(lia)).

(** Positions less than 256 apart that lie in one page enclose only
    positions of that page. *)
Lemma page_contiguous (address k m j : Z) :
  0 <= address < 65536 -> 0 <= k <= m -> m <= j -> j - k <= 255 ->
  byte_page address k = byte_page address j ->
  byte_page address m = byte_page address j.
Proof.
  unfold byte_page, u16, PAGE_SIZE. intros Ha Hk Hm Hj H.
  euclid (address + k) 65536. euclid (address + j) 65536.
  euclid (address + m) 65536.
  euclid ((address + k) mod 65536) 128. euclid ((address + j) mod 65536) 128.
  euclid ((address + m) mod 65536) 128.
  assert ((address + j) / 65536 = (address + k) / 65536) by lia.
  assert ((address + m) / 65536 = (address + k) / 65536) by lia.
  lia.
Qed.

Lemma offset_injective (address k j : Z) :
  0 <= k -> 0 <= j -> k - j < 65536 -> j - k < 65536 ->
  byte_page address k = byte_page address j ->
  byte_offset address k = byte_offset address j -> k = j.
Proof.
  unfold byte_page, byte_offset, u16, PAGE_SIZE. intros Hk Hj H1 H2 Hp Ho.
  euclid (address + k) 65536. euclid (address + j) 65536.
  euclid ((address + k) mod 65536) 128. euclid ((address + j) mod 65536) 128.
  lia.
Qed.

Lemma at_insert_eq (p : list Z) (x : nat) (b : Z) :
  (x < length p)%nat -> at_ (<[x := b]> p) x = b.
Proof.
  intros H. unfold at_. rewrite nth_lookup.
  now rewrite list_lookup_insert_eq.
Qed.

Lemma at_insert_ne (p : list Z) (x y : nat) (b : Z) :
  x <> y -> at_ (<[x := b]> p) y = at_ p y.
Proof.
  intros H. unfold at_. rewrite !nth_lookup.
  now rewrite list_lookup_insert_ne.
Qed.

(** The byte falls in the staged page: it is stored, nothing else. *)
Lemma stage_byte_same (address i b : Z) (s : state) :
  byte_page address i = current_page_address s ->
  stage_byte address i b s =
  set_page (<[Z.to_nat (byte_offset address i) := b]> (page s)) s.
Proof.
  intros E. unfold stage_byte. fold (byte_page address i).
  rewrite E, Z.eqb_refl. reflexivity.
Qed.

(** The byte falls in another page: the staged page is written to flash,
    the buffer is erased, the index moves, and then the byte is stored. *)
Lemma stage_byte_cross (address i b : Z) (s : state) :
  byte_page address i <> current_page_address s ->
  stage_byte address i b s =
  set_page (<[Z.to_nat (byte_offset address i) := b]> erased_page)
    (set_current_page_address (byte_page address i)
       (new_page (write_current_page s))).
Proof.
  intros E%Z.eqb_neq. unfold stage_byte. fold (byte_page address i).
  rewrite E. reflexivity.
Qed.

Lemma length_erased_page : length erased_page = 128%nat.
Proof. reflexivity. Qed.

(** One staged byte: the page index follows the byte, the byte is in its
    cell, and while the page stays the same the other cells keep their
    contents. *)
Lemma stage_byte_page (address i b : Z) (s : state) :
  length (page s) = 128%nat ->
  let s' := stage_byte address i b s in
  length (page s') = 128%nat /\
  current_page_address s' = byte_page address i /\
  at_ (page s') (Z.to_nat (byte_offset address i)) = b /\
  (byte_page address i = current_page_address s ->
   forall x, x <> Z.to_nat (byte_offset address i) ->
             at_ (page s') x = at_ (page s) x).
Proof.
  intros Hlen s'. subst s'.
  pose proof (byte_offset_range address i) as Ho.
  destruct (Z.eq_dec (byte_page address i) (current_page_address s)) as [E | E].
  - rewrite (stage_byte_same _ _ _ _ E).
    change (page (set_page ?p s)) with p.
    change (current_page_address (set_page ?p s)) with (current_page_address s).
    rewrite length_insert.
    split; [exact Hlen|]. split; [symmetry; exact E|].
    split; [apply at_insert_eq; lia|].
    intros _ x Hx. apply at_insert_ne. congruence.
  - rewrite (stage_byte_cross _ _ _ _ E).
    change (page (set_page ?p ?t)) with p.
    change (current_page_address (set_page ?p (set_current_page_address ?a ?t)))
      with a.
    rewrite length_insert, length_erased_page.
    split; [reflexivity|]. split; [reflexivity|].
    split; [apply at_insert_eq; rewrite length_erased_page; lia|].
    intros E'. contradiction.
Qed.

(** After the loop has staged the positions from [i0] on, the page buffer
    holds every byte of the record that lies in the staged page. *)
Lemma data_loop_staged (address i0 : Z) (l : list Z) (n : nat) :
  0 <= address < 65536 ->
  forall i c s c1 s1,
  line s = l -> length (page s) = 128%nat ->
  0 <= i0 <= i -> i + Z.of_nat n - i0 <= 256 ->
  (i0 < i -> current_page_address s = byte_page address (i - 1)) ->
  (forall k, i0 <= k < i -> byte_page address k = current_page_address s ->
             at_ (page s) (Z.to_nat (byte_offset address k)) = rec_byte l k) ->
  data_loop MODE_FLASH address n i c s = Completed c1 s1 ->
  length (page s1) = 128%nat /\
  (i0 < i + Z.of_nat n ->
   current_page_address s1 = byte_page address (i + Z.of_nat n - 1)) /\
  (forall k, i0 <= k < i + Z.of_nat n ->
             byte_page address k = current_page_address s1 ->
             at_ (page s1) (Z.to_nat (byte_offset address k)) = rec_byte l k).
Proof.
  intros Ha. induction n as [|n IH]; intros i c s c1 s1 Hl Hlen Hi Hn Hcur Hinv L.
  - cbn [data_loop] in L. injection L as _ <-.
    rewrite Z.add_0_r. auto.
  - change (data_loop MODE_FLASH address (S n) i c s)
      with (data_loop MODE_FLASH address n (i + 1) (u8 (c + rec_byte (line s) i))
              (stage_byte address i (rec_byte (line s) i) s)) in L.
    rewrite Hl in L.
    destruct (stage_byte_page address i (rec_byte l i) s Hlen)
      as (Hlen' & Hcur' & Hcell & Hkeep).
    replace (i + Z.of_nat (S n)) with (i + 1 + Z.of_nat n) by lia.
    eapply (IH (i + 1)); [| exact Hlen' | lia | lia | | | exact L].
    + destruct (stages_fields _ _ (stage_byte_stages address i (rec_byte l i) s))
        as [-> _]. exact Hl.
    + intros _. rewrite Hcur'. f_equal. lia.
    + intros k Hk Hpk. rewrite Hcur' in Hpk.
      destruct (Z.eq_dec k i) as [-> | Hne]; [exact Hcell|].
      assert (Hlt : i0 < i) by lia.
      assert (Hprev : byte_page address (i - 1) = byte_page address i)
        by (apply (page_contiguous address k); [lia|lia|lia|lia|exact Hpk]).
      assert (Hsame : byte_page address i = current_page_address s)
        by (rewrite (Hcur Hlt); now symmetry).
      rewrite Hkeep; [apply Hinv; [lia|congruence] | exact Hsame |].
      intros Q. apply Hne.
      apply (offset_injective address); [lia|lia|lia|lia|exact Hpk|].
      pose proof (byte_offset_range address k).
      pose proof (byte_offset_range address i). lia.
Qed.

(** ** Page crossings *)

Lemma fill_loop_calls (base : Z) (l : list Z) :
  forall s,
  let s' := fold_left
              (fun s i =>
                 let word := u16 (Z.lor (at_ (page s) (Z.to_nat i))
                                        (Z.shiftl (at_ (page s) (Z.to_nat (i + 1))) 8)) in
                 boot_page_fill (u16 (base + i)) word s)
              l s in
  page s' = page s /\
  spm_calls s' =
    spm_calls s ++
    map (fun i => PageFill (u16 (base + i))
                    (u16 (Z.lor (at_ (page s) (Z.to_nat i))
                                (Z.shiftl (at_ (page s) (Z.to_nat (i + 1))) 8))))
        l.
Proof.
  induction l as [|i l IH]; intros s; cbn [fold_left map].
  - split; [reflexivity|]. now rewrite app_nil_r.
  - destruct (IH (boot_page_fill (u16 (base + i))
                    (u16 (Z.lor (at_ (page s) (Z.to_nat i))
                                (Z.shiftl (at_ (page s) (Z.to_nat (i + 1))) 8))) s))
      as [Hp Hc].
    cbv zeta in Hp, Hc. rewrite Hp, Hc.
    split; [reflexivity|].
    change (page (boot_page_fill ?a ?w s)) with (page s).
    change (spm_calls (boot_page_fill ?a ?w s))
      with (spm_calls s ++ [PageFill a w]).
    now rewrite <- app_assoc.
Qed.

(** [write_current_page] erases, fills word by word, then commits. *)
Lemma write_current_page_calls (s : state) :
  spm_calls (write_current_page s) =
  spm_calls s ++ page_program (current_page_address s) (page s).
Proof.
  unfold write_current_page, page_program.
  set (base := u16 (current_page_address s * PAGE_SIZE)).
  change (spm_calls (boot_page_write base ?t)) with (spm_calls t ++ [PageWrite base]).
  destruct (fill_loop_calls base word_offsets (boot_page_erase base s)) as [_ Hc].
  cbv zeta in Hc. rewrite Hc.
  change (spm_calls (boot_page_erase base s)) with (spm_calls s ++ [PageErase base]).
  change (page (boot_page_erase base s)) with (page s).
  now rewrite <- !app_assoc.
Qed.

Lemma page_program_one_write (index : Z) (p : list Z) :
  length (List.filter (fun c => match c with PageWrite _ => true | _ => false end)
                      (page_program index p)) = 1%nat.
Proof.
  unfold page_program. cbn [app List.filter].
  rewrite List.filter_app, length_app. cbn [List.filter length].
  induction word_offsets as [|i l IH]; [reflexivity|]. exact IH.
Qed.

Lemma write_current_page_flushes (s : state) :
  page_flushes (write_current_page s) = S (page_flushes s).
Proof.
  unfold page_flushes. rewrite write_current_page_calls.
  rewrite List.filter_app, length_app, page_program_one_write. lia.
Qed.

Lemma staged_fields_calls (p : list Z) (a : Z) (t : state) :
  let t' := set_page p (set_current_page_address a (new_page t)) in
  spm_calls t' = spm_calls t /\ page_flushes t' = page_flushes t /\
  current_page_address t' = a /\ page t' = p.
Proof. repeat split. Qed.

Lemma stage_byte_crossing (address i b : Z) (s : state) :
  byte_page address i <> current_page_address s ->
  let s' := stage_byte address i b s in
  spm_calls s' = spm_calls s ++ page_program (current_page_address s) (page s) /\
  page_flushes s' = S (page_flushes s) /\
  current_page_address s' = u16 (address + i) / 128 /\
  page s' = <[Z.to_nat (u16 (address + i) mod 128) := b]> (replicate 128 0xff).
Proof.
  intros E s'. subst s'. rewrite (stage_byte_cross _ _ _ _ E).
  destruct (staged_fields_calls
              (<[Z.to_nat (byte_offset address i) := b]> erased_page)
              (byte_page address i) (write_current_page s))
    as (-> & -> & -> & ->).
  split; [apply write_current_page_calls|].
  split; [apply write_current_page_flushes|].
  split; reflexivity.
Qed.






(** ** Record types other than data and end-of-file *)

(** The loop over the data bytes writes the staged page to flash once per
    page crossing, and first of all the page staged when the record came
    in, if the first byte lies in another one. *)
Lemma data_loop_flushes (address : Z) (n : nat) :
  forall i c s c1 s1,
  data_loop MODE_FLASH address n i c s = Completed c1 s1 ->
  page_flushes s1 =
    (page_flushes s + crossings address (current_page_address s) i n)%nat /\
  (exists rest, spm_calls s1 = spm_calls s ++ rest) /\
  ((0 < n)%nat -> byte_page address i <> current_page_address s ->
   exists rest,
     spm_calls s1 =
     spm_calls s ++ page_program (current_page_address s) (page s) ++ rest).
Proof.
  induction n as [|n IH]; intros i c s c1 s1 L.
  - cbn [data_loop] in L. injection L as _ <-. cbn [crossings].
    rewrite Nat.add_0_r. split; [reflexivity|].
    split; [exists []; now rewrite app_nil_r | lia].
  - change (data_loop MODE_FLASH address (S n) i c s)
      with (data_loop MODE_FLASH address n (i + 1) (u8 (c + rec_byte (line s) i))
              (stage_byte address i (rec_byte (line s) i) s)) in L.
    destruct (IH _ _ _ _ _ L) as (F & (rest & C) & _). clear IH L.
    cbn [crossings]. cbv zeta.
    destruct (Z.eq_dec (byte_page address i) (current_page_address s)) as [E | E].
    + rewrite (stage_byte_same _ _ _ _ E) in F, C.
      change (page_flushes (set_page ?p s)) with (page_flushes s) in F.
      change (current_page_address (set_page ?p s))
        with (current_page_address s) in F.
      change (spm_calls (set_page ?p s)) with (spm_calls s) in C.
      rewrite E, Z.eqb_refl.
      split; [rewrite F; reflexivity|].
      split; [exists rest; exact C|]. intros _ N. now contradiction N.
    + destruct (stage_byte_crossing address i (rec_byte (line s) i) s E)
        as (C1 & F1 & A1 & _). cbv zeta in C1, F1, A1.
      generalize dependent (stage_byte address i (rec_byte (line s) i) s).
      intros s' F C C1 F1 A1.
      change (u16 (address + i) / 128) with (byte_page address i) in A1.
      apply Z.eqb_neq in E. rewrite E. rewrite A1 in F. rewrite F, F1, C, C1.
      split; [lia|].
      split; [eexists; rewrite <- app_assoc; reflexivity|].
      intros _ _. exists rest. now rewrite <- app_assoc.
Qed.

(** C3, as the code has it: a record whose type is neither 0 nor 1 skips
    the address check and has its checksum validated, and is otherwise
    processed like a data record.  In flash mode its data bytes are staged
    in the page buffer (every byte that lies in the page staged at the end
    is in its cell) and the staged page is written to flash once per page
    crossing, first of all the page that was staged when the record came
    in, if the first data byte lies in another page; in verify mode the
    data bytes are compared with the flash; and when FLASH_GOING_ON is
    returned the address tracking state has become address + count - 1.
    The record fits the line buffer: it has at most 26 data bytes. *)
Theorem other_record_types_processed (mode : Z) (s : state) :
  let l := line s in
  let r := flash_hex_line mode s in
  rec_type l <> 0 -> rec_type l <> 1 -> fits_line l ->
  (rec_sum l <> 0 -> fst r = FLASH_ERROR) /\
  (fst r = FLASH_ERROR \/
   fst r = FLASH_GOING_ON /\
   last_address (snd r) = u16 (rec_address l + rec_count l - 1)) /\
  (mode = MODE_FLASH -> rec_sum l = 0 -> fst r = FLASH_GOING_ON) /\
  (mode = MODE_FLASH -> length (page s) = 128%nat ->
   (0 < rec_count l ->
    current_page_address (snd r) = byte_page (rec_address l) (rec_count l - 1)) /\
   forall k, 0 <= k < rec_count l ->
             byte_page (rec_address l) k = current_page_address (snd r) ->
             at_ (page (snd r)) (Z.to_nat (byte_offset (rec_address l) k))
               = rec_byte l k) /\
  (mode = MODE_FLASH ->
   page_flushes (snd r) =
     (page_flushes s
      + crossings (rec_address l) (current_page_address s) 0
          (Z.to_nat (rec_count l)))%nat /\
   (0 < rec_count l -> byte_page (rec_address l) 0 <> current_page_address s ->
    exists rest,
      spm_calls (snd r) =
      spm_calls s ++ page_program (current_page_address s) (page s) ++ rest)) /\
  (mode <> MODE_FLASH -> rec_sum l = 0 ->
   fst r = if verify_ok s (rec_address l) 0 (Z.to_nat (rec_count l))
           then FLASH_GOING_ON else FLASH_ERROR).
Proof.
  intros l r Ht0 Ht1 _.
  destruct (flash_hex_line_status mode s) as (_ & Hsum & Hst).
  fold l r in Hsum, Hst.
  split; [exact Hsum|]. split.
  { destruct Hst as [E | [(_ & T & _) | (E & _ & _ & La)]];
      [left; exact E | contradiction | right; split; assumption]. }
  apply Z.eqb_neq in Ht0, Ht1.
  assert (Fl : mode = MODE_FLASH ->
    exists c1 s1,
      data_loop MODE_FLASH (rec_address l) (Z.to_nat (rec_count l)) 0
        (rec_header_sum l) s = Completed c1 s1 /\
      page (snd r) = page s1 /\
      current_page_address (snd r) = current_page_address s1 /\
      spm_calls (snd r) = spm_calls s1).
  { intros ->.
    pose proof (flash_hex_line_flash s) as F. fold l r in F. cbv zeta in F.
    rewrite Ht0 in F. cbn [negb orb] in F.
    destruct F as (c1 & s1 & L & _ & F). exists c1, s1. split; [exact L|].
    rewrite Ht1 in F. destruct (rec_sum l =? 0).
    - destruct F as (_ & o & ->). repeat split.
    - destruct F as (_ & O).
      destruct (outputs_fields _ _ O) as (_ & -> & -> & _ & _ & _ & -> & _).
      repeat split. }
  split; [|split; [|split]].
  - intros -> S0.
    pose proof (flash_hex_line_flash s) as F. fold l r in F. cbv zeta in F.
    rewrite Ht0 in F. cbn [negb orb] in F.
    destruct F as (c1 & s1 & _ & _ & F).
    apply Z.eqb_eq in S0. rewrite S0, Ht1 in F. apply F.
  - intros Hm Hlen. destruct (Fl Hm) as (c1 & s1 & L & -> & -> & _).
    pose proof (rec_count_range l) as Rc.
    destruct (data_loop_staged (rec_address l) 0 l (Z.to_nat (rec_count l))
                (rec_address_range l) 0 _ s c1 s1 eq_refl Hlen
                ltac:(lia) ltac:(lia) ltac:(lia) ltac:(intros; lia) L)
      as (_ & Hcur & Hcells).
    rewrite Z2Nat.id in Hcur, Hcells by lia.
    split; [exact Hcur | exact Hcells].
  - intros Hm. destruct (Fl Hm) as (c1 & s1 & L & _ & _ & Cl).
    destruct (data_loop_flushes _ _ _ _ _ _ _ L) as (F & _ & P).
    unfold page_flushes in F |- *. rewrite Cl.
    split; [exact F|]. intros Hc Hp.
    pose proof (rec_count_range l) as Rc.
    apply P; [lia | exact Hp].
  - intros Hm%Z.eqb_neq S0.
    destruct (flash_hex_line_verify mode s Hm) as (o & H).
    fold l r in H. cbv zeta in H. rewrite Ht0 in H. cbn [negb orb andb] in H.
    apply Z.eqb_eq in S0. rewrite S0, andb_true_r in H.
    destruct H as [(-> & _ & ->) | [(_ & _ & _ & _ & _ & T) | (-> & _ & _ & -> & _)]].
    + reflexivity.
    + apply Z.eqb_neq in Ht1. contradiction.
    + reflexivity.
Qed.

Lemma other_record_types_processed_witness :
  let s := with_line (chars ":020000040000FA") fresh in
  let r := flash_hex_line MODE_FLASH s in
  let s' := set_current_page_address 3 s in
  let r' := flash_hex_line MODE_FLASH s' in
  fst r = FLASH_GOING_ON /\
  current_page_address (snd r) = byte_page (rec_address (line s)) 1 /\
  at_ (page (snd r)) (Z.to_nat (byte_offset (rec_address (line s)) 0))
    = rec_byte (line s) 0 /\
  page_flushes (snd r) = page_flushes s /\
  page_flushes (snd r') = S (page_flushes s') /\
  exists rest, spm_calls (snd r') = spm_calls s' ++ page_program 3 (page s') ++ rest.
Proof.
  intros s r s' r'.
  assert (Fs : fits_line (line s)) by (vm_compute; reflexivity).
  destruct (other_record_types_processed MODE_FLASH s)
    as (_ & _ & G & P & (Fz & _) & _);
    [first [exact Fs | reflexivity | vm_compute; discriminate] .. | ].
  destruct (other_record_types_processed MODE_FLASH s')
    as (_ & _ & _ & _ & (Fz' & Pz') & _);
    [first [exact Fs | reflexivity | vm_compute; discriminate] .. | ].
  split; [apply G; reflexivity|].
  destruct (P eq_refl eq_refl) as [Hcur Hcells].
  split; [apply Hcur; reflexivity|].
  split.
  { apply Hcells; [vm_compute; split; [discriminate | reflexivity]|].
    rewrite Hcur by reflexivity. reflexivity. }
  split; [unfold r; rewrite Fz; vm_compute; reflexivity|].
  split; [unfold r'; rewrite Fz'; vm_compute; reflexivity|].
  apply Pz'; [vm_compute; reflexivity | vm_compute; discriminate].
Defined.

(** In flash mode the two data bytes of an extended-address record
    (type 04) replace the erased cells 0 and 1 of the page buffer, and the
    address tracking state moves from 0xffff to 1. *)
Lemma extended_address_record_is_staged :
  let s := with_line (chars ":020000040000FA") fresh in
  let r := flash_hex_line MODE_FLASH s in
  rec_type (line s) = 4 /\ fst r = FLASH_GOING_ON /\
  take 2 (page s) = [0xff; 0xff] /\ take 2 (page (snd r)) = [0; 0] /\
  page (snd r) <> page s /\
  last_address s = 0xffff /\ last_address (snd r) = 1 /\
  last_address (snd r) <> last_address s.
Proof.
  vm_compute. repeat split; discriminate.
Qed.

(** * Further properties of the code *)

(** ** The receive ring *)

Lemma ring_read_length (buf : list Z) (n : nat) :
  forall start, length (ring_read buf start n) = n.
Proof.
  induction n as [|n IH]; intros start; cbn [ring_read length];
    [reflexivity | now rewrite IH].
Qed.

(** Storing at the cell that follows the [n] cells read adds the stored
    value at the end and leaves the cells read as they were. *)
Lemma ring_read_store (buf : list Z) (head v : Z) (n : nat) :
  0 <= head < 1024 -> (Z.to_nat head < length buf)%nat ->
  forall start,
  0 <= start < 1024 -> (Z.of_nat n < 1024) ->
  (start + Z.of_nat n) mod 1024 = head ->
  ring_read (<[Z.to_nat head := v]> buf) start (S n) =
  ring_read buf start n ++ [v].
Proof.
  intros Hh Hlen. induction n as [|n IH]; intros start Hs Hn Hmod.
  - cbn [ring_read app]. change (Z.of_nat 0) with 0 in Hmod.
    rewrite Z.add_0_r, Z.mod_small in Hmod by lia. subst start.
    now rewrite at_insert_eq.
  - change (ring_read ?b start (S ?k))
      with (at_ b (Z.to_nat start)
            :: ring_read b ((start + 1) mod RX_BUFFER_LEN) k).
    unfold RX_BUFFER_LEN. cbn [app]. f_equal.
    + apply at_insert_ne. intros Q. apply Z2Nat.inj in Q; [|lia|lia].
      subst head. euclid (start + Z.of_nat (S n)) 1024. lia.
    + apply IH.
      * apply Z.mod_pos_bound. lia.
      * lia.
      * rewrite Z.add_mod_idemp_l by lia. rewrite <- Hmod. f_equal. lia.
Qed.

Lemma rx_count_range (s : state) : 0 <= rx_count s < 1024.
Proof. apply Z.mod_pos_bound. reflexivity. Qed.

Lemma rx_pending_length (s : state) :
  Z.of_nat (length (rx_pending s)) = rx_count s.
Proof.
  unfold rx_pending. rewrite ring_read_length.
  apply Z2Nat.id, rx_count_range.
Qed.

(** With room in the ring the receive interrupt appends the byte to the
    pending bytes. *)
Lemma rx_receive_enqueues (status data : Z) (s : state) :
  rx_wf s -> rx_count s < 1023 ->
  let s' := ISR_USART_RX status data s in
  rx_wf s' /\ rx_pending s' = rx_pending s ++ [u8 data].
Proof.
  intros W Hc s'. subst s'. revert W Hc.
  unfold rx_wf, rx_count, RX_BUFFER_LEN. intros (Hlen & Hh & Ht) Hc.
  unfold ISR_USART_RX, RX_BUFFER_LEN, u16.
  euclid (rx_head s - rx_tail s) 1024. euclid (rx_head s + 1) 1024.
  rewrite (Z.mod_small ((rx_head s + 1) mod 1024)) by lia.
  destruct ((rx_head s + 1) mod 1024 =? rx_tail s) eqn:E.
  { apply Z.eqb_eq in E. lia. }
  unfold rx_pending, rx_wf, rx_count, RX_BUFFER_LEN.
  cbn [rx_buffer rx_head rx_tail set_rx].
  rewrite length_insert. split; [lia|].
  euclid ((rx_head s + 1) mod 1024 - rx_tail s) 1024.
  assert (Q : ((rx_head s + 1) mod 1024 - rx_tail s) mod 1024
              = (rx_head s - rx_tail s) mod 1024 + 1) by lia.
  rewrite Q, Z2Nat.inj_add by lia. change (Z.to_nat 1) with 1%nat.
  rewrite Nat.add_1_r.
  apply ring_read_store; [lia | lia | lia | lia |].
  rewrite Z2Nat.id by lia. rewrite Z.add_mod_idemp_r by lia.
  replace (rx_tail s + (rx_head s - rx_tail s)) with (rx_head s) by lia.
  apply Z.mod_small. lia.
Qed.

(** A bit set by [e |= flag] is found by the test [e & flag]. *)
Lemma flag_latched (e : Z) (bit : Z) :
  0 <= bit < 8 -> Z.land (u8 (Z.lor e (_BV bit))) (_BV bit) <> 0.
Proof.
  intros Hb Q.
  assert (T : Z.testbit (Z.land (u8 (Z.lor e (_BV bit))) (_BV bit)) bit = false)
    by (rewrite Q; apply Z.bits_0).
  unfold u8, _BV in T. change 256 with (2 ^ 8) in T.
  rewrite Z.land_spec, Z.mod_pow2_bits_low, Z.lor_spec in T by lia.
  rewrite Z.shiftl_1_l, Z.pow2_bits_true in T by lia.
  rewrite orb_true_r in T. discriminate T.
Qed.

(** X1: with 1023 bytes pending the ring is full: the receive interrupt
    drops the byte it has just read, keeps the pending bytes and latches
    ERROR_RX_BUFFER_OVERFLOW. *)
Theorem rx_overflow_drops_newest (status data : Z) (s : state) :
  rx_wf s -> rx_count s = 1023 ->
  let s' := ISR_USART_RX status data s in
  rx_pending s' = rx_pending s /\ rx_buffer s' = rx_buffer s /\
  rx_head s' = rx_head s /\ rx_tail s' = rx_tail s /\
  Z.land (uart_error s') ERROR_RX_BUFFER_OVERFLOW <> 0.
Proof.
  intros W Hc s'. subst s'. revert W Hc.
  unfold rx_wf, rx_count, RX_BUFFER_LEN. intros (Hlen & Hh & Ht) Hc.
  unfold ISR_USART_RX, RX_BUFFER_LEN, u16.
  euclid (rx_head s - rx_tail s) 1024. euclid (rx_head s + 1) 1024.
  rewrite (Z.mod_small ((rx_head s + 1) mod 1024)) by lia.
  destruct ((rx_head s + 1) mod 1024 =? rx_tail s) eqn:E.
  2: { apply Z.eqb_neq in E. lia. }
  repeat (split; [reflexivity|]).
  cbn [uart_error set_rx]. apply (flag_latched _ 2). lia.
Qed.

(** [uart_recv_byte] takes the oldest pending byte; on an empty ring it
    returns -1 and changes nothing. *)
Lemma rx_recv_dequeues (s : state) :
  rx_wf s ->
  match rx_pending s with
  | [] => uart_available s = false /\ uart_recv_byte s = (-1, s)
  | b :: rest =>
      uart_available s = true /\ fst (uart_recv_byte s) = b /\
      rx_wf (snd (uart_recv_byte s)) /\
      rx_pending (snd (uart_recv_byte s)) = rest /\
      uart_error (snd (uart_recv_byte s)) = uart_error s
  end.
Proof.
  unfold rx_wf, RX_BUFFER_LEN. intros (Hlen & Hh & Ht).
  pose proof (rx_count_range s) as Hc.
  unfold rx_pending, uart_available, uart_recv_byte.
  assert (C : rx_count s = (rx_head s - rx_tail s) mod 1024) by reflexivity.
  euclid (rx_head s - rx_tail s) 1024.
  destruct (rx_tail s =? rx_head s) eqn:E.
  - apply Z.eqb_eq in E. replace (rx_count s) with 0 by lia.
    cbn. split; reflexivity.
  - apply Z.eqb_neq in E.
    replace (Z.to_nat (rx_count s)) with (S (Z.to_nat (rx_count s - 1))) by lia.
    cbn [ring_read fst snd negb]. unfold RX_BUFFER_LEN, u16.
    euclid (rx_tail s + 1) 1024.
    rewrite (Z.mod_small ((rx_tail s + 1) mod 1024)) by lia.
    unfold rx_wf, rx_count, RX_BUFFER_LEN.
    cbn [rx_buffer rx_head rx_tail uart_error set_rx].
    repeat split; try lia.
    f_equal. f_equal. rewrite <- C.
    euclid (rx_head s - (rx_tail s + 1) mod 1024) 1024. lia.
Qed.

Lemma recv_n_drains (n : nat) :
  forall s, rx_wf s -> n = length (rx_pending s) ->
  fst (recv_n n s) = rx_pending s /\
  rx_wf (snd (recv_n n s)) /\ rx_pending (snd (recv_n n s)) = [] /\
  uart_error (snd (recv_n n s)) = uart_error s.
Proof.
  induction n as [|n IH]; intros s W Hn.
  - cbn [recv_n fst snd]. destruct (rx_pending s); [auto | discriminate].
  - pose proof (rx_recv_dequeues s W) as D.
    destruct (rx_pending s) as [|b rest] eqn:P; [discriminate|].
    destruct D as (_ & Hb & W1 & P1 & E1).
    cbn [recv_n]. destruct (uart_recv_byte s) as [c s1]. cbn [fst snd] in *.
    injection Hn as Hn. rewrite <- P1 in Hn.
    destruct (IH s1 W1 Hn) as (F & W2 & P2 & E2).
    destruct (recv_n n s1) as [cs s2]. cbn [fst snd] in *.
    subst c. rewrite F, P1, E2, E1. auto.
Qed.

Lemma receive_all_enqueues (status : Z) (bytes : list Z) :
  forall s, rx_wf s -> rx_count s + Z.of_nat (length bytes) <= 1023 ->
  rx_wf (receive_all status bytes s) /\
  rx_pending (receive_all status bytes s) = rx_pending s ++ map u8 bytes.
Proof.
  induction bytes as [|b bytes IH]; intros s W Hc.
  - cbn. now rewrite app_nil_r.
  - cbn [length] in Hc. cbn [receive_all fold_left map].
    destruct (rx_receive_enqueues status b s W ltac:(lia)) as [W1 P1].
    fold (receive_all status bytes (ISR_USART_RX status b s)).
    destruct (IH (ISR_USART_RX status b s) W1) as [W2 P2].
    + pose proof (rx_pending_length (ISR_USART_RX status b s)) as L1.
      pose proof (rx_pending_length s) as L0.
      rewrite P1, length_app in L1. cbn [length] in L1. lia.
    + split; [exact W2|]. rewrite P2, P1, <- app_assoc. reflexivity.
Qed.

(** X2: the receive ring is a queue of capacity 1023.  As long as the
    bytes fit, the receive interrupt appends each byte to the pending ones,
    and [uart_recv_byte] then hands out all pending bytes in arrival order,
    after which the ring is empty. *)
Theorem rx_ring_is_fifo (status : Z) (bytes : list Z) (s : state) :
  rx_wf s -> rx_count s + Z.of_nat (length bytes) <= 1023 ->
  let s1 := receive_all status bytes s in
  let r := recv_n (length (rx_pending s1)) s1 in
  rx_pending s1 = rx_pending s ++ map u8 bytes /\
  fst r = rx_pending s ++ map u8 bytes /\
  rx_pending (snd r) = [] /\ uart_available (snd r) = false.
Proof.
  intros W Hc s1 r.
  destruct (receive_all_enqueues status bytes s W Hc) as [W1 P1].
  fold s1 in W1, P1.
  destruct (recv_n_drains _ s1 W1 eq_refl) as (F & W2 & P2 & _).
  fold r in F, W2, P2.
  split; [exact P1|]. split; [now rewrite F|]. split; [exact P2|].
  pose proof (rx_recv_dequeues _ W2) as D. rewrite P2 in D. apply D.
Qed.

Lemma rx_ring_is_fifo_witness :
  let s1 := receive_all 0 (chars ":00000001FF") fresh in
  fst (recv_n (length (rx_pending s1)) s1) = chars ":00000001FF".
Proof.
  intros s1.
  destruct (rx_ring_is_fifo 0 (chars ":00000001FF") fresh) as (_ & F & _).
  - repeat split; vm_compute; congruence.
  - vm_compute. congruence.
  - exact F.
Defined.

Lemma rx_overflow_drops_newest_witness :
  let s := set_rx (replicate 1024 (chr "A")) 1023 0 0 fresh in
  rx_pending (ISR_USART_RX 0 (chr "B") s) = rx_pending s /\
  Z.land (uart_error (ISR_USART_RX 0 (chr "B") s)) ERROR_RX_BUFFER_OVERFLOW <> 0.
Proof.
  intros s.
  destruct (rx_overflow_drops_newest 0 (chr "B") s) as (P & _ & _ & _ & F).
  - repeat split; vm_compute; congruence.
  - vm_compute. reflexivity.
  - split; [exact P | exact F].
Defined.

(** ** Error flags of the receiver *)

Lemma flag_set (e bit : Z) :
  0 <= bit < 8 -> Z.testbit (u8 (Z.lor e (_BV bit))) bit = true.
Proof.
  intros Hb. unfold u8, _BV. change 256 with (2 ^ 8).
  rewrite Z.mod_pow2_bits_low, Z.lor_spec by lia.
  rewrite Z.shiftl_1_l, Z.pow2_bits_true by lia. apply orb_true_r.
Qed.

Lemma flag_kept (e f bit : Z) :
  0 <= bit < 8 -> Z.testbit e bit = true ->
  Z.testbit (u8 (Z.lor e f)) bit = true.
Proof.
  intros Hb H. unfold u8. change 256 with (2 ^ 8).
  rewrite Z.mod_pow2_bits_low, Z.lor_spec, H by lia. reflexivity.
Qed.

Lemma flag_tested (e bit : Z) :
  0 <= bit -> Z.testbit e bit = true -> Z.land e (_BV bit) <> 0.
Proof.
  intros Hb H Q.
  assert (T : Z.testbit (Z.land e (_BV bit)) bit = false)
    by (rewrite Q; apply Z.bits_0).
  unfold _BV in T.
  rewrite Z.land_spec, H, Z.shiftl_1_l, Z.pow2_bits_true in T by lia.
  discriminate T.
Qed.

(** X3: the receive interrupt latches the hardware faults: a data overrun
    or a framing error reported in the status register sets its flag in
    [uart_error], and no flag that is set is cleared by it. *)
Theorem rx_faults_are_latched (status data bit : Z) (s : state) :
  0 <= bit < 8 ->
  let s' := ISR_USART_RX status data s in
  (Z.testbit (uart_error s) bit = true ->
   Z.testbit (uart_error s') bit = true) /\
  (Z.land status (_BV DOR0) <> 0 ->
   Z.land (uart_error s') ERROR_RX_DATA_OVERRUN <> 0) /\
  (Z.land status (_BV FE0) <> 0 ->
   Z.land (uart_error s') ERROR_RX_FRAME_ERROR <> 0).
Proof.
  intros Hb s'. subst s'. unfold ISR_USART_RX.
  unfold ERROR_RX_DATA_OVERRUN, ERROR_RX_FRAME_ERROR, ERROR_RX_BUFFER_OVERFLOW.
  split; [|split]; intros H.
  - destruct (negb (Z.land status (_BV DOR0) =? 0)),
             (negb (Z.land status (_BV FE0) =? 0)), (_ =? rx_tail s);
      cbn [uart_error set_rx];
      repeat first [exact H | apply flag_kept; [lia|]].
  - apply Z.eqb_neq in H. rewrite H. cbn [negb].
    apply (flag_tested _ 0); [lia|].
    destruct (negb (Z.land status (_BV FE0) =? 0)), (_ =? rx_tail s);
      cbn [uart_error set_rx];
      repeat first [apply (flag_set _ 0); lia | apply flag_kept; [lia|]].
  - apply Z.eqb_neq in H. rewrite H. cbn [negb].
    apply (flag_tested _ 1); [lia|].
    destruct (negb (Z.land status (_BV DOR0) =? 0)), (_ =? rx_tail s);
      cbn [uart_error set_rx];
      repeat first [apply (flag_set _ 1); lia | apply flag_kept; [lia|]].
Qed.

Lemma rx_faults_are_latched_witness :
  let s := ISR_USART_RX (_BV FE0) (chr "x") fresh in
  Z.land (uart_error s) ERROR_RX_FRAME_ERROR <> 0 /\
  Z.testbit (uart_error (ISR_USART_RX 0 (chr "y") s)) 1 = true.
Proof.
  intros s. split.
  - destruct (rx_faults_are_latched (_BV FE0) (chr "x") 1 fresh) as (_ & _ & F);
      [lia|]. apply F. vm_compute. discriminate.
  - destruct (rx_faults_are_latched 0 (chr "y") 1 s) as (K & _); [lia|].
    apply K. reflexivity.
Defined.

(** ** The line reader, step by step *)

Lemma set_sent_id (s : state) : set_sent (sent s ++ []) s = s.
Proof. destruct s. unfold set_sent. cbn. now rewrite app_nil_r. Qed.

(** [uart_send_string] appends the characters of the string. *)
Lemma uart_send_string_eq (str : list Z) :
  forall s, uart_send_string str s = set_sent (sent s ++ map u8 str) s.
Proof.
  unfold uart_send_string.
  induction str as [|c str IH]; intros s; cbn [fold_left map].
  - symmetry. apply set_sent_id.
  - rewrite IH. unfold uart_send_byte. cbn [sent set_sent].
    rewrite <- app_assoc. reflexivity.
Qed.

(** [get_line] without the monad, when no fatal flag is set. *)
Lemma get_line_unfold (s : state) :
  Z.land (uart_error s) ERROR_RX_BUFFER_OVERFLOW = 0 ->
  Z.land (uart_error s) ERROR_RX_DATA_OVERRUN = 0 ->
  get_line s =
  if uart_available s then
    let s1 := snd (uart_recv_byte s) in
    let c := u8 (fst (uart_recv_byte s)) in
    if c =? ESC then
      Ret 1 (set_len 0 (store_line 0 0 (uart_send_string crlf s1)))
    else if (c =? CR) || (c =? LF) then
      let s2 := store_line (len s1) 0 s1 in
      if 0 <? len s1 then
        let s3 := set_len 0 s2 in
        Ret 1 (if line0_is_hex s3 then s3 else uart_send_string crlf s3)
      else Ret 0 s2
    else if len s1 <? MAX_LINE_LEN - 1 then
      let s3 := set_len (len s1 + 1) (store_line (len s1) c s1) in
      Ret 0 (if line0_is_hex s3 then s3 else uart_send_byte c s3)
    else if len s1 =? MAX_LINE_LEN - 1 then
      Ret 0 (set_len (len s1 + 1) (store_line (len s1) 0 s1))
    else Ret 0 s1
  else Ret 0 s.
Proof.
  intros H1 H2. unfold get_line. repeat (progress run_M).
  rewrite H1. cbn [Z.eqb negb]. cbv beta iota.
  rewrite H2. cbn [Z.eqb negb]. cbv beta iota.
  destruct (uart_available s); [|reflexivity]. cbv beta iota zeta.
  destruct (uart_recv_byte s) as [c0 s1]. cbn [fst snd]. cbv beta iota.
  destruct (u8 c0 =? ESC); [reflexivity|].
  destruct ((u8 c0 =? CR) || (u8 c0 =? LF)); cbv beta iota.
  - destruct (0 <? len s1); [|reflexivity].
    destruct (line0_is_hex _); reflexivity.
  - destruct (len s1 <? MAX_LINE_LEN - 1).
    + destruct (line0_is_hex _); reflexivity.
    + destruct (len s1 =? MAX_LINE_LEN - 1); reflexivity.
Qed.

(** The steps of [get_line] after the byte is taken leave the receive
    ring and the error flags alone. *)
Lemma line_steps_keep_rx :
  (forall x t, rx_part (uart_send_string x t) = rx_part t) /\
  (forall c t, rx_part (uart_send_byte c t) = rx_part t) /\
  (forall n t, rx_part (set_len n t) = rx_part t) /\
  (forall i c t, rx_part (store_line i c t) = rx_part t).
Proof.
  repeat split; intros; try (rewrite uart_send_string_eq; reflexivity);
    try reflexivity.
  unfold store_line. destruct (_ && _); reflexivity.
Qed.

Lemma rx_part_fields (s t : state) :
  rx_part s = rx_part t ->
  rx_buffer s = rx_buffer t /\ rx_head s = rx_head t /\
  rx_tail s = rx_tail t /\ uart_error s = uart_error t /\
  rx_pending s = rx_pending t /\ (rx_wf t -> rx_wf s).
Proof.
  unfold rx_part, rx_pending, rx_wf, rx_count. intros H.
  injection H as -> -> -> ->. repeat split; tauto.
Qed.

Ltac keep_rx :=
  destruct line_steps_keep_rx as (K1 & K2 & K3 & K4);
  rewrite ?K1, ?K2, ?K3, ?K4; clear K1 K2 K3 K4.

Lemma uart_recv_byte_error (s : state) :
  uart_error (snd (uart_recv_byte s)) = uart_error s.
Proof. unfold uart_recv_byte. now destruct (_ =? _). Qed.

(** X4: [get_line] treats a latched buffer overflow or data overrun as
    fatal: it consumes nothing, sets the signature to zero/zero, arms the
    watchdog and idles until the reset.  Without these two flags it
    returns, and it never clears a flag; a framing error alone is therefore
    not fatal. *)
Theorem get_line_fatal_faults (s : state) :
  (Z.land (uart_error s) ERROR_RX_BUFFER_OVERFLOW <> 0 \/
   Z.land (uart_error s) ERROR_RX_DATA_OVERRUN <> 0 ->
   exists s', get_line s = Halt IDLE_UNTIL_RESET s' /\
              r2 s' = 0 /\ r3 s' = 0 /\ wdt_armed s' = true /\
              rx_buffer s' = rx_buffer s /\ rx_head s' = rx_head s /\
              rx_tail s' = rx_tail s /\ line s' = line s /\ len s' = len s) /\
  (Z.land (uart_error s) ERROR_RX_BUFFER_OVERFLOW = 0 ->
   Z.land (uart_error s) ERROR_RX_DATA_OVERRUN = 0 ->
   exists ready s', get_line s = Ret ready s' /\
                    uart_error s' = uart_error s).
Proof.
  split.
  - intros H. unfold get_line, reboot_to_bootloader, reboot.
    repeat (progress run_M).
    destruct (Z.land (uart_error s) ERROR_RX_BUFFER_OVERFLOW =? 0) eqn:E1;
      cbn [negb]; cbv beta iota.
    + destruct (Z.land (uart_error s) ERROR_RX_DATA_OVERRUN =? 0) eqn:E2;
        cbn [negb]; cbv beta iota.
      * apply Z.eqb_eq in E1, E2. destruct H; contradiction.
      * eexists. split; [reflexivity|]. rewrite !uart_send_string_eq.
        repeat split.
    + eexists. split; [reflexivity|]. rewrite !uart_send_string_eq.
      repeat split.
  - intros H1 H2. rewrite (get_line_unfold s H1 H2).
    pose proof (uart_recv_byte_error s) as R.
    destruct (uart_available s); [|now exists 0, s]. cbv zeta.
    set (s1 := snd (uart_recv_byte s)) in *.
    set (c := u8 (fst (uart_recv_byte s))). clearbody s1 c.
    repeat match goal with
           | |- context [if ?b then _ else _] => destruct b
           end;
      eexists _, _; (split; [reflexivity|]);
      (etransitivity; [|exact R]); apply rx_part_fields; keep_rx; reflexivity.
Qed.

Lemma get_line_fatal_faults_witness :
  (exists s', get_line (set_rx (rx_buffer fresh) 0 0 ERROR_RX_DATA_OVERRUN fresh)
                = Halt IDLE_UNTIL_RESET s' /\ r2 s' = 0 /\ r3 s' = 0) /\
  (exists ready s',
     get_line (set_rx (rx_buffer fresh) 0 0 ERROR_RX_FRAME_ERROR fresh)
       = Ret ready s').
Proof.
  split.
  - destruct (get_line_fatal_faults
                (set_rx (rx_buffer fresh) 0 0 ERROR_RX_DATA_OVERRUN fresh))
      as [F _].
    destruct F as (s' & E & A & B & _); [right; vm_compute; discriminate|].
    exists s'. repeat split; assumption.
  - destruct (get_line_fatal_faults
                (set_rx (rx_buffer fresh) 0 0 ERROR_RX_FRAME_ERROR fresh))
      as [_ R].
    destruct R as (ready & s' & E & _); [reflexivity | reflexivity |].
    now exists ready, s'.
Defined.

Lemma store_line_in (i c : Z) (t : state) :
  0 <= i < 64 ->
  store_line i c t = set_line (<[Z.to_nat i := c]> (line t)) (overrun t) (len t) t.
Proof.
  intros H. unfold store_line, MAX_LINE_LEN.
  destruct ((0 <=? i) && (i <? 64)) eqn:E; [reflexivity|].
  apply andb_false_iff in E as [?%Z.leb_gt | ?%Z.ltb_ge]; lia.
Qed.

Lemma rx_interrupt_keeps_line (status data : Z) (s : state) :
  line_part (ISR_USART_RX status data s) = line_part s.
Proof. unfold ISR_USART_RX. now destruct (_ =? _). Qed.

Lemma uart_recv_byte_keeps_line (s : state) :
  line_part (snd (uart_recv_byte s)) = line_part s.
Proof. unfold uart_recv_byte. now destruct (_ =? _). Qed.

Lemma line_part_fields (s t : state) :
  line_part s = line_part t ->
  line s = line t /\ overrun s = overrun t /\ len s = len t /\ sent s = sent t.
Proof. unfold line_part. intros H. injection H as -> -> -> ->. auto. Qed.

(** One byte arrives while the reader is idle: [get_line] finds exactly
    this byte, and the ring is empty again once it is taken. *)
Lemma idle_receive (c : Z) (s : state) :
  line_idle s -> 0 <= c < 256 ->
  let s0 := ISR_USART_RX 0 c s in
  let s1 := snd (uart_recv_byte s0) in
  Z.land (uart_error s0) ERROR_RX_BUFFER_OVERFLOW = 0 /\
  Z.land (uart_error s0) ERROR_RX_DATA_OVERRUN = 0 /\
  uart_available s0 = true /\ u8 (fst (uart_recv_byte s0)) = c /\
  line_idle s1 /\ line_part s1 = line_part s.
Proof.
  intros (W & P & E1 & E2 & L) Hc s0 s1.
  assert (C0 : rx_count s = 0).
  { rewrite <- rx_pending_length, P. reflexivity. }
  destruct (rx_receive_enqueues 0 c s W ltac:(lia)) as [W0 P0].
  fold s0 in W0, P0. rewrite P in P0. cbn [app] in P0.
  assert (U : u8 c = c) by (apply Z.mod_small; lia).
  rewrite U in P0.
  assert (E0 : uart_error s0 = uart_error s).
  { subst s0. unfold ISR_USART_RX. cbn [Z.land Z.eqb negb].
    revert C0. unfold rx_count, RX_BUFFER_LEN, u16.
    destruct W as (_ & Hh & Ht). unfold RX_BUFFER_LEN in *.
    euclid (rx_head s - rx_tail s) 1024. euclid (rx_head s + 1) 1024.
    intros C0. rewrite (Z.mod_small ((rx_head s + 1) mod 1024)) by lia.
    destruct (_ =? _) eqn:Q; [apply Z.eqb_eq in Q; lia | reflexivity]. }
  pose proof (rx_recv_dequeues s0 W0) as D. rewrite P0 in D.
  destruct D as (A & F & W1 & P1 & R1). fold s1 in W1, P1, R1.
  rewrite E0. split; [exact E1|]. split; [exact E2|].
  split; [exact A|]. split; [now rewrite F|].
  assert (LP : line_part s1 = line_part s).
  { subst s1. rewrite uart_recv_byte_keeps_line. subst s0.
    apply rx_interrupt_keeps_line. }
  split; [|exact LP].
  destruct (line_part_fields _ _ LP) as (Hl & _).
  unfold line_idle. rewrite R1, E0, Hl. auto.
Qed.

(** The line, its length, the overrun log and the output through the
    steps of [get_line]. *)
Lemma line_steps :
  (forall n t, line (set_len n t) = line t /\ overrun (set_len n t) = overrun t /\
               len (set_len n t) = u8 n /\ sent (set_len n t) = sent t) /\
  (forall i c t, 0 <= i < 64 ->
     line (store_line i c t) = <[Z.to_nat i := c]> (line t) /\
     overrun (store_line i c t) = overrun t /\
     len (store_line i c t) = len t /\ sent (store_line i c t) = sent t) /\
  (forall x t, line (uart_send_string x t) = line t /\
               overrun (uart_send_string x t) = overrun t /\
               len (uart_send_string x t) = len t /\
               sent (uart_send_string x t) = sent t ++ map u8 x) /\
  (forall c t, line (uart_send_byte c t) = line t /\
               overrun (uart_send_byte c t) = overrun t /\
               len (uart_send_byte c t) = len t /\
               sent (uart_send_byte c t) = sent t ++ [u8 c]).
Proof.
  split; [|split; [|split]]; intros.
  - repeat split.
  - rewrite store_line_in by assumption. repeat split.
  - rewrite uart_send_string_eq. repeat split.
  - repeat split.
Qed.

Lemma line_idle_kept (s1 t : state) :
  line_idle s1 -> rx_part t = rx_part s1 ->
  length (line t) = length (line s1) -> line_idle t.
Proof.
  intros (W & P & F1 & F2 & L) R Hl.
  destruct (rx_part_fields _ _ R) as (_ & _ & _ & E & Pn & Wf).
  unfold line_idle. rewrite E, Pn, Hl. auto.
Qed.

(** X5: ESC cancels the line: whatever has accumulated, [get_line] sends
    CR LF and returns 1 with an empty line and [len] back at 0.  A line end
    that arrives when nothing has accumulated returns 0: blank lines, and
    the LF of a CR LF pair, yield no line. *)
Theorem get_line_cancel_and_blank (eol : Z) (s : state) :
  line_idle s -> eol = CR \/ eol = LF ->
  (exists s', get_line (ISR_USART_RX 0 ESC s) = Ret 1 s' /\
              line_idle s' /\ at_ (line s') 0 = 0 /\ len s' = 0 /\
              overrun s' = overrun s /\ sent s' = sent s ++ crlf) /\
  (len s = 0 ->
   exists s', get_line (ISR_USART_RX 0 eol s) = Ret 0 s' /\
              line_idle s' /\ at_ (line s') 0 = 0 /\ len s' = 0 /\
              overrun s' = overrun s /\ sent s' = sent s).
Proof.
  intros I He. pose proof I as (_ & _ & _ & _ & L).
  change (Z.to_nat MAX_LINE_LEN) with 64%nat in L.
  destruct line_steps as (Sn & Sl & Ss & Sb). split.
  - destruct (idle_receive ESC s I) as (E1 & E2 & A & C & I1 & LP);
      [unfold ESC; lia|].
    rewrite (get_line_unfold _ E1 E2), A. cbv zeta. rewrite C.
    change (ESC =? ESC) with true. cbv iota.
    set (s1 := snd (uart_recv_byte (ISR_USART_RX 0 ESC s))) in *. clearbody s1.
    destruct (line_part_fields _ _ LP) as (Hl & Ho & Hn & Hs).
    eexists. split; [reflexivity|].
    set (t1 := uart_send_string crlf s1).
    destruct (Ss crlf s1) as (A1 & A2 & A3 & A4). fold t1 in A1, A2, A3, A4.
    destruct (Sl 0 0 t1 ltac:(lia)) as (B1 & B2 & B3 & B4).
    destruct (Sn 0 (store_line 0 0 t1)) as (C1 & C2 & C3 & C4).
    split; [|split; [|split; [|split]]].
    + apply (line_idle_kept s1); [exact I1 | subst t1; keep_rx; reflexivity |].
      rewrite C1, B1, A1, length_insert. reflexivity.
    + rewrite C1, B1, A1. apply at_insert_eq. rewrite Hl, L. cbn. lia.
    + rewrite C3. reflexivity.
    + rewrite C2, B2, A2. exact Ho.
    + rewrite C4, B4, A4, Hs. reflexivity.
  - intros Hlen.
    destruct (idle_receive eol s I) as (E1 & E2 & A & C & I1 & LP);
      [destruct He as [-> | ->]; unfold CR, LF; lia|].
    rewrite (get_line_unfold _ E1 E2), A. cbv zeta. rewrite C.
    assert (Q1 : (eol =? ESC) = false)
      by (destruct He as [-> | ->]; reflexivity).
    assert (Q2 : (eol =? CR) || (eol =? LF) = true)
      by (destruct He as [-> | ->]; reflexivity).
    rewrite Q1, Q2.
    set (s1 := snd (uart_recv_byte (ISR_USART_RX 0 eol s))) in *. clearbody s1.
    destruct (line_part_fields _ _ LP) as (Hl & Ho & Hn & Hs).
    rewrite Hn, Hlen. change (0 <? 0) with false. cbv iota.
    eexists. split; [reflexivity|].
    destruct (Sl 0 0 s1 ltac:(lia)) as (B1 & B2 & B3 & B4).
    split; [|split; [|split; [|split]]].
    + apply (line_idle_kept s1); [exact I1 | keep_rx; reflexivity |].
      rewrite B1, length_insert. reflexivity.
    + rewrite B1. apply at_insert_eq. rewrite Hl, L. cbn. lia.
    + rewrite B3, Hn. exact Hlen.
    + rewrite B2. exact Ho.
    + rewrite B4. exact Hs.
Qed.

Lemma get_line_cancel_and_blank_witness :
  (exists s', get_line (ISR_USART_RX 0 ESC fresh) = Ret 1 s' /\
              sent s' = sent fresh ++ crlf) /\
  (exists s', get_line (ISR_USART_RX 0 LF fresh) = Ret 0 s').
Proof.
  assert (I : line_idle fresh) by (repeat split; vm_compute; congruence).
  destruct (get_line_cancel_and_blank LF fresh I) as [A B]; [now right|].
  split.
  - destruct A as (s' & E & _ & _ & _ & _ & S). now exists s'.
  - destruct B as (s' & E & _); [reflexivity|]. now exists s'.
Defined.

(** ** Lines, byte by byte *)

Lemma take_S_insert (l : list Z) (n : nat) (c : Z) :
  (n < length l)%nat -> take (S n) (<[n := c]> l) = take n l ++ [c].
Proof.
  intros H. rewrite insert_take_drop by exact H.
  rewrite (cons_middle c), app_assoc. apply take_app_length'.
  rewrite length_app, length_take. cbn. lia.
Qed.

Lemma at_take_app (l r : list Z) (n : nat) :
  l <> [] -> at_ (take (S n) l ++ r) 0 = at_ l 0.
Proof. destruct l; [congruence | reflexivity]. Qed.

Lemma line0_is_hex_sent (c : Z) (t : state) :
  line0_is_hex (uart_send_byte c t) = line0_is_hex t /\
  forall x, line0_is_hex (uart_send_string x t) = line0_is_hex t.
Proof.
  split; [reflexivity|]. intros x. unfold line0_is_hex.
  now rewrite uart_send_string_eq.
Qed.

Lemma plain_tests (c : Z) :
  plain c -> (c =? ESC) = false /\ (c =? CR) || (c =? LF) = false.
Proof.
  intros (_ & A & B & C). split; [now apply Z.eqb_neq|].
  apply orb_false_iff. split; now apply Z.eqb_neq.
Qed.

(** A plain byte while fewer than 63 are held: it is stored at [line[len]],
    [len] grows by one, and the byte is echoed unless the line is a hex
    record. *)
Lemma get_line_plain (c : Z) (s : state) :
  line_idle s -> plain c -> 0 <= len s < 63 ->
  exists s', get_line (ISR_USART_RX 0 c s) = Ret 0 s' /\ line_idle s' /\
             line s' = <[Z.to_nat (len s) := c]> (line s) /\
             len s' = len s + 1 /\ overrun s' = overrun s /\
             sent s' = sent s ++ (if line0_is_hex s' then [] else [c]).
Proof.
  intros I Hp Hn. destruct (plain_tests c Hp) as [Q1 Q2].
  destruct Hp as (Hc & _).
  destruct line_steps as (Sn & Sl & Ss & Sb).
  destruct (idle_receive c s I Hc) as (E1 & E2 & A & C & I1 & LP).
  rewrite (get_line_unfold _ E1 E2), A. cbv zeta. rewrite C, Q1, Q2.
  set (s1 := snd (uart_recv_byte (ISR_USART_RX 0 c s))) in *. clearbody s1.
  destruct (line_part_fields _ _ LP) as (Hl & Ho & Hlen & Hs).
  rewrite Hlen.
  assert (Q3 : (len s <? MAX_LINE_LEN - 1) = true)
    by (apply Z.ltb_lt; unfold MAX_LINE_LEN; lia).
  rewrite Q3.
  set (s2 := store_line (len s) c s1).
  destruct (Sl (len s) c s1 ltac:(lia)) as (B1 & B2 & B3 & B4).
  fold s2 in B1, B2, B3, B4.
  set (s3 := set_len (len s + 1) s2).
  destruct (Sn (len s + 1) s2) as (C1 & C2 & C3 & C4).
  fold s3 in C1, C2, C3, C4.
  assert (U : u8 (len s + 1) = len s + 1) by (apply Z.mod_small; lia).
  assert (R3 : rx_part s3 = rx_part s1) by (subst s3 s2; keep_rx; reflexivity).
  assert (L3 : line s3 = <[Z.to_nat (len s) := c]> (line s))
    by (rewrite C1, B1, Hl; reflexivity).
  assert (U8 : u8 c = c) by (apply Z.mod_small; lia).
  clearbody s3 s2.
  destruct (line0_is_hex s3) eqn:Hx.
  - exists s3. rewrite Hx. split; [reflexivity|].
    split; [|split; [exact L3 | split; [|split]]].
    + apply (line_idle_kept s1); [exact I1 | exact R3 |].
      rewrite L3, length_insert, Hl. reflexivity.
    + rewrite C3, U. reflexivity.
    + rewrite C2, B2. exact Ho.
    + rewrite C4, B4, Hs, app_nil_r. reflexivity.
  - exists (uart_send_byte c s3).
    destruct (Sb c s3) as (D1 & D2 & D3 & D4).
    rewrite (proj1 (line0_is_hex_sent c s3)), Hx.
    split; [reflexivity|].
    split; [|split; [|split; [|split]]].
    + apply (line_idle_kept s1); [exact I1 | keep_rx; exact R3 |].
      rewrite D1, L3, length_insert, Hl. reflexivity.
    + rewrite D1. exact L3.
    + rewrite D3, C3, U. reflexivity.
    + rewrite D2, C2, B2. exact Ho.
    + rewrite D4, C4, B4, Hs, U8. reflexivity.
Qed.

(** The 64th byte of a line is not stored: a NUL takes its place at
    [line[63]] and [len] becomes 64.  Any further byte changes nothing.
    Neither is echoed. *)
Lemma get_line_full (c : Z) (s : state) :
  line_idle s -> plain c -> 63 <= len s <= 64 ->
  exists s', get_line (ISR_USART_RX 0 c s) = Ret 0 s' /\ line_idle s' /\
             line s' = (if len s =? 63 then <[63%nat := 0]> (line s) else line s) /\
             len s' = 64 /\ overrun s' = overrun s /\ sent s' = sent s.
Proof.
  intros I Hp Hn. destruct (plain_tests c Hp) as [Q1 Q2].
  destruct Hp as (Hc & _).
  destruct line_steps as (Sn & Sl & Ss & Sb).
  destruct (idle_receive c s I Hc) as (E1 & E2 & A & C & I1 & LP).
  rewrite (get_line_unfold _ E1 E2), A. cbv zeta. rewrite C, Q1, Q2.
  set (s1 := snd (uart_recv_byte (ISR_USART_RX 0 c s))) in *. clearbody s1.
  destruct (line_part_fields _ _ LP) as (Hl & Ho & Hlen & Hs).
  rewrite Hlen.
  assert (Q3 : (len s <? MAX_LINE_LEN - 1) = false)
    by (apply Z.ltb_ge; unfold MAX_LINE_LEN; lia).
  rewrite Q3. change (MAX_LINE_LEN - 1) with 63.
  destruct (len s =? 63) eqn:Q4.
  - apply Z.eqb_eq in Q4. rewrite Q4.
    destruct (Sl 63 0 s1 ltac:(lia)) as (B1 & B2 & B3 & B4).
    destruct (Sn (63 + 1) (store_line 63 0 s1)) as (C1 & C2 & C3 & C4).
    eexists. split; [reflexivity|].
    split; [|split; [|split; [|split]]].
    + apply (line_idle_kept s1); [exact I1 | keep_rx; reflexivity |].
      rewrite C1, B1, length_insert. reflexivity.
    + rewrite C1, B1, Hl. reflexivity.
    + rewrite C3. reflexivity.
    + rewrite C2, B2. exact Ho.
    + rewrite C4, B4. exact Hs.
  - apply Z.eqb_neq in Q4. exists s1. split; [reflexivity|].
    split; [exact I1|]. split; [exact Hl|]. split; [lia|].
    split; assumption.
Qed.

(** A line end after at least one byte: the terminator is stored at
    [line[len]], [len] goes back to 0 and the line is ready.  With [len]
    at 64 the store falls outside the array. *)
Lemma get_line_eol (eol : Z) (s : state) :
  line_idle s -> eol = CR \/ eol = LF -> 0 < len s <= 64 ->
  exists s', get_line (ISR_USART_RX 0 eol s) = Ret 1 s' /\ line_idle s' /\
             line s' = (if len s =? 64 then line s
                        else <[Z.to_nat (len s) := 0]> (line s)) /\
             len s' = 0 /\
             overrun s' = (if len s =? 64 then overrun s ++ [(64, 0)]
                           else overrun s) /\
             sent s' = sent s ++ (if line0_is_hex s' then [] else crlf).
Proof.
  intros I He Hn.
  destruct line_steps as (Sn & Sl & Ss & Sb).
  destruct (idle_receive eol s I) as (E1 & E2 & A & C & I1 & LP);
    [destruct He as [-> | ->]; unfold CR, LF; lia|].
  rewrite (get_line_unfold _ E1 E2), A. cbv zeta. rewrite C.
  assert (Q1 : (eol =? ESC) = false)
    by (destruct He as [-> | ->]; reflexivity).
  assert (Q2 : (eol =? CR) || (eol =? LF) = true)
    by (destruct He as [-> | ->]; reflexivity).
  rewrite Q1, Q2.
  set (s1 := snd (uart_recv_byte (ISR_USART_RX 0 eol s))) in *. clearbody s1.
  destruct (line_part_fields _ _ LP) as (Hl & Ho & Hlen & Hs).
  rewrite Hlen.
  assert (Q3 : (0 <? len s) = true) by (apply Z.ltb_lt; lia).
  rewrite Q3.
  set (s2 := store_line (len s) 0 s1).
  assert (R2 : rx_part s2 = rx_part s1) by (subst s2; keep_rx; reflexivity).
  assert (B : line s2 = (if len s =? 64 then line s
                         else <[Z.to_nat (len s) := 0]> (line s)) /\
              overrun s2 = (if len s =? 64 then overrun s ++ [(64, 0)]
                            else overrun s) /\
              sent s2 = sent s).
  { destruct (len s =? 64) eqn:Q4.
    - apply Z.eqb_eq in Q4. subst s2. rewrite Q4.
      unfold store_line. change ((0 <=? 64) && (64 <? MAX_LINE_LEN)) with false.
      cbv iota. cbn [line overrun sent set_line]. rewrite Hl, Ho, Hs. auto.
    - apply Z.eqb_neq in Q4.
      destruct (Sl (len s) 0 s1 ltac:(lia)) as (B1 & B2 & B3 & B4).
      fold s2 in B1, B2, B3, B4. rewrite B1, B2, B4, Hl, Ho, Hs. auto. }
  destruct B as (B1 & B2 & B4).
  set (s3 := set_len 0 s2).
  destruct (Sn 0 s2) as (C1 & C2 & C3 & C4). fold s3 in C1, C2, C3, C4.
  assert (R3 : rx_part s3 = rx_part s1) by (subst s3; keep_rx; exact R2).
  assert (L3 : length (line s3) = length (line s1)).
  { rewrite C1, B1, Hl. destruct (len s =? 64); [reflexivity|].
    apply length_insert. }
  clearbody s3 s2.
  destruct (line0_is_hex s3) eqn:Hx.
  - exists s3. rewrite Hx. split; [reflexivity|].
    split; [|split; [|split; [|split]]].
    + apply (line_idle_kept s1); assumption.
    + rewrite C1. exact B1.
    + rewrite C3. reflexivity.
    + rewrite C2. exact B2.
    + rewrite C4, B4, app_nil_r. reflexivity.
  - exists (uart_send_string crlf s3).
    destruct (Ss crlf s3) as (D1 & D2 & D3 & D4).
    rewrite (proj2 (line0_is_hex_sent 0 s3)), Hx.
    split; [reflexivity|].
    split; [|split; [|split; [|split]]].
    + apply (line_idle_kept s1); [exact I1 | keep_rx; exact R3 |].
      rewrite D1. exact L3.
    + rewrite D1, C1. exact B1.
    + rewrite D3, C3. reflexivity.
    + rewrite D2, C2. exact B2.
    + rewrite D4, C4, B4. reflexivity.
Qed.

(** [poll_bytes] over two stretches of input. *)
Lemma poll_bytes_app (a b : list Z) :
  b <> [] ->
  forall s, poll_bytes (a ++ b) s =
            match poll_bytes a s with
            | Ret _ s' => poll_bytes b s'
            | Halt h s' => Halt h s'
            end.
Proof.
  intros Hb. induction a as [|c a IH]; intros s; [reflexivity|].
  cbn [app poll_bytes].
  destruct (get_line (ISR_USART_RX 0 c s)) as [ready s'|h s']; [|reflexivity].
  destruct a as [|c' a'].
  - cbn [app]. destruct b; [contradiction | reflexivity].
  - rewrite <- IH. reflexivity.
Qed.

(** Plain bytes that fit are accumulated in order. *)
Lemma poll_plain (str : list Z) :
  forall s, str <> [] -> Forall plain str -> line_idle s ->
    0 <= len s -> len s + Z.of_nat (length str) <= 63 ->
    exists s', poll_bytes str s = Ret 0 s' /\ line_idle s' /\
               line s' = take (Z.to_nat (len s)) (line s) ++ str ++
                         drop (Z.to_nat (len s) + length str) (line s) /\
               len s' = len s + Z.of_nat (length str) /\
               overrun s' = overrun s /\
               sent s' = sent s ++ (if line0_is_hex s' then [] else str).
Proof.
  induction str as [|c str IH]; intros s Hne Hp I H0 Hfit; [congruence|].
  apply Forall_cons in Hp as [Hc Hp]. cbn [length] in Hfit.
  pose proof I as (_ & _ & _ & _ & L).
  change (Z.to_nat MAX_LINE_LEN) with 64%nat in L.
  destruct (get_line_plain c s I Hc ltac:(lia))
    as (s1 & E1 & I1 & L1 & N1 & O1 & S1).
  assert (T : take (S (Z.to_nat (len s))) (line s1) =
              take (Z.to_nat (len s)) (line s) ++ [c])
    by (rewrite L1; apply take_S_insert; lia).
  cbn [poll_bytes]. rewrite E1.
  destruct str as [|c' str'].
  - exists s1. split; [reflexivity|]. split; [exact I1|].
    split; [|split; [|split]]; try assumption.
    rewrite L1. cbn [length app]. rewrite Nat.add_1_r.
    apply insert_take_drop. lia.
  - destruct (IH s1 ltac:(congruence) Hp I1 ltac:(lia) ltac:(lia))
      as (s2 & E2 & I2 & L2 & N2 & O2 & S2).
    exists s2. split; [exact E2|]. split; [exact I2|].
    assert (Z1 : Z.to_nat (len s1) = S (Z.to_nat (len s))) by lia.
    rewrite Z1 in L2.
    split; [|split; [|split]].
    + rewrite L2, T, L1, drop_insert_lt by lia.
      rewrite <- app_assoc. cbn [app length].
      replace (S (Z.to_nat (len s)) + S (length str'))%nat
        with (Z.to_nat (len s) + S (S (length str')))%nat by lia.
      reflexivity.
    + rewrite N2, N1. cbn [length]. lia.
    + rewrite O2. exact O1.
    + assert (Hx : line0_is_hex s2 = line0_is_hex s1).
      { unfold line0_is_hex. rewrite L2. f_equal.
        apply at_take_app. intros Q. rewrite L1 in Q.
        apply (f_equal length) in Q. rewrite length_insert, L in Q.
        discriminate. }
      rewrite S2, S1, Hx, <- app_assoc.
      destruct (line0_is_hex s1); reflexivity.
Qed.

(** Bytes past the 63rd are dropped. *)
Lemma poll_full (str : list Z) :
  forall s, str <> [] -> Forall plain str -> line_idle s -> 63 <= len s <= 64 ->
    exists s', poll_bytes str s = Ret 0 s' /\ line_idle s' /\
               line s' = (if len s =? 63 then <[63%nat := 0]> (line s)
                          else line s) /\
               len s' = 64 /\ overrun s' = overrun s /\ sent s' = sent s.
Proof.
  induction str as [|c str IH]; intros s Hne Hp I Hn; [congruence|].
  apply Forall_cons in Hp as [Hc Hp].
  destruct (get_line_full c s I Hc Hn) as (s1 & E1 & I1 & L1 & N1 & O1 & S1).
  cbn [poll_bytes]. rewrite E1.
  destruct str as [|c' str'].
  - exists s1. split; [reflexivity|]. split; [exact I1|].
    split; [|split; [|split]]; assumption.
  - destruct (IH s1 ltac:(congruence) Hp I1 ltac:(lia))
      as (s2 & E2 & I2 & L2 & N2 & O2 & S2).
    exists s2. split; [exact E2|]. split; [exact I2|].
    rewrite N1 in L2. change (64 =? 63) with false in L2. cbv iota in L2.
    split; [|split; [|split]]; congruence.
Qed.

(** X6: a line of 1 to 63 plain bytes followed by CR or LF, one call of
    [get_line] after each byte: the last call returns 1, [line] holds the
    bytes in order followed by NUL, [len] is back at 0 and no store has left
    the array.  The bytes and a final CR LF are echoed unless the line
    starts with a colon. *)
Theorem get_line_assembles (str : list Z) (eol : Z) (s : state) :
  line_idle s -> len s = 0 -> Forall plain str ->
  (0 < length str <= 63)%nat -> eol = CR \/ eol = LF ->
  exists s', poll_bytes (str ++ [eol]) s = Ret 1 s' /\ line_idle s' /\
             line s' = str ++ 0 :: drop (S (length str)) (line s) /\
             len s' = 0 /\ overrun s' = overrun s /\
             sent s' = sent s ++ (if line0_is_hex s' then [] else str ++ crlf).
Proof.
  intros I H0 Hp Hn He.
  pose proof I as (_ & _ & _ & _ & L).
  change (Z.to_nat MAX_LINE_LEN) with 64%nat in L.
  assert (Hne : str <> []) by (destruct str; [cbn in Hn; lia | congruence]).
  destruct (poll_plain str s Hne Hp I ltac:(lia) ltac:(lia))
    as (s1 & E1 & I1 & L1 & N1 & O1 & S1).
  rewrite H0 in L1, N1. change (Z.to_nat 0) with 0%nat in L1.
  rewrite take_0 in L1. cbn [app Nat.add] in L1.
  rewrite Z.add_0_l in N1.
  destruct (get_line_eol eol s1 I1 He ltac:(lia))
    as (s2 & E2 & I2 & L2 & N2 & O2 & S2).
  assert (Q : (len s1 =? 64) = false) by (apply Z.eqb_neq; lia).
  rewrite Q in L2, O2.
  rewrite poll_bytes_app, E1 by congruence. cbn [poll_bytes]. rewrite E2.
  assert (L2' : line s2 = str ++ 0 :: drop (S (length str)) (line s)).
  { rewrite L2, N1, Nat2Z.id, L1.
    rewrite insert_app_r_alt, Nat.sub_diag by lia.
    f_equal. rewrite insert_take_drop by (rewrite length_drop; lia).
    rewrite take_0, drop_drop, Nat.add_1_r. reflexivity. }
  exists s2. split; [reflexivity|]. split; [exact I2|].
  split; [exact L2'|]. split; [exact N2|]. split; [congruence|].
  assert (Hx : line0_is_hex s2 = line0_is_hex s1).
  { unfold line0_is_hex. rewrite L2', L1.
    destruct str; [congruence | reflexivity]. }
  rewrite S2, S1, Hx, <- app_assoc. destruct (line0_is_hex s1); reflexivity.
Qed.

Lemma get_line_assembles_witness :
  exists s', poll_bytes (chars "help" ++ [CR]) fresh = Ret 1 s' /\
             line s' = chars "help" ++ 0 :: drop 5 (line fresh).
Proof.
  assert (I : line_idle fresh) by (repeat split; vm_compute; congruence).
  assert (P : Forall plain (chars "help"))
    by (repeat constructor; vm_compute; congruence).
  destruct (get_line_assembles (chars "help") CR fresh I eq_refl P)
    as (s' & E & _ & L & _); [cbn; lia | left; reflexivity |].
  exists s'. split; [exact E | exact L].
Defined.

(** X7: a line of more than 63 plain bytes is cut: the line that becomes
    ready holds the first 63 bytes and a NUL, the others are neither kept
    nor echoed, and the terminator is stored once at index 64, one past the
    array. *)
Theorem get_line_truncates (str : list Z) (eol : Z) (s : state) :
  line_idle s -> len s = 0 -> Forall plain str ->
  (63 < length str)%nat -> eol = CR \/ eol = LF ->
  exists s', poll_bytes (str ++ [eol]) s = Ret 1 s' /\ line_idle s' /\
             line s' = take 63 str ++ [0] /\
             len s' = 0 /\ overrun s' = overrun s ++ [(64, 0)] /\
             sent s' = sent s ++
                       (if line0_is_hex s' then [] else take 63 str ++ crlf).
Proof.
  intros I H0 Hp Hn He.
  pose proof I as (_ & _ & _ & _ & L).
  change (Z.to_nat MAX_LINE_LEN) with 64%nat in L.
  rewrite <- (take_drop 63 str) in Hp. apply Forall_app in Hp as [Hp1 Hp2].
  assert (Ln : length (take 63 str) = 63%nat) by (rewrite length_take; lia).
  assert (Hd : drop 63 str <> []).
  { intros Q. apply (f_equal length) in Q. rewrite length_drop in Q.
    cbn in Q. lia. }
  destruct (poll_plain (take 63 str) s) as (s1 & E1 & I1 & L1 & N1 & O1 & S1);
    [intros Q; rewrite Q in Ln; discriminate | exact Hp1 | exact I | lia
    | lia |].
  rewrite H0, Ln in L1, N1. change (Z.to_nat 0) with 0%nat in L1.
  rewrite take_0 in L1. cbn [app Nat.add] in L1.
  destruct (poll_full (drop 63 str) s1 Hd Hp2 I1 ltac:(lia))
    as (s2 & E2 & I2 & L2 & N2 & O2 & S2).
  rewrite N1 in L2. change (0 + Z.of_nat 63 =? 63) with true in L2.
  cbv iota in L2.
  destruct (get_line_eol eol s2 I2 He ltac:(lia))
    as (s3 & E3 & I3 & L3 & N3 & O3 & S3).
  rewrite N2 in L3, O3. change (64 =? 64) with true in L3, O3.
  cbv iota in L3, O3.
  assert (L3' : line s3 = take 63 str ++ [0]).
  { rewrite L3, L2, L1. rewrite insert_app_r_alt, Ln, Nat.sub_diag by lia.
    f_equal. remember (drop 63 (line s)) as d eqn:Hd'.
    assert (length d = 1%nat) by (subst d; rewrite length_drop; lia).
    destruct d as [|x [|y d]]; try discriminate. reflexivity. }
  replace (str ++ [eol]) with (take 63 str ++ (drop 63 str ++ [eol]))
    by (rewrite app_assoc, take_drop; reflexivity).
  rewrite poll_bytes_app, E1 by (destruct (drop 63 str); discriminate).
  rewrite poll_bytes_app, E2 by congruence. cbn [poll_bytes]. rewrite E3.
  exists s3. split; [reflexivity|]. split; [exact I3|].
  split; [exact L3'|]. split; [exact N3|]. split; [congruence|].
  assert (Hx : line0_is_hex s3 = line0_is_hex s1).
  { unfold line0_is_hex. rewrite L3', L1.
    destruct (take 63 str); [discriminate | reflexivity]. }
  rewrite S3, S2, S1, Hx, <- app_assoc. destruct (line0_is_hex s1); reflexivity.
Qed.

Lemma get_line_truncates_witness :
  exists s', poll_bytes (replicate 70 (chr "B") ++ [LF]) fresh = Ret 1 s' /\
             line s' = replicate 63 (chr "B") ++ [0] /\
             overrun s' = [(64, 0)].
Proof.
  assert (I : line_idle fresh) by (repeat split; vm_compute; congruence).
  assert (P : Forall plain (replicate 70 (chr "B")))
    by (apply Forall_replicate; repeat split; vm_compute; congruence).
  destruct (get_line_truncates (replicate 70 (chr "B")) LF fresh I eq_refl P)
    as (s' & E & _ & L & _ & O & _); [cbn; lia | right; reflexivity |].
  exists s'. split; [exact E|]. split; [exact L | exact O].
Defined.

(** ** What [write_current_page] leaves in program memory *)

Lemma at_is_byte (p : list Z) (k : nat) : Forall is_byte p -> is_byte (at_ p k).
Proof.
  intros H. unfold at_. destruct (nth_in_or_default k p 0) as [I | ->].
  - exact (proj1 (List.Forall_forall _ _) H _ I).
  - unfold is_byte. lia.
Qed.

(** The little-endian word made of two bytes gives them back. *)
Lemma word_bytes (a b : Z) :
  is_byte a -> is_byte b ->
  Z.land (u16 (Z.lor a (Z.shiftl b 8))) 0xff = a /\
  Z.shiftr (u16 (Z.lor a (Z.shiftl b 8))) 8 = b.
Proof.
  unfold is_byte. intros Ha Hb.
  rewrite Z.lor_comm, lor_shiftl_low by lia.
  change (2 ^ 8) with 256. unfold u16.
  rewrite (Z.mod_small (b * 256 + a)) by lia.
  change 0xff with (Z.ones 8). rewrite Z.land_ones, Z.shiftr_div_pow2 by lia.
  change (2 ^ 8) with 256. euclid (b * 256 + a) 256. lia.
Qed.

(** The fill loop copies [page] into the temporary buffer: every cell
    that was right stays right, and the two cells of each word become
    right. *)
Lemma fill_loop_buffer (base : Z) (l : list Z) :
  forall (G : nat -> Prop) s,
  Forall is_byte (page s) -> length (spm_buffer s) = 128%nat ->
  (forall i, In i l -> 0 <= i < 127 /\ u16 (base + i) mod PAGE_SIZE = i) ->
  (forall j, G j -> at_ (spm_buffer s) j = at_ (page s) j) ->
  let s' := fold_left
              (fun s i =>
                 let word := u16 (Z.lor (at_ (page s) (Z.to_nat i))
                                        (Z.shiftl (at_ (page s) (Z.to_nat (i + 1))) 8)) in
                 boot_page_fill (u16 (base + i)) word s)
              l s in
  flash s' = flash s /\
  forall j, G j \/ (exists i, In i l /\ (j = Z.to_nat i \/ j = Z.to_nat (i + 1))) ->
            at_ (spm_buffer s') j = at_ (page s) j.
Proof.
  induction l as [|i l IH]; intros G s Hb Hl Hi HG; cbn [fold_left].
  - split; [reflexivity|]. intros j [H | (i & [] & _)]. now apply HG.
  - cbv zeta.
    set (w := u16 (Z.lor (at_ (page s) (Z.to_nat i))
                         (Z.shiftl (at_ (page s) (Z.to_nat (i + 1))) 8))).
    set (s1 := boot_page_fill (u16 (base + i)) w s).
    destruct (Hi i (or_introl eq_refl)) as [Ri Oi].
    destruct (word_bytes _ _ (at_is_byte _ (Z.to_nat i) Hb)
                (at_is_byte _ (Z.to_nat (i + 1)) Hb)) as [Wl Wh].
    fold w in Wl, Wh.
    assert (B1 : spm_buffer s1 =
                 <[S (Z.to_nat i) := Z.shiftr w 8]>
                   (<[Z.to_nat i := Z.land w 0xff]> (spm_buffer s))).
    { subst s1. unfold boot_page_fill. rewrite Oi. reflexivity. }
    assert (P1 : page s1 = page s) by reflexivity.
    assert (F1 : flash s1 = flash s) by reflexivity.
    assert (N1 : Z.to_nat (i + 1) = S (Z.to_nat i)) by lia.
    clearbody s1.
    destruct (IH (fun j => G j \/ j = Z.to_nat i \/ j = Z.to_nat (i + 1)) s1)
      as [F2 A2].
    + rewrite P1. exact Hb.
    + rewrite B1, !length_insert. exact Hl.
    + intros i' H'. apply Hi. now right.
    + intros j Hj. rewrite B1, P1.
      destruct (decide (j = S (Z.to_nat i))) as [-> | N].
      * rewrite at_insert_eq by (rewrite length_insert; lia).
        rewrite Wh, N1. reflexivity.
      * rewrite at_insert_ne by congruence.
        destruct (decide (j = Z.to_nat i)) as [-> | N'].
        -- rewrite at_insert_eq by lia. exact Wl.
        -- rewrite at_insert_ne by congruence.
           destruct Hj as [Hj | [Hj | Hj]]; [now apply HG | congruence | lia].
    + cbv zeta in F2, A2. split; [now rewrite F2|].
      intros j Hj. rewrite A2, P1; [reflexivity|].
      destruct Hj as [Hj | (i' & [<- | Hin] & Hj)].
      * left. now left.
      * left. right. exact Hj.
      * right. exists i'. split; assumption.
Qed.

Lemma word_offsets_cover (x : Z) :
  0 <= x < 128 ->
  exists i, In i word_offsets /\ (Z.to_nat x = Z.to_nat i \/ Z.to_nat x = Z.to_nat (i + 1)).
Proof.
  intros Hx. exists (2 * Z.of_nat (Z.to_nat (x / 2))). split.
  - unfold word_offsets. apply in_map_iff. exists (Z.to_nat (x / 2)).
    split; [reflexivity|]. apply in_seq. change (Z.to_nat (PAGE_SIZE / 2)) with 64%nat.
    euclid x 2. lia.
  - euclid x 2. lia.
Qed.

Lemma word_offsets_range (base i : Z) :
  0 <= base -> base + 128 <= 65536 -> base mod 128 = 0 ->
  In i word_offsets -> 0 <= i < 127 /\ u16 (base + i) mod PAGE_SIZE = i.
Proof.
  intros H0 H1 Hm Hin. unfold word_offsets in Hin.
  apply in_map_iff in Hin as (k & <- & Hk). apply in_seq in Hk.
  change (Z.to_nat (PAGE_SIZE / 2)) with 64%nat in Hk.
  split; [lia|]. unfold u16, PAGE_SIZE.
  rewrite (Z.mod_small (base + 2 * Z.of_nat k) 65536) by lia.
  euclid base 128. euclid (base + 2 * Z.of_nat k) 128. lia.
Qed.

(** Program memory after [write_current_page]: the staged bytes at the
    addresses of the page, the old contents elsewhere. *)
Lemma write_current_page_flash (s : state) :
  flash_ready s ->
  let s' := write_current_page s in
  (forall x, flash s' x =
             if x / PAGE_SIZE =? current_page_address s
             then at_ (page s) (Z.to_nat (x mod PAGE_SIZE))
             else flash s x) /\
  spm_buffer s' = erased_page /\ page s' = page s /\
  current_page_address s' = current_page_address s.
Proof.
  intros (Lp & Bp & Lb & Hc) s'. subst s'.
  change (Z.to_nat PAGE_SIZE) with 128%nat in Lp, Lb.
  unfold write_current_page.
  set (base := u16 (current_page_address s * PAGE_SIZE)).
  assert (Hbase : base = current_page_address s * 128)
    by (subst base; unfold u16, PAGE_SIZE in *; apply Z.mod_small; lia).
  set (s0 := boot_page_erase base s).
  assert (E0 : flash s0 = fun x => if x / PAGE_SIZE =? base / PAGE_SIZE
                                   then 0xff else flash s x) by reflexivity.
  assert (P0 : page s0 = page s) by reflexivity.
  assert (B0 : spm_buffer s0 = spm_buffer s) by reflexivity.
  assert (C0 : current_page_address s0 = current_page_address s) by reflexivity.
  clearbody s0.
  destruct (fill_loop_buffer base word_offsets (fun _ => False) s0) as [F1 A1].
  { rewrite P0. exact Bp. }
  { rewrite B0. exact Lb. }
  { intros i Hi. apply word_offsets_range; [| | |exact Hi];
      unfold PAGE_SIZE in *; try lia.
    rewrite Hbase. apply Z.mod_mul. lia. }
  { intros j []. }
  destruct (fill_loop_calls base word_offsets s0) as [P1 _].
  cbv zeta in F1, A1, P1.
  set (s1 := fold_left _ word_offsets s0) in *.
  assert (C1 : current_page_address s1 = current_page_address s0).
  { subst s1. clear. generalize s0. induction word_offsets as [|i l IH];
      intros t; [reflexivity|]. cbn [fold_left]. rewrite IH. reflexivity. }
  clearbody s1.
  assert (Q : base / PAGE_SIZE = current_page_address s)
    by (rewrite Hbase; apply Z.div_mul; discriminate).
  split; [|split; [reflexivity|split]].
  - intros x. unfold boot_page_write. cbn [flash set_spm]. rewrite Q.
    destruct (x / PAGE_SIZE =? current_page_address s) eqn:Ex.
    + rewrite A1, P0; [reflexivity|]. right.
      apply word_offsets_cover. apply Z.mod_pos_bound. reflexivity.
    + rewrite F1, E0, Q, Ex. reflexivity.
  - unfold boot_page_write. cbn [page set_spm]. now rewrite P1.
  - unfold boot_page_write. cbn [current_page_address set_spm].
    now rewrite C1.
Qed.

(** X8: [write_current_page] programs the page it names with the staged
    bytes: afterwards program memory holds [page] at the addresses of page
    [current_page_address] and is unchanged everywhere else.  The calls are
    one erase, 64 word fills and one write of that page; the SPM temporary
    buffer is clear again, and nothing else in the state has changed. *)
Theorem write_current_page_programs (s : state) :
  flash_ready s ->
  let s' := write_current_page s in
  (forall x, flash s' x =
             if x / PAGE_SIZE =? current_page_address s
             then at_ (page s) (Z.to_nat (x mod PAGE_SIZE))
             else flash s x) /\
  spm_calls s' = spm_calls s ++ page_program (current_page_address s) (page s) /\
  length (page_program (current_page_address s) (page s)) = 66%nat /\
  spm_buffer s' = erased_page /\
  s' = set_spm (flash s') (spm_buffer s') (spm_calls s') s.
Proof.
  intros R s'. subst s'.
  destruct (write_current_page_flash s R) as (F & B & P & C). cbv zeta in F, B, P, C.
  split; [exact F|]. split; [apply write_current_page_calls|].
  split; [unfold page_program; rewrite !length_app, length_map; reflexivity|].
  split; [exact B|].
  pose proof (write_current_page_stages s) as St. unfold stages in St.
  rewrite P, C in St.
  replace (set_current_page_address (current_page_address s) (set_page (page s) s))
    with s in St by (destruct s; reflexivity).
  exact St.
Qed.

Lemma write_current_page_programs_witness :
  let s := set_page (<[5%nat := 0x42]> erased_page) (set_current_page_address 3 fresh) in
  flash (write_current_page s) (3 * 128 + 5) = 0x42 /\
  flash (write_current_page s) (2 * 128 + 5) = flash s (2 * 128 + 5).
Proof.
  intros s.
  assert (R : flash_ready s).
  { repeat split; try (vm_compute; congruence).
    subst s. cbn [page set_page]. apply Forall_insert; [|unfold is_byte; lia].
    apply Forall_replicate. unfold is_byte. lia. }
  destruct (write_current_page_programs s R) as (F & _).
  split; rewrite F; reflexivity.
Defined.

(** ** From the record to program memory *)

Lemma flash_part_fields (s t : state) :
  flash_part t = flash_part s ->
  page t = page s /\ current_page_address t = current_page_address s /\
  flash t = flash s /\ spm_buffer t = spm_buffer s.
Proof. unfold flash_part. intros H. injection H as -> -> -> ->. auto. Qed.

Lemma flash_part_kept (s t : state) :
  flash_part t = flash_part s ->
  (flash_ready s -> flash_ready t) /\
  (forall l a i, record_kept l a i s -> record_kept l a i t).
Proof.
  intros (E1 & E2 & E3 & E4)%flash_part_fields.
  unfold flash_ready, record_kept. rewrite E1, E2, E3, E4. auto.
Qed.

Lemma rec_byte_is_byte (l : list Z) (k : Z) : is_byte (rec_byte l k).
Proof. apply hex_byte_to_dec_range. Qed.

Lemma erased_page_bytes : Forall is_byte erased_page.
Proof. apply Forall_replicate. unfold is_byte. lia. Qed.

Lemma set_page_flash_part (p : list Z) (t : state) :
  flash_part (set_page p t) = (p, current_page_address t, flash t, spm_buffer t).
Proof. reflexivity. Qed.

Lemma with_line_flash_part (str : list Z) (t : state) :
  flash_part (with_line str t) = flash_part t.
Proof. reflexivity. Qed.

Lemma crossed_flash_part (p : list Z) (a : Z) (t : state) :
  flash_part (set_page p (set_current_page_address a (new_page t))) =
  (p, a, flash t, spm_buffer t).
Proof. reflexivity. Qed.

(** One staged byte keeps the record: the byte is in its cell, and a page
    that is left has been written to program memory. *)
Lemma stage_byte_kept (l : list Z) (address i : Z) (s : state) :
  0 <= address < 65536 -> 0 <= i <= 255 ->
  flash_ready s -> record_kept l address i s ->
  (0 < i -> current_page_address s = byte_page address (i - 1)) ->
  let s' := stage_byte address i (rec_byte l i) s in
  flash_ready s' /\ record_kept l address (i + 1) s' /\
  current_page_address s' = byte_page address i.
Proof.
  intros Ha Hi R K Hcur s'. subst s'.
  pose proof R as (Lp & Bp & Lb & Hc).
  change (Z.to_nat PAGE_SIZE) with 128%nat in Lp, Lb.
  pose proof (byte_offset_range address i) as Ho.
  destruct (Z.eq_dec (byte_page address i) (current_page_address s)) as [E | E].
  - rewrite (stage_byte_same _ _ _ _ E).
    set (p' := <[Z.to_nat (byte_offset address i) := rec_byte l i]> (page s)).
    pose proof (set_page_flash_part p' s) as Q.
    set (s' := set_page p' s) in *. clearbody s'.
    unfold flash_part in Q. injection Q as Q1 Q2 Q3 Q4.
    split; [|split].
    + unfold flash_ready. rewrite Q1, Q2, Q4. subst p'.
      rewrite length_insert. repeat split; try assumption; try apply Hc.
      apply Forall_insert; [exact Bp | apply rec_byte_is_byte].
    + intros k Hk. rewrite Q1, Q2, Q3.
      destruct (Z.eq_dec k i) as [-> | Hne].
      * rewrite E, Z.eqb_refl. subst p'. apply at_insert_eq. lia.
      * specialize (K k ltac:(lia)).
        destruct (byte_page address k =? current_page_address s) eqn:Ek;
          [|exact K].
        apply Z.eqb_eq in Ek. subst p'. rewrite at_insert_ne; [exact K|].
        intros N. apply Hne.
        pose proof (byte_offset_range address k).
        apply (offset_injective address); [lia | lia | lia | lia | congruence | lia].
    + rewrite Q2. symmetry. exact E.
  - rewrite (stage_byte_cross _ _ _ _ E).
    destruct (write_current_page_flash s R) as (F & B & _ & _).
    cbv zeta in F, B.
    set (p' := <[Z.to_nat (byte_offset address i) := rec_byte l i]> erased_page).
    pose proof (crossed_flash_part p' (byte_page address i) (write_current_page s))
      as Q.
    generalize dependent (write_current_page s). intros w F B Q.
    set (s' := set_page p' _) in *. clearbody s'.
    unfold flash_part in Q. injection Q as Q1 Q2 Q3 Q4.
    split; [|split].
    + unfold flash_ready. rewrite Q1, Q2, Q4, B. subst p'.
      rewrite length_insert. split; [reflexivity|].
      split; [apply Forall_insert; [apply erased_page_bytes | apply rec_byte_is_byte]|].
      split; [reflexivity|].
      unfold byte_page, u16, PAGE_SIZE.
      euclid (address + i) 65536. euclid ((address + i) mod 65536) 128. lia.
    + intros k Hk. rewrite Q1, Q2, Q3.
      destruct (Z.eq_dec k i) as [-> | Hne].
      * rewrite Z.eqb_refl. subst p'. apply at_insert_eq.
        rewrite length_erased_page. lia.
      * assert (N : byte_page address k <> byte_page address i).
        { intros N. apply E. rewrite Hcur by lia. symmetry.
          apply (page_contiguous address k); [lia | lia | lia | lia | exact N]. }
        apply Z.eqb_neq in N. rewrite N, F.
        specialize (K k ltac:(lia)). unfold byte_page, byte_offset in K.
        destruct (_ =? _); exact K.
    + exact Q2.
Qed.

(** The loop over the data bytes keeps the record. *)
Lemma data_loop_kept (address : Z) (l : list Z) (n : nat) :
  0 <= address < 65536 ->
  forall i c s c1 s1,
  line s = l -> flash_ready s -> 0 <= i -> i + Z.of_nat n <= 256 ->
  record_kept l address i s ->
  (0 < i -> current_page_address s = byte_page address (i - 1)) ->
  data_loop MODE_FLASH address n i c s = Completed c1 s1 ->
  flash_ready s1 /\ record_kept l address (i + Z.of_nat n) s1.
Proof.
  intros Ha. induction n as [|n IH]; intros i c s c1 s1 Hl R Hi Hn K Hcur L.
  - cbn [data_loop] in L. injection L as _ <-. rewrite Z.add_0_r. auto.
  - change (data_loop MODE_FLASH address (S n) i c s)
      with (data_loop MODE_FLASH address n (i + 1) (u8 (c + rec_byte (line s) i))
              (stage_byte address i (rec_byte (line s) i) s)) in L.
    rewrite Hl in L.
    destruct (stage_byte_kept l address i s Ha ltac:(lia) R K Hcur)
      as (R' & K' & C').
    replace (i + Z.of_nat (S n)) with (i + 1 + Z.of_nat n) by lia.
    eapply (IH (i + 1)); [| exact R' | lia | lia | exact K' | | exact L].
    + destruct (stages_fields _ _ (stage_byte_stages address i (rec_byte l i) s))
        as [-> _]. exact Hl.
    + intros _. rewrite C'. f_equal. lia.
Qed.

Lemma flash_hex_line_eof (t : state) :
  rec_type (line t) = 1 -> rec_count (line t) = 0 -> rec_sum (line t) = 0 ->
  flash_hex_line MODE_FLASH t =
  (FLASH_OK, set_last_address 0xffff (set_current_page_address 0
               (new_page (boot_rww_enable_safe (write_current_page t))))).
Proof.
  intros T C S.
  pose proof (flash_hex_line_flash t) as F. cbv zeta in F.
  rewrite T, S in F.
  change (1 =? 0) with false in F. change (1 =? 1) with true in F.
  change (0 =? 0) with true in F. cbv beta iota in F. cbn [negb orb] in F.
  destruct F as (c1 & s1 & L & _ & F).
  rewrite C in L. change (Z.to_nat 0) with 0%nat in L. cbn [data_loop] in L.
  apply (f_equal (fun e => match e with Completed _ u => u | Returned _ u => u end))
    in L.
  rewrite F, <- L. reflexivity.
Qed.

(** ** Checksum failures *)

(** C1, as the code has it: a record that fits the line buffer (at most 26
    data bytes) and whose sum is not zero modulo 256 makes
    [flash_hex_line] return FLASH_ERROR.  The page buffer is then the same
    as before the call in verify mode, for a record without data bytes, and
    for a data record that the address check rejects.  In flash mode the
    data bytes of any other record have been staged when the sum is
    examined: on return every data byte is in its cell of the page buffer,
    or already in program memory if the record has left its page, and the
    last data byte is in the staged page. *)
Theorem bad_checksum_rejected (mode : Z) (s : state) :
  fits_line (line s) -> rec_sum (line s) <> 0 ->
  let l := line s in
  let r := flash_hex_line mode s in
  fst r = FLASH_ERROR /\
  (mode <> MODE_FLASH -> page (snd r) = page s) /\
  (rec_count l = 0 -> page (snd r) = page s) /\
  (rec_type l = 0 ->
   address_accepted (last_address s) (rec_address l) = false ->
   page (snd r) = page s) /\
  (mode = MODE_FLASH -> flash_ready s ->
   negb (rec_type l =? 0)
   || address_accepted (last_address s) (rec_address l) = true ->
   record_kept l (rec_address l) (rec_count l) (snd r) /\
   (0 < rec_count l ->
    current_page_address (snd r) = byte_page (rec_address l) (rec_count l - 1) /\
    at_ (page (snd r)) (Z.to_nat (byte_offset (rec_address l) (rec_count l - 1)))
      = rec_byte l (rec_count l - 1))).
Proof.
  intros _ Hsum l r.
  apply Z.eqb_neq in Hsum. fold l in Hsum.
  destruct (mode =? MODE_FLASH) eqn:Hm.
  - apply Z.eqb_eq in Hm. subst mode.
    pose proof (flash_hex_line_flash s) as F. fold l r in F. cbv zeta in F.
    rewrite Hsum in F.
    destruct (negb (rec_type l =? 0)
              || address_accepted (last_address s) (rec_address l)) eqn:Hacc.
    + destruct F as (c1 & s1 & L & St & E & O).
      split; [exact E|]. split; [congruence|]. split; [|split].
      * intros Hc. rewrite Hc in L. cbn [Z.to_nat data_loop] in L.
        injection L as _ <-.
        now destruct (outputs_fields _ _ O) as (_ & -> & _).
      * intros Ht Ha. rewrite Ht, Ha in Hacc. discriminate Hacc.
      * intros _ R _.
        pose proof (rec_count_range l) as Rc.
        destruct (data_loop_kept (rec_address l) l (Z.to_nat (rec_count l))
                    (rec_address_range l) 0 _ s c1 s1 eq_refl R
                    ltac:(lia) ltac:(lia) ltac:(intros k Hk; lia) ltac:(lia) L)
          as (R1 & K1).
        rewrite Z.add_0_l, Z2Nat.id in K1 by lia.
        destruct (data_loop_staged (rec_address l) 0 l (Z.to_nat (rec_count l))
                    (rec_address_range l) 0 _ s c1 s1 eq_refl (proj1 R)
                    ltac:(lia) ltac:(lia) ltac:(lia) ltac:(intros; lia) L)
          as (_ & Hcur & _).
        rewrite Z.add_0_l, Z2Nat.id in Hcur by lia.
        destruct (outputs_fields _ _ O) as (_ & Ep & Ec & _ & Ef & _).
        assert (K2 : record_kept l (rec_address l) (rec_count l) (snd r)).
        { unfold record_kept in *. rewrite Ep, Ec, Ef. exact K1. }
        clear K1. split; [exact K2|]. intros Hc.
        rewrite Ec. split; [apply Hcur; exact Hc|].
        specialize (K2 (rec_count l - 1) ltac:(lia)).
        rewrite Ec, (Hcur Hc), Z.eqb_refl in K2. exact K2.
    + destruct F as [E O].
      destruct (outputs_fields _ _ O) as (_ & -> & _).
      split; [exact E|]. split; [auto|]. split; [auto|]. split; [auto|].
      intros _ _ Q. discriminate Q.
  - destruct (flash_hex_line_verify mode s Hm) as (o & H).
    fold l r in H. cbv zeta in H. rewrite Hsum in H.
    apply Z.eqb_neq in Hm.
    destruct H as [(E & -> & _) | [(_ & _ & _ & _ & E & _) | (_ & _ & _ & _ & E & _)]].
    + split; [exact E|]. split; [auto|]. split; [auto|]. split; [auto|].
      intros Q. contradiction.
    + apply Z.eqb_neq in Hsum. contradiction.
    + apply Z.eqb_neq in Hsum. contradiction.
Qed.

(** The record [:0100000055AB] has the sum 1.  In flash mode its data byte
    is in the page buffer when FLASH_ERROR is returned; in verify mode
    against a flash that holds 0x55 the data byte matches, so that the sum
    is what fails, and the page buffer stays as it was. *)
Lemma bad_checksum_rejected_witness :
  let s := with_line (chars ":0100000055AB") fresh in
  let r := flash_hex_line MODE_FLASH s in
  let v := set_spm (fun _ => 0x55) (spm_buffer s) (spm_calls s) s in
  let rv := flash_hex_line MODE_VERIFY v in
  (fst r = FLASH_ERROR /\ current_page_address (snd r) = 0 /\
   at_ (page (snd r)) 0 = 0x55) /\
  (verify_ok v 0 0 1 = true /\ fst rv = FLASH_ERROR /\ page (snd rv) = page v).
Proof.
  intros s r v rv.
  assert (Fs : fits_line (line s)) by (vm_compute; reflexivity).
  assert (Sm : rec_sum (line s) <> 0) by (vm_compute; discriminate).
  assert (R : flash_ready s).
  { repeat split; try (vm_compute; congruence). apply erased_page_bytes. }
  assert (A : rec_address (line s) = 0) by (vm_compute; reflexivity).
  assert (C : rec_count (line s) = 1) by (vm_compute; reflexivity).
  assert (B : rec_byte (line s) 0 = 0x55) by (vm_compute; reflexivity).
  split.
  - destruct (bad_checksum_rejected MODE_FLASH s Fs Sm) as (E & _ & _ & _ & K).
    split; [exact E|].
    destruct (K eq_refl R) as (_ & Last); [vm_compute; reflexivity|].
    rewrite A, C in Last. change (1 - 1) with 0 in Last. rewrite B in Last.
    destruct Last as (Hc & Hb); [lia|]. split; [exact Hc | exact Hb].
  - split; [vm_compute; reflexivity|].
    destruct (bad_checksum_rejected MODE_VERIFY v Fs Sm) as (E & V & _).
    split; [exact E|]. apply V. vm_compute. discriminate.
Defined.

(** In flash mode the data byte 0x55 of a record with a wrong checksum is
    in the page buffer when [flash_hex_line] returns FLASH_ERROR. *)
Lemma bad_checksum_stages_data :
  let s := with_line (chars ":0100000055AB") fresh in
  let r := flash_hex_line MODE_FLASH s in
  rec_sum (line s) <> 0 /\ fst r = FLASH_ERROR /\
  at_ (page s) 0 = 0xff /\ at_ (page (snd r)) 0 = 0x55 /\
  page (snd r) <> page s.
Proof.
  vm_compute. repeat split; discriminate.
Qed.

Lemma committed_fields (w : state) :
  let s' := set_last_address 0xffff (set_current_page_address 0
              (new_page (boot_rww_enable_safe w))) in
  flash s' = flash w /\ spm_calls s' = spm_calls w ++ [RwwEnable] /\
  page s' = erased_page /\ current_page_address s' = 0 /\
  last_address s' = 0xffff /\ sent s' = sent w.
Proof. repeat split. Qed.

(** X9: an end-of-file record in flash mode commits the staged page:
    program memory holds the page at its addresses and is unchanged
    elsewhere, the calls are those of one page program followed by the
    RWW enable, nothing is sent, and page buffer, page index and address
    tracking are back at their initial values. *)
Theorem eof_record_commits (t : state) :
  flash_ready t ->
  rec_type (line t) = 1 -> rec_count (line t) = 0 -> rec_sum (line t) = 0 ->
  let r := flash_hex_line MODE_FLASH t in
  fst r = FLASH_OK /\
  (forall x, flash (snd r) x =
             if x / PAGE_SIZE =? current_page_address t
             then at_ (page t) (Z.to_nat (x mod PAGE_SIZE))
             else flash t x) /\
  spm_calls (snd r) =
    spm_calls t ++ page_program (current_page_address t) (page t) ++ [RwwEnable] /\
  page (snd r) = erased_page /\ current_page_address (snd r) = 0 /\
  last_address (snd r) = 0xffff /\ sent (snd r) = sent t.
Proof.
  intros R T C S. cbv zeta. rewrite (flash_hex_line_eof t T C S).
  destruct (write_current_page_flash t R) as (Fl & _). cbv zeta in Fl.
  pose proof (write_current_page_calls t) as Cl.
  assert (Se : sent (write_current_page t) = sent t)
    by (apply (stages_fields _ _ (write_current_page_stages t))).
  generalize dependent (write_current_page t). intros w Fl Cl Se.
  destruct (committed_fields w) as (E1 & E2 & E3 & E4 & E5 & E6).
  cbv zeta in E1, E2, E3, E4, E5, E6.
  unfold fst, snd. rewrite E1, E2, E3, E4, E5, E6, Cl, Se, <- app_assoc.
  split; [reflexivity|]. split; [exact Fl|]. repeat split.
Qed.

Lemma eof_record_commits_witness :
  let t := with_line eof_record
             (set_page (<[5%nat := 0x42]> erased_page) fresh) in
  let r := flash_hex_line MODE_FLASH t in
  fst r = FLASH_OK /\ flash (snd r) 5 = 0x42 /\ page (snd r) = erased_page.
Proof.
  intros t r.
  assert (R : flash_ready t).
  { repeat split; try (vm_compute; congruence).
    subst t. apply Forall_insert; [apply erased_page_bytes | unfold is_byte; lia]. }
  destruct (eof_record_commits t R) as (A & F & _ & P & _);
    [reflexivity | reflexivity | reflexivity |].
  split; [exact A|]. split; [|exact P]. fold r. rewrite F. reflexivity.
Defined.

(** X10: the bytes of an accepted record reach program memory.  After a
    record that fits the line buffer (at most 26 data bytes) and has a
    valid checksum has been taken in flash mode and an end-of-file record
    has followed, every data byte of the record is in program memory at
    its address; and a data record at address 0 then passes
    verification. *)
Theorem flashed_record_is_in_flash (s t : state) :
  let l := line s in
  let r1 := flash_hex_line MODE_FLASH s in
  let r2 := flash_hex_line MODE_FLASH t in
  flash_ready s -> fits_line l ->
  rec_sum l = 0 -> rec_type l <> 1 ->
  negb (rec_type l =? 0) || address_accepted (last_address s) (rec_address l) = true ->
  flash_part t = flash_part (snd r1) ->
  rec_type (line t) = 1 -> rec_count (line t) = 0 -> rec_sum (line t) = 0 ->
  fst r1 = FLASH_GOING_ON /\ fst r2 = FLASH_OK /\
  (forall k, 0 <= k < rec_count l ->
             flash (snd r2) (u16 (rec_address l + k)) = rec_byte l k) /\
  (forall v, line v = l -> flash v = flash (snd r2) -> last_address v = 0xffff ->
             rec_type l = 0 -> rec_address l = 0 ->
             fst (flash_hex_line MODE_VERIFY v) = FLASH_GOING_ON).
Proof.
  intros l r1 r2 R _ S1 T1 A1 Ht T2 C2 S2.
  pose proof (flash_hex_line_flash s) as F. cbv zeta in F. fold l r1 in F.
  rewrite A1 in F. destruct F as (c1 & s1 & L & _ & F).
  apply Z.eqb_eq in S1. apply Z.eqb_neq in T1. rewrite S1, T1 in F.
  apply Z.eqb_eq in S1.
  destruct F as (G1 & o & E1).
  pose proof (rec_count_range l) as Rc.
  destruct (data_loop_kept (rec_address l) l (Z.to_nat (rec_count l))
              (rec_address_range l) 0 _ s c1 s1 eq_refl R
              ltac:(lia) ltac:(lia) ltac:(intros k Hk; lia) ltac:(lia) L)
    as (R1 & K1).
  rewrite Z.add_0_l, Z2Nat.id in K1 by lia.
  assert (P1 : flash_part (snd r1) = flash_part s1) by (rewrite E1; reflexivity).
  rewrite P1 in Ht. clear P1 E1.
  destruct (flash_part_kept s1 t Ht) as (Rt & Kt).
  specialize (Rt R1). specialize (Kt l (rec_address l) (rec_count l) K1).
  assert (G2 : fst r2 = FLASH_OK)
    by (subst r2; rewrite (flash_hex_line_eof t T2 C2 S2); reflexivity).
  assert (Fl : forall x, flash (snd r2) x =
                 if x / PAGE_SIZE =? current_page_address t
                 then at_ (page t) (Z.to_nat (x mod PAGE_SIZE))
                 else flash t x).
  { subst r2. rewrite (flash_hex_line_eof t T2 C2 S2).
    destruct (write_current_page_flash t Rt) as (Fl & _). cbv zeta in Fl.
    generalize dependent (write_current_page t). intros w Fl.
    destruct (committed_fields w) as (E1 & _). cbv zeta in E1.
    unfold snd. rewrite E1. exact Fl. }
  assert (In_flash : forall k, 0 <= k < rec_count l ->
            flash (snd r2) (u16 (rec_address l + k)) = rec_byte l k).
  { intros k Hk. rewrite Fl. specialize (Kt k Hk).
    unfold byte_page, byte_offset in Kt.
    destruct (u16 (rec_address l + k) / PAGE_SIZE =? current_page_address t);
      exact Kt. }
  split; [exact G1|]. split; [exact G2|]. split; [exact In_flash|].
  intros v Lv Fv Av T0 A0.
  assert (Hm : (MODE_VERIFY =? MODE_FLASH) = false) by reflexivity.
  destruct (flash_hex_line_verify MODE_VERIFY v Hm) as (o' & H).
  cbv zeta in H. rewrite Lv, Av, T0, A0 in H.
  change (negb (0 =? 0) || address_accepted 65535 0) with true in H.
  assert (V : verify_ok v 0 0 (Z.to_nat (rec_count l)) = true).
  { unfold verify_ok. apply forallb_forall. intros k Hk.
    apply list_elem_of_In, elem_of_seqZ in Hk.
    apply Z.eqb_eq. unfold pgm_read_byte. rewrite Fv, Lv.
    rewrite <- A0. apply In_flash. lia. }
  rewrite V, S1 in H. cbn [andb Z.eqb] in H.
  destruct H as [(_ & _ & H) | [(_ & _ & _ & _ & _ & H) | (H & _)]];
    [discriminate | congruence | exact H].
Qed.

Lemma flashed_record_is_in_flash_witness :
  let s := set_last_address 0x70
             (with_line (hex_record 0x7e 0 [0x0c; 0x94; 0x34; 0x00]) fresh) in
  let s1 := snd (flash_hex_line MODE_FLASH s) in
  let s2 := snd (flash_hex_line MODE_FLASH (with_line eof_record s1)) in
  flash s2 0x7e = 0x0c /\ flash s2 0x7f = 0x94 /\
  flash s2 0x80 = 0x34 /\ flash s2 0x81 = 0x00.
Proof.
  intros s s1 s2.
  assert (R : flash_ready s).
  { repeat split; try (vm_compute; congruence). apply erased_page_bytes. }
  assert (A : rec_address (line s) = 0x7e) by (vm_compute; reflexivity).
  assert (C : rec_count (line s) = 4) by (vm_compute; reflexivity).
  assert (B : rec_byte (line s) 0 = 0x0c /\ rec_byte (line s) 1 = 0x94 /\
              rec_byte (line s) 2 = 0x34 /\ rec_byte (line s) 3 = 0x00)
    by (vm_compute; repeat split; reflexivity).
  destruct B as (B0 & B1 & B2 & B3).
  destruct (flashed_record_is_in_flash s (with_line eof_record s1) R)
    as (_ & _ & F & _).
  - vm_compute. reflexivity.
  - vm_compute. reflexivity.
  - vm_compute. discriminate.
  - vm_compute. reflexivity.
  - apply with_line_flash_part.
  - rewrite (proj1 (with_line_fields _ _)). vm_compute. reflexivity.
  - rewrite (proj1 (with_line_fields _ _)). vm_compute. reflexivity.
  - rewrite (proj1 (with_line_fields _ _)). vm_compute. reflexivity.
  - fold s1 s2 in F. rewrite A, C in F.
    pose proof (F 0 ltac:(lia)) as F0. pose proof (F 1 ltac:(lia)) as F1.
    pose proof (F 2 ltac:(lia)) as F2. pose proof (F 3 ltac:(lia)) as F3.
    rewrite B0 in F0. rewrite B1 in F1. rewrite B2 in F2. rewrite B3 in F3.
    split; [exact F0|]. split; [exact F1|]. split; [exact F2 | exact F3].
Defined.

(** ** Printed numbers *)

Lemma set_sent_twice (o o' : list Z) (s : state) :
  set_sent o (set_sent o' s) = set_sent o s.
Proof. reflexivity. Qed.

Lemma uart_send_byte_after (c : Z) (o : list Z) (s : state) :
  uart_send_byte c (set_sent (sent s ++ o) s) = set_sent (sent s ++ o ++ [u8 c]) s.
Proof.
  unfold uart_send_byte. cbn [sent set_sent]. rewrite set_sent_twice, <- app_assoc.
  reflexivity.
Qed.

Lemma dec_value_snoc (o : list Z) (c : Z) :
  dec_value (o ++ [c]) = dec_value o * 10 + (c - chr "0").
Proof. unfold dec_value. rewrite fold_left_app. reflexivity. Qed.

(** One level of recursion per digit: the digits of [x], most significant
    first. *)
Lemma uart_send_int_rec_digits (d : nat) :
  forall x s, 0 <= x < 10 ^ Z.of_nat (S d) ->
  exists o, uart_send_int_rec (S d) x s = set_sent (sent s ++ o) s /\
            Forall is_digit o /\ dec_value o = x /\
            (1 <= length o <= S d)%nat /\ (0 < x -> at_ o 0 <> chr "0").
Proof.
  pose proof chr_values as (C0 & C9 & _).
  induction d as [|d IH]; intros x s Hx; cbn [uart_send_int_rec].
  - change (10 ^ Z.of_nat 1) with 10 in Hx.
    destruct (x <? 10) eqn:E; [|apply Z.ltb_ge in E; lia].
    exists [x + chr "0"]. unfold uart_send_byte.
    rewrite C0. unfold u8. rewrite Z.mod_small by lia.
    split; [reflexivity|]. split.
    { repeat constructor; unfold is_digit; lia. }
    split; [unfold dec_value; cbn [fold_left]; lia|].
    split; [cbn; lia|]. cbn. lia.
  - destruct (x <? 10) eqn:E.
    + apply Z.ltb_lt in E. exists [x + chr "0"]. unfold uart_send_byte.
      rewrite C0. unfold u8. rewrite Z.mod_small by lia.
      split; [reflexivity|]. split.
      { repeat constructor; unfold is_digit; lia. }
      split; [unfold dec_value; cbn [fold_left]; lia|].
      split; [cbn; lia|]. cbn. lia.
    + apply Z.ltb_ge in E.
      rewrite Nat2Z.inj_succ, Z.pow_succ_r in Hx by lia.
      assert (Hq : 0 <= x / 10 < 10 ^ Z.of_nat (S d)).
      { split; [apply Z.div_pos; lia|]. apply Z.div_lt_upper_bound; lia. }
      destruct (IH (x / 10) s Hq) as (o & Eo & Fo & Vo & Lo & Zo).
      change (uart_send_int_rec (S d) (x / 10) s) with
        (if x / 10 <? 10 then uart_send_byte (x / 10 + chr "0") s
         else uart_send_byte (x / 10 mod 10 + chr "0")
                (uart_send_int_rec d (x / 10 / 10) s)) in Eo.
      rewrite Eo, uart_send_byte_after.
      euclid x 10.
      assert (U : u8 (x mod 10 + chr "0") = x mod 10 + chr "0")
        by (rewrite C0; apply Z.mod_small; lia).
      rewrite U. exists (o ++ [x mod 10 + chr "0"]).
      split; [reflexivity|]. split.
      { apply Forall_app. split; [exact Fo|].
        repeat constructor; unfold is_digit; lia. }
      split; [rewrite dec_value_snoc, Vo; lia|].
      split; [rewrite length_app; cbn [length]; lia|].
      intros _. destruct o as [|c o]; [cbn in Lo; lia|]. cbn. cbn in Zo.
      apply Zo. lia.
Qed.

(** X11: [uart_send_int] sends the decimal digits of its argument taken
    as a [uint16_t]: one to five digits, most significant first, whose
    value is the argument modulo 65536, and without a leading zero: the
    first digit is 0 only when the single digit 0 is sent, for the value
    0. *)
Theorem uart_send_int_decimal (x : Z) (s : state) :
  exists o, uart_send_int x s = set_sent (sent s ++ o) s /\
            Forall is_digit o /\ dec_value o = u16 x /\
            (1 <= length o <= 5)%nat /\
            (at_ o 0 = chr "0" -> o = [chr "0"] /\ u16 x = 0).
Proof.
  unfold uart_send_int.
  assert (Hx : 0 <= u16 x < 10 ^ Z.of_nat 5).
  { unfold u16. change (10 ^ Z.of_nat 5) with 100000.
    euclid x 65536. lia. }
  destruct (Z.eq_dec (u16 x) 0) as [E0 | N0].
  - rewrite E0. exists [chr "0"].
    split; [reflexivity|]. split.
    { repeat constructor; unfold is_digit; chr_norm; lia. }
    split; [reflexivity|]. split; [cbn; lia|].
    intros _. split; reflexivity.
  - destruct (uart_send_int_rec_digits 4 (u16 x) s Hx) as (o & E & F & V & L & Z0).
    exists o. split; [exact E|]. split; [exact F|]. split; [exact V|].
    split; [lia|]. intros H. exfalso. apply Z0; [lia | exact H].
Qed.

Lemma byte_hex_digits (b : Z) :
  0 <= b < 256 ->
  Forall is_hex_digit (byte_hex_chars b) /\ Forall is_byte (byte_hex_chars b).
Proof.
  intros Hb.
  assert (B : all_below 256 (fun b =>
            forallb (fun c => is_hex_digitb c && (0 <=? c) && (c <? 256))
                    (byte_hex_chars b)) = true) by (vm_compute; reflexivity).
  pose proof (all_below_spec _ _ B b Hb) as H. cbv beta in H.
  rewrite forallb_forall in H.
  split; apply List.Forall_forall; intros c Hc; specialize (H c Hc);
    apply andb_true_iff in H as [[H1 H2]%andb_true_iff H3].
  - unfold is_hex_digitb in H1. unfold is_hex_digit. lia.
  - unfold is_byte. lia.
Qed.

Lemma map_u8_bytes (l : list Z) : Forall is_byte l -> map u8 l = l.
Proof.
  induction 1 as [|c l Hc _ IH]; [reflexivity|]. cbn [map].
  rewrite IH. f_equal. apply Z.mod_small. exact Hc.
Qed.

(** The two characters [uart_send_byte_hex] sends. *)
Lemma uart_send_byte_hex_eq (x : Z) (s : state) :
  uart_send_byte_hex x s = set_sent (sent s ++ byte_hex_chars (u8 x)) s.
Proof.
  change (uart_send_byte_hex x s) with (uart_send_string (byte_hex_chars (u8 x)) s).
  rewrite uart_send_string_eq, map_u8_bytes; [reflexivity|].
  apply byte_hex_digits. apply Z.mod_pos_bound. lia.
Qed.

(** The four characters [uart_send_int_hex] sends. *)
Lemma uart_send_int_hex_eq (x : Z) (s : state) :
  uart_send_int_hex x s = set_sent (sent s ++ word_hex_chars (u16 x)) s.
Proof.
  change (uart_send_int_hex x s) with (uart_send_string (word_hex_chars (u16 x)) s).
  assert (Hw : 0 <= u16 x < 65536) by (apply Z.mod_pos_bound; lia).
  rewrite uart_send_string_eq, map_u8_bytes; [reflexivity|].
  rewrite (word_hex_chars_split _ Hw). apply Forall_app.
  split; apply byte_hex_digits; [Z.div_mod_to_equations; lia|].
  apply Z.mod_pos_bound. lia.
Qed.

(** X12: what [uart_send_byte_hex] and [uart_send_int_hex] send are
    upper-case hexadecimal digits, two for a byte and four for a word, and
    [hex_byte_to_dec] and [hex_word_to_dec] read the argument back from
    them (modulo 256 and 65536). *)
Theorem hex_output_decodes (x : Z) (s : state) :
  (exists o, uart_send_byte_hex x s = set_sent (sent s ++ o) s /\
             length o = 2%nat /\ Forall is_hex_digit o /\
             hex_byte_to_dec o = u8 x) /\
  (exists o, uart_send_int_hex x s = set_sent (sent s ++ o) s /\
             length o = 4%nat /\ Forall is_hex_digit o /\
             hex_word_to_dec o = u16 x).
Proof.
  assert (Hb : 0 <= u8 x < 256) by (apply Z.mod_pos_bound; lia).
  assert (Hw : 0 <= u16 x < 65536) by (apply Z.mod_pos_bound; lia).
  assert (Hhi : 0 <= u16 x / 256 < 256) by (Z.div_mod_to_equations; lia).
  assert (Hlo : 0 <= u16 x mod 256 < 256) by (apply Z.mod_pos_bound; lia).
  split.
  - exists (byte_hex_chars (u8 x)).
    split; [apply uart_send_byte_hex_eq|]. split; [reflexivity|].
    split; [apply byte_hex_digits; exact Hb | apply byte_round_trip; exact Hb].
  - exists (word_hex_chars (u16 x)).
    split; [apply uart_send_int_hex_eq|]. split; [reflexivity|].
    rewrite (word_hex_chars_split _ Hw). split.
    + apply Forall_app. split; apply byte_hex_digits; assumption.
    + destruct (byte_round_trip _ Hhi) as [H1 _].
      destruct (byte_round_trip _ Hlo) as [L1 _].
      unfold hex_word_to_dec.
      replace (hex_byte_to_dec (byte_hex_chars (u16 x / 256) ++
                                byte_hex_chars (u16 x mod 256)))
        with (hex_byte_to_dec (byte_hex_chars (u16 x / 256))) by reflexivity.
      replace (drop 2 (byte_hex_chars (u16 x / 256) ++
                       byte_hex_chars (u16 x mod 256)))
        with (byte_hex_chars (u16 x mod 256)) by reflexivity.
      rewrite H1, L1. unfold u16 at 1.
      rewrite Z.mod_small; Z.div_mod_to_equations; lia.
Qed.

(** ** The dump is an Intel-HEX image of program memory *)

Lemma seqZ_one (x : Z) : seqZ x 1 = [x].
Proof. rewrite seqZ_cons by lia. rewrite seqZ_nil by lia. reflexivity. Qed.

Lemma seqZ_snoc (m : Z) (n : Z) :
  0 <= n -> seqZ m (n + 1) = seqZ m n ++ [m + n].
Proof. intros H. rewrite seqZ_app by lia. now rewrite seqZ_one. Qed.

Lemma Zsum_app (a b : list Z) : Zsum (a ++ b) = Zsum a + Zsum b.
Proof.
  unfold Zsum. induction a as [|x a IH]; cbn [app foldr]; [reflexivity|].
  rewrite IH. lia.
Qed.

Lemma Zsum_one (x : Z) : Zsum [x] = x.
Proof. unfold Zsum. cbn [foldr]. lia. Qed.

(** One iteration of the loop of [dump_flash]. *)
Lemma dump_flash_step_eq (c a : Z) (o : list Z) (t : state) :
  dump_flash_step (c, set_sent (sent t ++ o) t) a =
  (dump_step_sum (flash t) c a,
   set_sent (sent t ++ o ++ dump_step_out (flash t) c a) t).
Proof.
  unfold dump_flash_step, dump_step_out, dump_step_sum.
  destruct (a mod 16 =? 0); destruct (a mod 16 =? 15);
    rewrite ?uart_send_string_eq, ?uart_send_int_hex_eq, ?uart_send_byte_hex_eq;
    unfold pgm_read_byte; cbn [sent set_sent flash];
    rewrite ?uart_send_byte_hex_eq; cbn [sent set_sent flash];
    rewrite ?set_sent_twice;
    change (map u8 (crlf ++ chars ":10")) with (crlf ++ chars ":10");
    rewrite <- ?app_assoc; rewrite ?app_nil_r; reflexivity.
Qed.

Lemma row_address (k j : Z) :
  0 <= j < 16 -> (16 * k + j) mod 16 = j.
Proof.
  intros H. rewrite Z.add_comm, Z.mul_comm, Z.mod_add by lia.
  apply Z.mod_small. exact H.
Qed.

Lemma u8_sub_step (x b : Z) : u8 (u8 x - b) = u8 (x - b).
Proof. unfold u8. apply Zminus_mod_idemp_l. Qed.

(** The first [n] bytes of a row. *)
Lemma dump_row_prefix (mem : Z -> Z) (k : Z) (n : nat) :
  (forall x, is_byte (mem x)) -> 0 <= k -> 16 * k + 15 < 65536 ->
  (n < 15)%nat ->
  forall c o t, flash t = mem ->
  fold_left dump_flash_step (seqZ (16 * k) (Z.of_nat (S n)))
    (c, set_sent (sent t ++ o) t) =
  (u8 (- 0x10 - (16 * k) / 256 - (16 * k) mod 256
       - Zsum (map mem (seqZ (16 * k) (Z.of_nat (S n))))),
   set_sent (sent t ++ o ++ crlf ++ chars ":10" ++ word_hex_chars (16 * k) ++
             byte_hex_chars 0 ++
             flat_map byte_hex_chars (map mem (seqZ (16 * k) (Z.of_nat (S n))))) t).
Proof.
  intros Hb Hk Hmax. induction n as [|n IH]; intros Hn c o t Hf.
  - change (Z.of_nat 1) with 1. rewrite seqZ_one. cbn [fold_left map flat_map].
    rewrite dump_flash_step_eq, Hf. unfold dump_step_out, dump_step_sum.
    assert (M0 : (16 * k) mod 16 = 0)
      by (rewrite Z.mul_comm; apply Z.mod_mul; lia).
    rewrite !M0.
    change (0 =? 0) with true. change (0 =? 15) with false. cbv iota.
    change (u8 0) with 0.
    assert (U16 : u16 (16 * k) = 16 * k) by (apply Z.mod_small; lia).
    assert (U8 : u8 (mem (16 * k)) = mem (16 * k)) by (apply Z.mod_small, Hb).
    rewrite U16, U8, Z.shiftr_div_pow2 by lia.
    change 0xff with (Z.ones 8). rewrite Z.land_ones by lia.
    change (2 ^ 8) with 256. rewrite u8_sub_step.
    unfold Zsum. cbn [foldr]. rewrite Z.add_0_r, !app_nil_r.
    rewrite <- !app_assoc. reflexivity.
  - rewrite Nat2Z.inj_succ, <- Z.add_1_r, seqZ_snoc by lia.
    rewrite fold_left_app, IH by (lia || assumption).
    cbn [fold_left].
    replace (sent t ++ o ++ crlf ++ chars ":10" ++ word_hex_chars (16 * k) ++
             byte_hex_chars 0 ++
             flat_map byte_hex_chars (map mem (seqZ (16 * k) (Z.of_nat (S n)))))
      with (sent t ++ (o ++ crlf ++ chars ":10" ++ word_hex_chars (16 * k) ++
             byte_hex_chars 0 ++
             flat_map byte_hex_chars (map mem (seqZ (16 * k) (Z.of_nat (S n))))))
      by reflexivity.
    rewrite dump_flash_step_eq, Hf. unfold dump_step_out, dump_step_sum.
    rewrite !(row_address k (Z.of_nat (S n))) by lia.
    assert (Q0 : (Z.of_nat (S n) =? 0) = false) by (apply Z.eqb_neq; lia).
    assert (Q15 : (Z.of_nat (S n) =? 15) = false) by (apply Z.eqb_neq; lia).
    rewrite Q0, Q15.
    assert (U8 : u8 (mem (16 * k + Z.of_nat (S n))) = mem (16 * k + Z.of_nat (S n)))
      by (apply Z.mod_small, Hb).
    rewrite U8, u8_sub_step, map_app, flat_map_app, Zsum_app.
    cbn [map flat_map]. rewrite Zsum_one, !app_nil_r, <- !app_assoc.
    f_equal. f_equal. lia.
Qed.

(** One row of the dump is a data record of sixteen bytes. *)
Lemma dump_row_eq (mem : Z -> Z) (k : Z) :
  (forall x, is_byte (mem x)) -> 0 <= k -> 16 * k + 15 < 65536 ->
  forall c o t, flash t = mem ->
  exists c',
    fold_left dump_flash_step (seqZ (16 * k) 16) (c, set_sent (sent t ++ o) t) =
    (c', set_sent (sent t ++ o ++ dump_row mem k) t).
Proof.
  intros Hb Hk Hmax c o t Hf.
  assert (S16 : seqZ (16 * k) 16 = seqZ (16 * k) 15 ++ [16 * k + 15])
    by exact (seqZ_snoc (16 * k) 15 ltac:(lia)).
  unfold dump_row. rewrite S16.
  rewrite fold_left_app, (dump_row_prefix mem k 14 Hb Hk Hmax) by (lia || assumption).
  cbn [fold_left].
  change (Z.of_nat 15) with 15.
  set (data := map mem (seqZ (16 * k) 15)).
  replace (sent t ++ o ++ crlf ++ chars ":10" ++ word_hex_chars (16 * k) ++
           byte_hex_chars 0 ++ flat_map byte_hex_chars data)
    with (sent t ++ (o ++ crlf ++ chars ":10" ++ word_hex_chars (16 * k) ++
           byte_hex_chars 0 ++ flat_map byte_hex_chars data))
    by reflexivity.
  rewrite dump_flash_step_eq, Hf. eexists. f_equal. f_equal. f_equal.
  rewrite <- !app_assoc. f_equal.
  unfold dump_step_out, dump_step_sum. rewrite !(row_address k 15) by lia.
  change (15 =? 0) with false. change (15 =? 15) with true. cbv iota.
  unfold hex_record.
  rewrite map_app, flat_map_app, length_app, Zsum_app. cbn [map flat_map length].
  fold data.
  assert (Ld : length data = 15%nat).
  { subst data. rewrite length_map, length_seqZ. reflexivity. }
  rewrite Ld. change (Z.of_nat (15 + 1)) with 16.
  assert (U8 : u8 (mem (16 * k + 15)) = mem (16 * k + 15))
    by (apply Z.mod_small, Hb).
  rewrite U8, !u8_sub_step, !app_nil_r, Zsum_one.
  assert (U : forall x, u8 (u8 x) = u8 x)
    by (intros x; unfold u8; apply Z.mod_mod; lia).
  rewrite U.
  change (chars ":10") with (chr ":" :: byte_hex_chars 16).
  cbn [app]. rewrite <- !app_assoc. cbn [app].
  repeat f_equal. lia.
Qed.

(** The rows of the dump, row after row. *)
Lemma dump_rows_eq (mem : Z -> Z) (n : nat) :
  (forall x, is_byte (mem x)) -> 16 * Z.of_nat n <= 65536 ->
  forall c t, flash t = mem ->
  exists c',
    fold_left dump_flash_step (seqZ 0 (16 * Z.of_nat n)) (c, t) =
    (c', set_sent (sent t ++ flat_map (dump_row mem) (seqZ 0 (Z.of_nat n))) t).
Proof.
  intros Hb. induction n as [|n IH]; intros Hn c t Hf.
  - exists c. cbn [Z.of_nat Z.mul seqZ]. change (seqZ 0 0) with (@nil Z).
    cbn [fold_left flat_map]. now rewrite set_sent_id.
  - destruct (IH ltac:(lia) c t Hf) as (c1 & E1).
    replace (16 * Z.of_nat (S n)) with (16 * Z.of_nat n + 16) by lia.
    rewrite seqZ_app, fold_left_app, E1 by lia.
    rewrite Z.add_0_l.
    destruct (dump_row_eq mem (Z.of_nat n) Hb ltac:(lia) ltac:(lia) c1
                (flat_map (dump_row mem) (seqZ 0 (Z.of_nat n))) t Hf)
      as (c2 & E2).
    exists c2. rewrite E2.
    rewrite Nat2Z.inj_succ, <- Z.add_1_r, seqZ_snoc, flat_map_app by lia.
    cbn [flat_map]. rewrite app_nil_r, Z.add_0_l. reflexivity.
Qed.

(** X13: [dump_flash] prints program memory as an Intel-HEX image: 2048
    data records of sixteen bytes each, in address order, every one with
    the byte count, address, type and checksum of the record format, and
    the end-of-file record last.  Nothing but the output changes. *)
Theorem dump_flash_image (s : state) :
  (forall x, is_byte (flash s x)) ->
  dump_flash s =
  set_sent (sent s ++ flat_map (dump_row (flash s)) (seqZ 0 2048) ++
            crlf ++ eof_record ++ crlf) s.
Proof.
  intros Hb. unfold dump_flash.
  destruct (dump_rows_eq (flash s) 2048 Hb ltac:(lia) 0 s eq_refl) as (c & E).
  change (16 * Z.of_nat 2048) with FLASH_SIZE in E.
  change (Z.of_nat 2048) with 2048 in E.
  rewrite E. cbn [snd]. rewrite uart_send_string_eq. cbn [sent set_sent].
  rewrite set_sent_twice, <- app_assoc.
  assert (T : map u8 (crlf ++ chars ":00000001FF" ++ crlf) =
              crlf ++ eof_record ++ crlf) by (vm_compute; reflexivity).
  rewrite T. reflexivity.
Qed.

Lemma dump_flash_image_witness :
  exists o, dump_flash fresh = set_sent (sent fresh ++ o) fresh /\
            take 47 o = crlf ++ chars ":10000000" ++
                        flat_map (fun _ => chars "FF") (seq 0 16) ++ chars "00" ++ crlf.
Proof.
  eexists. split.
  - apply dump_flash_image. intros x. cbn. unfold is_byte. lia.
  - change 2048 with (Z.of_nat 2 + 2046).
    rewrite seqZ_app by lia. rewrite flat_map_app, <- app_assoc.
    vm_compute (flat_map _ (seqZ 0 (Z.of_nat 2))). reflexivity.
Defined.

(** ** Records that are printed can be read back *)

Lemma hex_byte_to_dec_head (x : Z) (r : list Z) :
  0 <= x < 256 -> hex_byte_to_dec (byte_hex_chars x ++ r) = x.
Proof.
  intros Hx.
  change (hex_byte_to_dec (byte_hex_chars x ++ r))
    with (hex_byte_to_dec (byte_hex_chars x)).
  now apply byte_round_trip.
Qed.

Lemma hex_word_to_dec_head (w : Z) (r : list Z) :
  0 <= w < 65536 -> hex_word_to_dec (word_hex_chars w ++ r) = w.
Proof.
  intros Hw.
  change (hex_word_to_dec (word_hex_chars w ++ r))
    with (hex_word_to_dec (word_hex_chars w)).
  assert (Hhi : 0 <= w / 256 < 256) by (Z.div_mod_to_equations; lia).
  assert (Hlo : 0 <= w mod 256 < 256) by (apply Z.mod_pos_bound; lia).
  rewrite (word_hex_chars_split w Hw). unfold hex_word_to_dec.
  rewrite hex_byte_to_dec_head by exact Hhi.
  replace (drop 2 (byte_hex_chars (w / 256) ++ byte_hex_chars (w mod 256)))
    with (byte_hex_chars (w mod 256) ++ []) by (now rewrite app_nil_r).
  rewrite hex_byte_to_dec_head by exact Hlo.
  unfold u16. rewrite Z.mod_small; Z.div_mod_to_equations; lia.
Qed.

(** The hex digits of the [i]-th byte start at position [2 * i]. *)
Lemma drop_hex_digits (data : list Z) :
  forall (i : nat) (r : list Z), (i <= length data)%nat ->
  drop (2 * i) (flat_map byte_hex_chars data ++ r) =
  flat_map byte_hex_chars (drop i data) ++ r.
Proof.
  induction data as [|d data IH]; intros i r Hi.
  - cbn in Hi. replace i with 0%nat by lia. reflexivity.
  - destruct i as [|i]; [reflexivity|]. cbn [length] in Hi.
    replace (2 * S i)%nat with (S (S (2 * i))) by lia.
    cbn [flat_map]. change (drop (S i) (d :: data)) with (drop i data).
    rewrite <- IH by lia. reflexivity.
Qed.

Lemma Zsum_map_seqZ (f : Z -> Z) (data : list Z) :
  forall i0,
  (forall j, (j < length data)%nat -> f (i0 + Z.of_nat j) = nth j data 0) ->
  Zsum (map f (seqZ i0 (Z.of_nat (length data)))) = Zsum data.
Proof.
  induction data as [|d data IH]; intros i0 H; [reflexivity|].
  cbn [length]. rewrite seqZ_S. cbn [map]. unfold Zsum. cbn [foldr].
  fold (Zsum (map f (seqZ (i0 + 1) (Z.of_nat (length data))))). fold (Zsum data).
  rewrite IH.
  - f_equal. specialize (H 0%nat ltac:(cbn; lia)). rewrite Z.add_0_r in H.
    exact H.
  - intros j Hj. specialize (H (S j) ltac:(cbn; lia)). cbn [nth] in H.
    rewrite <- H. f_equal. lia.
Qed.

(** The fields [flash_hex_line] reads from a record that [hex_record]
    wrote are the ones it was written from, and its checksum is valid. *)
Lemma hex_record_fields (a ty : Z) (data rest : list Z) :
  0 <= a < 65536 -> 0 <= ty < 256 -> Forall is_byte data ->
  (length data < 256)%nat ->
  let l := hex_record a ty data ++ rest in
  rec_count l = Z.of_nat (length data) /\ rec_address l = a /\ rec_type l = ty /\
  (forall i, (i < length data)%nat -> rec_byte l (Z.of_nat i) = nth i data 0) /\
  rec_sum l = 0.
Proof.
  intros Ha Ht Hd Hn l.
  set (count := Z.of_nat (length data)).
  set (sum := count + a mod 256 + a / 256 + ty + Zsum data).
  assert (Hc : 0 <= count < 256) by (subst count; lia).
  assert (El : l = chr ":" :: byte_hex_chars count ++ word_hex_chars a ++
                   byte_hex_chars ty ++ flat_map byte_hex_chars data ++
                   byte_hex_chars (u8 (- sum)) ++ rest).
  { subst l. unfold hex_record. fold count. fold sum. cbn [app].
    rewrite <- !app_assoc. reflexivity. }
  assert (D9 : drop 9 l = flat_map byte_hex_chars data ++
                          byte_hex_chars (u8 (- sum)) ++ rest)
    by (rewrite El; reflexivity).
  assert (C : rec_count l = count).
  { unfold rec_count. rewrite El.
    change (drop 1 (chr ":" :: ?x)) with x.
    apply hex_byte_to_dec_head. exact Hc. }
  assert (A : rec_address l = a).
  { unfold rec_address. rewrite El.
    change (drop 3 (chr ":" :: byte_hex_chars count ++ ?x)) with x.
    apply hex_word_to_dec_head. exact Ha. }
  assert (T : rec_type l = ty).
  { unfold rec_type. rewrite El.
    change (drop 7 (chr ":" :: byte_hex_chars count ++ word_hex_chars a ++ ?x))
      with x.
    apply hex_byte_to_dec_head. exact Ht. }
  assert (B : forall i, (i <= length data)%nat ->
            drop (Z.to_nat (9 + Z.of_nat i * 2)) l =
            flat_map byte_hex_chars (drop i data) ++
            byte_hex_chars (u8 (- sum)) ++ rest).
  { intros i Hi.
    replace (Z.to_nat (9 + Z.of_nat i * 2)) with (9 + 2 * i)%nat by lia.
    rewrite <- drop_drop, D9. apply drop_hex_digits. exact Hi. }
  assert (Bi : forall i, (i < length data)%nat ->
            rec_byte l (Z.of_nat i) = nth i data 0).
  { intros i Hi. unfold rec_byte. rewrite B by lia.
    destruct (drop i data) as [|d rest'] eqn:Ed.
    - apply (f_equal length) in Ed. rewrite length_drop in Ed. cbn in Ed. lia.
    - cbn [flat_map]. rewrite <- app_assoc.
      assert (Hnth : nth i data 0 = d).
      { rewrite <- (take_drop i data) at 1. rewrite Ed.
        rewrite app_nth2 by (rewrite length_take; lia).
        rewrite length_take. replace (i - i `min` length data)%nat with 0%nat by lia.
        reflexivity. }
      rewrite Hnth. apply hex_byte_to_dec_head.
      assert (Hin : In d data).
      { rewrite <- (take_drop i data), Ed. apply in_or_app. right. now left. }
      exact (proj1 (List.Forall_forall _ _) Hd _ Hin). }
  split; [exact C|]. split; [exact A|]. split; [exact T|]. split; [exact Bi|].
  unfold rec_sum. rewrite C, A, T.
  assert (Bc : rec_byte l count = u8 (- sum)).
  { unfold rec_byte. subst count. rewrite B by lia.
    rewrite drop_all. cbn [flat_map app].
    apply hex_byte_to_dec_head. apply Z.mod_pos_bound. lia. }
  rewrite Bc. subst count.
  rewrite (Zsum_map_seqZ (rec_byte l) data 0)
    by (intros j Hj; rewrite Z.add_0_l; now apply Bi).
  fold sum. unfold u8. rewrite Zplus_mod_idemp_r.
  replace (sum + - sum) with 0 by lia. reflexivity.
Qed.

(** X14: what [dump_flash] prints, verify mode accepts: a row of the
    dump, read as a hex line against the same program memory in address
    order, verifies without a mismatch and moves the address tracking to
    the end of the row; and the last line of the dump ends the pass with
    FLASH_OK. *)
Theorem dumped_row_verifies (s v : state) (k : Z) (rest : list Z) :
  (forall x, is_byte (flash s x)) -> 0 <= k < 2048 -> flash v = flash s ->
  (line v = hex_record (16 * k) 0 (map (flash s) (seqZ (16 * k) 16)) ++ rest ->
   last_address v = (if k =? 0 then 0xffff else 16 * k - 1) ->
   fst (flash_hex_line MODE_VERIFY v) = FLASH_GOING_ON /\
   last_address (snd (flash_hex_line MODE_VERIFY v)) = 16 * k + 15) /\
  (line v = eof_record ++ rest ->
   fst (flash_hex_line MODE_VERIFY v) = FLASH_OK).
Proof.
  intros Hb Hk Hf.
  assert (Hm : (MODE_VERIFY =? MODE_FLASH) = false) by reflexivity.
  destruct (flash_hex_line_verify MODE_VERIFY v Hm) as (o & H). cbv zeta in H.
  split.
  - intros Hl Hlast.
    set (data := map (flash s) (seqZ (16 * k) 16)) in *.
    assert (Ld : length data = 16%nat)
      by (subst data; rewrite length_map, length_seqZ; reflexivity).
    assert (Fd : Forall is_byte data).
    { subst data. apply List.Forall_forall. intros x (y & <- & _)%in_map_iff.
      apply Hb. }
    destruct (hex_record_fields (16 * k) 0 data rest ltac:(lia) ltac:(lia) Fd
                ltac:(lia)) as (C & A & T & B & S).
    cbv zeta in C, A, T, B, S. rewrite <- Hl, Ld in *.
    change (Z.of_nat 16) with 16 in C.
    assert (Acc : negb (rec_type (line v) =? 0)
                  || address_accepted (last_address v) (rec_address (line v)) = true).
    { rewrite T, A, Hlast. unfold address_accepted. cbn [Z.eqb negb orb].
      destruct (k =? 0) eqn:Ek.
      - apply Z.eqb_eq in Ek. subst k. reflexivity.
      - apply Z.eqb_neq in Ek.
        assert (Q : (16 * k - 1 =? 65535) = false) by (apply Z.eqb_neq; lia).
        rewrite Q. apply negb_true_iff, Z.ltb_ge. lia. }
    assert (V : verify_ok v (rec_address (line v)) 0
                  (Z.to_nat (rec_count (line v))) = true).
    { rewrite A, C. unfold verify_ok. apply forallb_forall. intros j Hj.
      apply list_elem_of_In, elem_of_seqZ in Hj.
      change (Z.of_nat (Z.to_nat 16)) with 16 in Hj.
      apply Z.eqb_eq. unfold pgm_read_byte. rewrite Hf.
      replace j with (Z.of_nat (Z.to_nat j)) at 2 by lia.
      rewrite B by lia. subst data.
      rewrite nth_lookup, list_lookup_fmap, lookup_seqZ_lt by lia.
      unfold u16. rewrite Z.mod_small, Z2Nat.id by lia. reflexivity. }
    rewrite Acc, V, S, T, A, C in H. cbn [andb Z.eqb] in H.
    destruct H as [(_ & _ & H) | [(_ & _ & _ & _ & _ & H) | (H & E & _)]];
      [discriminate | discriminate |].
    split; [exact H|]. rewrite E. cbn [last_address set_last_address].
    unfold u16. rewrite Z.mod_small by lia. lia.
  - intros Hl.
    destruct (hex_record_fields 0 1 [] rest ltac:(lia) ltac:(lia)
                (List.Forall_nil _) ltac:(cbn; lia)) as (C & A & T & _ & S).
    cbv zeta in C, A, T, S. fold eof_record in C, A, T, S.
    rewrite <- Hl in *. rewrite T, S in H.
    cbn [Z.eqb negb orb andb length Z.of_nat] in H.
    rewrite C in H. cbn [Z.of_nat length Z.to_nat] in H.
    change (verify_ok v (rec_address (line v)) 0 0) with true in H.
    destruct H as [(_ & _ & H) | [(H & _) | (_ & _ & _ & _ & _ & H)]];
      [discriminate | exact H | congruence].
Qed.

Lemma dumped_row_verifies_witness :
  let row := hex_record 16 0 (map (flash fresh) (seqZ 16 16)) in
  fst (flash_hex_line MODE_VERIFY (set_last_address 15 (with_line row fresh)))
    = FLASH_GOING_ON.
Proof.
  intros row.
  destruct (dumped_row_verifies fresh (set_last_address 15 (with_line row fresh))
              1 (replicate 21 0)) as [R _].
  - intros x. cbn. unfold is_byte. lia.
  - lia.
  - reflexivity.
  - apply R; [vm_compute; reflexivity | reflexivity].
Defined.

(** ** The transmit ring *)

Lemma tx_ring_read_length (buf : list Z) (n : nat) :
  forall start, length (Tx.ring_read buf start n) = n.
Proof.
  induction n as [|n IH]; intros start; cbn [Tx.ring_read length];
    [reflexivity | now rewrite IH].
Qed.

Lemma tx_ring_read_store (buf : list Z) (head v : Z) (n : nat) :
  0 <= head < 32 -> (Z.to_nat head < length buf)%nat ->
  forall start,
  0 <= start < 32 -> (Z.of_nat n < 32) ->
  (start + Z.of_nat n) mod 32 = head ->
  Tx.ring_read (<[Z.to_nat head := v]> buf) start (S n) =
  Tx.ring_read buf start n ++ [v].
Proof.
  intros Hh Hlen. induction n as [|n IH]; intros start Hs Hn Hmod.
  - cbn [Tx.ring_read app]. change (Z.of_nat 0) with 0 in Hmod.
    rewrite Z.add_0_r, Z.mod_small in Hmod by lia. subst start.
    now rewrite at_insert_eq.
  - change (Tx.ring_read ?b start (S ?k))
      with (at_ b (Z.to_nat start)
            :: Tx.ring_read b ((start + 1) mod Tx.TX_BUFFER_LEN) k).
    unfold Tx.TX_BUFFER_LEN. cbn [app]. f_equal.
    + apply at_insert_ne. intros Q. apply Z2Nat.inj in Q; [|lia|lia].
      subst head. euclid (start + Z.of_nat (S n)) 32. lia.
    + apply IH.
      * apply Z.mod_pos_bound. lia.
      * lia.
      * rewrite Z.add_mod_idemp_l by lia. rewrite <- Hmod. f_equal. lia.
Qed.

Lemma tx_count_range (t : Tx.tx) : 0 <= Tx.count t < 32.
Proof. apply Z.mod_pos_bound. reflexivity. Qed.

Lemma tx_pending_length (t : Tx.tx) :
  Z.of_nat (length (Tx.pending t)) = Tx.count t.
Proof.
  unfold Tx.pending. rewrite tx_ring_read_length.
  apply Z2Nat.id, tx_count_range.
Qed.

(** With room in the ring, [uart_send_byte] appends its byte to the
    pending ones and enables the interrupt. *)
Lemma tx_enqueue (c : Z) (t : Tx.tx) :
  Tx.wf t -> Tx.room t = true ->
  Tx.wf (Tx.enqueue c t) /\ Tx.UDRIE0 (Tx.enqueue c t) = true /\
  Tx.UDR0 (Tx.enqueue c t) = Tx.UDR0 t /\
  Tx.pending (Tx.enqueue c t) = Tx.pending t ++ [u8 c].
Proof.
  unfold Tx.wf, Tx.room, Tx.TX_BUFFER_LEN, u16.
  intros (Hlen & Hh & Ht & Hu) Hr.
  euclid (Tx.tx_head t + 1) 32.
  rewrite (Z.mod_small ((Tx.tx_head t + 1) mod 32)) in Hr by lia.
  apply negb_true_iff, Z.eqb_neq in Hr.
  unfold Tx.enqueue, Tx.pending, Tx.count, Tx.TX_BUFFER_LEN, u16.
  cbn [Tx.tx_buffer Tx.tx_head Tx.tx_tail Tx.UDRIE0 Tx.UDR0].
  rewrite (Z.mod_small ((Tx.tx_head t + 1) mod 32)) by lia.
  rewrite length_insert.
  split; [repeat split; try lia; exact Hlen|].
  split; [reflexivity|]. split; [reflexivity|].
  euclid (Tx.tx_head t - Tx.tx_tail t) 32.
  euclid ((Tx.tx_head t + 1) mod 32 - Tx.tx_tail t) 32.
  assert (Q : ((Tx.tx_head t + 1) mod 32 - Tx.tx_tail t) mod 32
              = (Tx.tx_head t - Tx.tx_tail t) mod 32 + 1) by lia.
  rewrite Q, Z2Nat.inj_add by lia. change (Z.to_nat 1) with 1%nat.
  rewrite Nat.add_1_r.
  apply tx_ring_read_store; [lia | lia | lia | lia |].
  rewrite Z2Nat.id by lia. rewrite Z.add_mod_idemp_r by lia.
  replace (Tx.tx_tail t + (Tx.tx_head t - Tx.tx_tail t)) with (Tx.tx_head t) by lia.
  apply Z.mod_small. lia.
Qed.

(** The interrupt moves the oldest pending byte to the data register; on
    an empty ring it disables itself. *)
Lemma tx_interrupt (t : Tx.tx) :
  Tx.wf t ->
  Tx.wf (Tx.ISR_USART_UDRE t) /\
  Tx.UDR0 (Tx.ISR_USART_UDRE t) ++ Tx.pending (Tx.ISR_USART_UDRE t) =
    Tx.UDR0 t ++ Tx.pending t /\
  Tx.count (Tx.ISR_USART_UDRE t) = Z.max 0 (Tx.count t - 1) /\
  Tx.tx_head (Tx.ISR_USART_UDRE t) = Tx.tx_head t.
Proof.
  unfold Tx.wf, Tx.TX_BUFFER_LEN. intros (Hlen & Hh & Ht & Hu).
  unfold Tx.ISR_USART_UDRE, Tx.TX_BUFFER_LEN, u16.
  euclid (Tx.tx_tail t + 1) 32.
  rewrite (Z.mod_small ((Tx.tx_tail t + 1) mod 32)) by lia.
  destruct (Tx.tx_head t =? Tx.tx_tail t) eqn:E.
  - apply Z.eqb_eq in E.
    unfold Tx.pending, Tx.count, Tx.TX_BUFFER_LEN.
    cbn [Tx.tx_buffer Tx.tx_head Tx.tx_tail Tx.UDRIE0 Tx.UDR0].
    rewrite E, Z.sub_diag. cbn. repeat split; try lia; try congruence.
  - apply Z.eqb_neq in E.
    unfold Tx.pending, Tx.count, Tx.TX_BUFFER_LEN.
    cbn [Tx.tx_buffer Tx.tx_head Tx.tx_tail Tx.UDRIE0 Tx.UDR0].
    euclid (Tx.tx_head t - Tx.tx_tail t) 32.
    euclid (Tx.tx_head t - (Tx.tx_tail t + 1) mod 32) 32.
    assert (Q : (Tx.tx_head t - Tx.tx_tail t) mod 32
                = (Tx.tx_head t - (Tx.tx_tail t + 1) mod 32) mod 32 + 1) by lia.
    split; [repeat split; try lia; try exact Hlen; intros _; now apply Hu|].
    split; [|split; [lia | reflexivity]].
    rewrite Q, Z2Nat.inj_add by lia. change (Z.to_nat 1) with 1%nat.
    rewrite Nat.add_1_r. cbn [Tx.ring_read]. unfold Tx.TX_BUFFER_LEN.
    rewrite <- app_assoc. reflexivity.
Qed.

Lemma tx_room_count (t : Tx.tx) :
  Tx.wf t -> Tx.room t = negb (Tx.count t =? 31).
Proof.
  unfold Tx.wf, Tx.room, Tx.count, Tx.TX_BUFFER_LEN, u16.
  intros (_ & Hh & Ht & _).
  euclid (Tx.tx_head t + 1) 32. euclid (Tx.tx_head t - Tx.tx_tail t) 32.
  rewrite (Z.mod_small ((Tx.tx_head t + 1) mod 32)) by lia.
  f_equal.
  destruct (Tx.tx_tail t =? (Tx.tx_head t + 1) mod 32) eqn:E1;
    destruct ((Tx.tx_head t - Tx.tx_tail t) mod 32 =? 31) eqn:E2;
    try reflexivity;
    [apply Z.eqb_eq in E1; apply Z.eqb_neq in E2
    | apply Z.eqb_neq in E1; apply Z.eqb_eq in E2]; lia.
Qed.

(** One step of the main flow keeps the ring well formed and the byte
    stream in order. *)
Lemma tx_main_step (f : Tx.flow) (t : Tx.tx) :
  Tx.wf t ->
  let r := Tx.main_step f t in
  Tx.wf (snd r) /\ Tx.asleep (fst r) (snd r) /\
  Tx.UDR0 (snd r) ++ Tx.pending (snd r) ++ Tx.held (fst r) =
    Tx.UDR0 t ++ Tx.pending t ++ Tx.held f.
Proof.
  intros W r. subst r. destruct f as [|c|]; cbn [Tx.main_step].
  - cbn [fst snd Tx.asleep]. auto.
  - destruct (Tx.room t) eqn:R; cbn [fst snd Tx.asleep Tx.held].
    + destruct (tx_enqueue c t W R) as (W' & _ & U & P).
      rewrite U, P, app_nil_r. auto.
    + auto.
  - destruct (Tx.tx_tail t =? Tx.tx_head t) eqn:E; cbn [fst snd Tx.asleep].
    + auto.
    + apply Z.eqb_neq in E. auto.
Qed.

(** X15: the transmit ring loses and reorders nothing.  Along every
    schedule of calls and interrupts, the bytes written to the data
    register, followed by those still in the ring and the one a sleeping
    [uart_send_byte] holds, are the bytes given to [uart_send_byte] in the
    order of the calls; and the interrupt stays enabled while the ring
    holds a byte. *)
Theorem tx_ring_is_fifo (evs : list Tx.event) :
  forall f t f' t',
  Tx.wf t -> Tx.run evs f t = Some (f', t') ->
  Tx.wf t' /\
  Tx.UDR0 t' ++ Tx.pending t' ++ Tx.held f' =
    Tx.UDR0 t ++ Tx.pending t ++ Tx.held f ++ Tx.sends evs.
Proof.
  induction evs as [|e evs IH]; intros f t f' t' W R.
  - cbn [Tx.run] in R. injection R as <- <-.
    cbn [Tx.sends flat_map]. rewrite app_nil_r. auto.
  - destruct e as [|c|]; cbn [Tx.run] in R.
    + destruct (Tx.UDRIE0 t); [|discriminate].
      destruct (tx_interrupt t W) as (W1 & S1 & _).
      destruct (tx_main_step f _ W1) as (W2 & _ & S2). cbv zeta in W2, S2.
      destruct (Tx.main_step f (Tx.ISR_USART_UDRE t)) as [f2 t2].
      cbn [fst snd] in W2, S2.
      destruct (IH _ _ _ _ W2 R) as (W3 & S3).
      split; [exact W3|]. rewrite S3.
      change (Tx.sends (Tx.UDRE :: evs)) with (Tx.sends evs).
      transitivity ((Tx.UDR0 t2 ++ Tx.pending t2 ++ Tx.held f2) ++ Tx.sends evs);
        [now rewrite <- !app_assoc|].
      rewrite S2.
      transitivity (((Tx.UDR0 (Tx.ISR_USART_UDRE t) ++
                      Tx.pending (Tx.ISR_USART_UDRE t)) ++ Tx.held f) ++
                    Tx.sends evs); [now rewrite <- !app_assoc|].
      rewrite S1. now rewrite <- !app_assoc.
    + destruct f; try discriminate.
      destruct (tx_main_step (Tx.Sending c) t W) as (W2 & _ & S2).
      cbv zeta in W2, S2.
      destruct (Tx.main_step (Tx.Sending c) t) as [f2 t2].
      cbn [fst snd] in W2, S2.
      destruct (IH _ _ _ _ W2 R) as (W3 & S3).
      split; [exact W3|]. rewrite S3.
      transitivity ((Tx.UDR0 t2 ++ Tx.pending t2 ++ Tx.held f2) ++ Tx.sends evs);
        [now rewrite <- !app_assoc|].
      rewrite S2. cbn [Tx.sends flat_map Tx.held app].
      now rewrite <- !app_assoc.
    + destruct f; try discriminate.
      destruct (tx_main_step Tx.Flushing t W) as (W2 & _ & S2).
      cbv zeta in W2, S2.
      destruct (Tx.main_step Tx.Flushing t) as [f2 t2].
      cbn [fst snd] in W2, S2.
      destruct (IH _ _ _ _ W2 R) as (W3 & S3).
      split; [exact W3|]. rewrite S3.
      transitivity ((Tx.UDR0 t2 ++ Tx.pending t2 ++ Tx.held f2) ++ Tx.sends evs);
        [now rewrite <- !app_assoc|].
      rewrite S2. cbn [Tx.sends flat_map Tx.held app].
      now rewrite <- !app_assoc.
Qed.

Lemma tx_ring_is_fifo_witness :
  exists t', Tx.run (map Tx.SEND (chars "OK") ++ [Tx.UDRE; Tx.SEND 33; Tx.UDRE])
               Tx.Running Tx.empty = Some (Tx.Running, t') /\
             Tx.UDR0 t' ++ Tx.pending t' = chars "OK!".
Proof.
  eexists. split; [reflexivity|].
  assert (W : Tx.wf Tx.empty) by (repeat split; cbn; lia || congruence).
  destruct (tx_ring_is_fifo
              (map Tx.SEND (chars "OK") ++ [Tx.UDRE; Tx.SEND 33; Tx.UDRE])
              Tx.Running Tx.empty _ _ W eq_refl) as (_ & S).
  cbn [Tx.held] in S. rewrite app_nil_r in S. exact S.
Defined.

(** X16: [uart_send_byte] cannot sleep for ever.  When it finds the ring
    full, the data-register-empty interrupt is enabled; the interrupt
    sends the oldest byte, and the call that waited then stores its byte
    and returns.  With room in the ring the call returns at once. *)
Theorem tx_send_completes (c : Z) (t : Tx.tx) :
  Tx.wf t ->
  (Tx.room t = true ->
   Tx.run [Tx.SEND c] Tx.Running t = Some (Tx.Running, Tx.enqueue c t)) /\
  (Tx.room t = false ->
   Tx.UDRIE0 t = true /\ Tx.count t = 31 /\
   Tx.run [Tx.SEND c] Tx.Running t = Some (Tx.Sending c, t) /\
   Tx.run [Tx.SEND c; Tx.UDRE] Tx.Running t =
     Some (Tx.Running, Tx.enqueue c (Tx.ISR_USART_UDRE t))).
Proof.
  intros W. split; intros R; cbn [Tx.run Tx.main_step]; rewrite R.
  - reflexivity.
  - pose proof (tx_room_count t W) as Rc. rewrite R in Rc.
    symmetry in Rc. apply negb_false_iff, Z.eqb_eq in Rc.
    assert (U : Tx.UDRIE0 t = true).
    { destruct W as (_ & Hh & Ht & Hu). apply Hu. intros Q.
      unfold Tx.count in Rc. rewrite Q, Z.sub_diag in Rc. discriminate. }
    split; [exact U|]. split; [exact Rc|]. split; [reflexivity|].
    destruct (tx_interrupt t W) as (W1 & _ & C1 & _).
    pose proof (tx_room_count _ W1) as R1. rewrite C1, Rc in R1.
    cbn in R1. cbn [Tx.run Tx.main_step]. rewrite U.
    cbn [Tx.run Tx.main_step]. rewrite R1. reflexivity.
Qed.

Lemma tx_send_completes_witness :
  let full := Tx.mkTx (replicate 32 (chr "x")) 31 0 true [] in
  Tx.run [Tx.SEND (chr "y"); Tx.UDRE] Tx.Running full =
    Some (Tx.Running, Tx.enqueue (chr "y") (Tx.ISR_USART_UDRE full)).
Proof.
  intros full.
  assert (W : Tx.wf full) by (repeat split; cbn; lia || congruence).
  destruct (tx_send_completes (chr "y") full W) as [_ F].
  apply F. reflexivity.
Defined.

(** One interrupt on a ring that holds a byte: the oldest byte goes to the
    data register and the others stay. *)
Lemma tx_interrupt_pops (t : Tx.tx) :
  Tx.wf t -> 0 < Tx.count t ->
  Tx.UDRIE0 t = true /\
  Tx.UDR0 (Tx.ISR_USART_UDRE t) = Tx.UDR0 t ++ take 1 (Tx.pending t) /\
  Tx.pending (Tx.ISR_USART_UDRE t) = drop 1 (Tx.pending t) /\
  Tx.count (Tx.ISR_USART_UDRE t) = Tx.count t - 1.
Proof.
  intros W C.
  assert (U : Tx.UDRIE0 t = true).
  { destruct W as (_ & Hh & Ht & Hu). apply Hu. intros Q.
    unfold Tx.count in C. rewrite Q, Z.sub_diag in C. discriminate. }
  destruct (tx_interrupt t W) as (W1 & S1 & C1 & _).
  assert (C2 : Tx.count (Tx.ISR_USART_UDRE t) = Tx.count t - 1) by lia.
  split; [exact U|].
  pose proof (tx_pending_length t) as L.
  pose proof (tx_pending_length (Tx.ISR_USART_UDRE t)) as L1.
  rewrite <- (take_drop 1 (Tx.pending t)), app_assoc in S1.
  apply app_inj_2 in S1.
  - destruct S1 as [S1 S2]. split; [exact S1|]. split; [exact S2 | exact C2].
  - rewrite length_drop. lia.
Qed.

(** [uart_flush] asleep on a ring that holds bytes: after [k] interrupts
    the first [k] bytes have been sent, and the call has returned if that
    was all of them and sleeps on if not. *)
Lemma tx_drain (k : nat) :
  forall t, Tx.wf t -> 0 < Tx.count t -> Z.of_nat k <= Tx.count t ->
  exists t',
    Tx.run (replicate k Tx.UDRE) Tx.Flushing t =
      Some (if Z.of_nat k =? Tx.count t then Tx.Running else Tx.Flushing, t') /\
    Tx.wf t' /\ Tx.count t' = Tx.count t - Z.of_nat k /\
    Tx.UDR0 t' = Tx.UDR0 t ++ take k (Tx.pending t) /\
    Tx.pending t' = drop k (Tx.pending t).
Proof.
  induction k as [|k IH]; intros t W C K.
  - exists t. cbn [replicate Tx.run]. change (Z.of_nat 0) with 0.
    assert (E : (0 =? Tx.count t) = false) by (apply Z.eqb_neq; lia).
    rewrite E, take_0, drop_0, app_nil_r.
    split; [reflexivity|]. split; [exact W|]. split; [lia|]. split; reflexivity.
  - change (replicate (S k) Tx.UDRE) with (Tx.UDRE :: replicate k Tx.UDRE).
    cbn [Tx.run].
    destruct (tx_interrupt_pops t W C) as (U & S1 & P1 & C1).
    destruct (tx_interrupt t W) as (W1 & _).
    rewrite U. cbn [Tx.main_step].
    set (t1 := Tx.ISR_USART_UDRE t) in *.
    destruct (Tx.tx_tail t1 =? Tx.tx_head t1) eqn:E.
    + apply Z.eqb_eq in E.
      assert (C0 : Tx.count t1 = 0)
        by (unfold Tx.count; rewrite E, Z.sub_diag; reflexivity).
      assert (K0 : k = 0%nat) by lia. subst k.
      cbn [replicate Tx.run].
      assert (E1 : (Z.of_nat 1 =? Tx.count t) = true) by (apply Z.eqb_eq; lia).
      rewrite E1. exists t1.
      split; [reflexivity|]. split; [exact W1|]. split; [lia|].
      split; [exact S1 | exact P1].
    + apply Z.eqb_neq in E.
      assert (C0 : 0 < Tx.count t1).
      { pose proof (tx_count_range t1) as R.
        destruct (Z.eq_dec (Tx.count t1) 0) as [Q | Q]; [|lia].
        exfalso. apply E. destruct W1 as (_ & Hh & Ht & _).
        unfold Tx.count in Q. unfold Tx.TX_BUFFER_LEN in Q, Hh, Ht.
        euclid (Tx.tx_head t1 - Tx.tx_tail t1) 32. lia. }
      destruct (IH t1 W1 C0 ltac:(lia)) as (t' & R & W' & C' & S' & P').
      exists t'.
      assert (Eq : (Z.of_nat (S k) =? Tx.count t) = (Z.of_nat k =? Tx.count t1)).
      { rewrite C1. destruct (Z.of_nat k =? Tx.count t - 1) eqn:Q.
        - apply Z.eqb_eq in Q. apply Z.eqb_eq. lia.
        - apply Z.eqb_neq in Q. apply Z.eqb_neq. lia. }
      rewrite Eq. split; [exact R|]. split; [exact W'|]. split; [lia|].
      rewrite S', P', S1, P1, <- app_assoc, drop_drop.
      split; [|reflexivity]. f_equal.
      destruct (Tx.pending t) as [|x P]; [|reflexivity].
      cbn [take drop app]. now rewrite take_nil.
Qed.

(** X17: [uart_flush] returns exactly when the ring is empty.  On an
    empty ring it returns at once.  On a ring that holds [n] bytes it
    sleeps: after [k <= n] interrupts the first [k] pending bytes have been
    written to the data register, in order, and the others are still in
    the ring; the call is still asleep while [k < n] and has returned when
    [k = n]. *)
Theorem uart_flush_drains (t : Tx.tx) (k : nat) :
  Tx.wf t -> (k <= length (Tx.pending t))%nat ->
  exists t',
    Tx.run (Tx.FLUSH :: replicate k Tx.UDRE) Tx.Running t =
      Some (if Nat.eqb k (length (Tx.pending t)) then Tx.Running else Tx.Flushing,
            t') /\
    Tx.UDR0 t' = Tx.UDR0 t ++ take k (Tx.pending t) /\
    Tx.pending t' = drop k (Tx.pending t).
Proof.
  intros W K. pose proof (tx_pending_length t) as L.
  pose proof (tx_count_range t) as Rc.
  destruct (length (Tx.pending t)) as [|n] eqn:En.
  - assert (E : Tx.tx_tail t = Tx.tx_head t).
    { destruct W as (_ & Hh & Ht & _). unfold Tx.count, Tx.TX_BUFFER_LEN in *.
      euclid (Tx.tx_head t - Tx.tx_tail t) 32. lia. }
    assert (K0 : k = 0%nat) by lia. subst k.
    cbn [replicate Tx.run Tx.main_step Nat.eqb]. rewrite E, Z.eqb_refl.
    exists t. split; [reflexivity|].
    rewrite take_0, drop_0, app_nil_r. split; reflexivity.
  - assert (E : (Tx.tx_tail t =? Tx.tx_head t) = false).
    { apply Z.eqb_neq. intros Q. unfold Tx.count in L.
      rewrite Q, Z.sub_diag in L. discriminate. }
    cbn [Tx.run Tx.main_step]. rewrite E.
    destruct (tx_drain k t W ltac:(lia) ltac:(lia)) as (t' & R & _ & _ & S' & P').
    exists t'.
    assert (Eq : Nat.eqb k (S n) = (Z.of_nat k =? Tx.count t)).
    { destruct (Nat.eqb k (S n)) eqn:Q.
      - apply Nat.eqb_eq in Q. symmetry. apply Z.eqb_eq. lia.
      - apply Nat.eqb_neq in Q. symmetry. apply Z.eqb_neq. lia. }
    rewrite Eq. split; [exact R|]. split; [exact S' | exact P'].
Qed.

Lemma uart_flush_drains_witness :
  let t := Tx.enqueue (chr "b") (Tx.enqueue (chr "a") Tx.empty) in
  (exists t', Tx.run [Tx.FLUSH; Tx.UDRE] Tx.Running t = Some (Tx.Flushing, t') /\
              Tx.UDR0 t' = chars "a" /\ Tx.pending t' = chars "b") /\
  (exists t', Tx.run [Tx.FLUSH; Tx.UDRE; Tx.UDRE] Tx.Running t =
                Some (Tx.Running, t') /\
              Tx.UDR0 t' = chars "ab" /\ Tx.pending t' = []).
Proof.
  intros t.
  assert (W : Tx.wf t)
    by (repeat split; vm_compute; first [congruence | intros _; reflexivity]).
  assert (L : (2 <= length (Tx.pending t))%nat) by (vm_compute; repeat constructor).
  split.
  - destruct (uart_flush_drains t 1 W) as (t' & R & S & P).
    + vm_compute. repeat constructor.
    + exists t'. split; [exact R|]. split; [exact S | exact P].
  - destruct (uart_flush_drains t 2 W) as (t' & R & S & P).
    + exact L.
    + exists t'. split; [exact R|]. split; [exact S | exact P].
Defined.

(** ** The breathing LED *)

(** X18: the LED breathes in the lower half of the brightness range.
    After [n] milliseconds from reset ([n] below 2^32) the clock is [n],
    the ramp counter has advanced once every 8 ms and wraps after 240, and
    the compare value B, which sets the on-time of the LED, follows it up
    to 119 and back down from 120: it is never above half of OCR0A. *)
Theorem led_breathes (n : nat) :
  Z.of_nat n < 2 ^ 32 ->
  let t := Led.ticks n Led.reset in
  let b := (Z.of_nat n / 8) mod 241 in
  Led.clock t = Z.of_nat n /\ Led.breathing_led t = b /\
  Led.OCR0B t = (if b <? 120 then b else 240 - b) /\
  0 <= Led.OCR0B t <= 120.
Proof.
  induction n as [|n IH]; intros Hn.
  - cbn. repeat split; lia.
  - cbv zeta in IH |- *. destruct (IH ltac:(lia)) as (C & B & O & R).
    cbn [Led.ticks]. set (t := Led.ticks n Led.reset) in *. clearbody t.
    unfold Led.ISR_TIMER0_COMPA, Led.OCR0A. rewrite C, B.
    assert (U32 : u32 (Z.of_nat n + 1) = Z.of_nat (S n))
      by (unfold u32; rewrite Z.mod_small; lia).
    rewrite U32.
    euclid (Z.of_nat n) 8. euclid (Z.of_nat (S n)) 8.
    euclid (Z.of_nat n / 8) 241. euclid (Z.of_nat (S n) / 8) 241.
    assert (U16 : u16 ((Z.of_nat n / 8) mod 241 + 1) = (Z.of_nat n / 8) mod 241 + 1)
      by (unfold u16; rewrite Z.mod_small; lia).
    rewrite U16. change (240 / 2) with 120.
    destruct (Z.of_nat (S n) mod 8 =? 0) eqn:E8.
    + apply Z.eqb_eq in E8.
      assert (Q : Z.of_nat (S n) / 8 = Z.of_nat n / 8 + 1) by lia.
      destruct (240 <? (Z.of_nat n / 8) mod 241 + 1) eqn:E240.
      * apply Z.ltb_lt in E240.
        assert (B0 : (Z.of_nat (S n) / 8) mod 241 = 0) by lia.
        cbn [Led.clock Led.breathing_led Led.OCR0B]. rewrite B0.
        change (0 <? 120) with true. cbv iota. change (u8 0) with 0.
        repeat split; lia.
      * apply Z.ltb_ge in E240.
        assert (B1 : (Z.of_nat (S n) / 8) mod 241 = (Z.of_nat n / 8) mod 241 + 1)
          by lia.
        cbn [Led.clock Led.breathing_led Led.OCR0B]. rewrite B1.
        split; [reflexivity|]. split; [reflexivity|].
        destruct ((Z.of_nat n / 8) mod 241 + 1 <? 120) eqn:E120;
          [apply Z.ltb_lt in E120 | apply Z.ltb_ge in E120];
          unfold u8; rewrite Z.mod_small by lia; split; lia.
    + apply Z.eqb_neq in E8.
      assert (Q : Z.of_nat (S n) / 8 = Z.of_nat n / 8) by lia.
      cbn [Led.clock Led.breathing_led Led.OCR0B]. rewrite Q.
      split; [reflexivity|]. split; [reflexivity|]. split; [exact O | exact R].
Qed.

Lemma led_breathes_witness :
  Led.OCR0B (Led.ticks 1000 Led.reset) = 115 /\
  Led.breathing_led (Led.ticks 1000 Led.reset) = 125.
Proof.
  destruct (led_breathes 1000) as (_ & B & O & _); [reflexivity|].
  split; [exact O | exact B].
Defined.

(** ** Commands *)

Lemma dump_fold_outputs (l : list Z) :
  forall c o t, exists c' o',
  fold_left dump_flash_step l (c, set_sent (sent t ++ o) t) =
  (c', set_sent (sent t ++ o') t).
Proof.
  induction l as [|a l IH]; intros c o t; cbn [fold_left].
  - now exists c, o.
  - rewrite dump_flash_step_eq. apply IH.
Qed.

(** [dump_flash] only sends. *)
Lemma dump_flash_sends (s : state) :
  exists o, dump_flash s = set_sent (sent s ++ o) s.
Proof.
  unfold dump_flash.
  destruct (dump_fold_outputs (seqZ 0 FLASH_SIZE) 0 [] s) as (c & o & E).
  rewrite set_sent_id in E. rewrite E. cbn [snd].
  rewrite uart_send_string_eq. cbn [sent set_sent]. rewrite set_sent_twice.
  eexists. rewrite <- app_assoc. reflexivity.
Qed.

Lemma prompt_after (o : list Z) (s : state) :
  prompt (set_sent (sent s ++ o) s) = set_sent (sent s ++ o ++ chars ">: ") s.
Proof.
  unfold prompt. rewrite uart_send_string_eq. cbn [sent set_sent].
  rewrite set_sent_twice, <- app_assoc. reflexivity.
Qed.

Lemma reboot_to_app_eq (s : state) :
  reboot_to_app s =
  Halt SPIN_UNTIL_RESET
    (set_wdt true (set_sig BOOTAPP_SIG_1 BOOTAPP_SIG_2
       (set_sent (sent s ++ map u8 (chars "Have a nice day!" ++ crlf ++ crlf)) s))).
Proof.
  unfold reboot_to_app. run_M. rewrite uart_send_string_eq. reflexivity.
Qed.

Lemma reboot_to_bootloader_eq (s : state) :
  reboot_to_bootloader s =
  Halt IDLE_UNTIL_RESET
    (set_wdt true (set_sig 0 0
       (set_sent (sent s ++ map u8 (chars "Rebooting into bootloader" ++ crlf ++ crlf))
          s))).
Proof.
  unfold reboot_to_bootloader, reboot. run_M. rewrite uart_send_string_eq.
  reflexivity.
Qed.

(** [run_command] without the monad. *)
Lemma run_command_unfold (s : state) :
  run_command s =
  if at_ (line s) 0 =? chr "q" then reboot_to_app s
  else if at_ (line s) 0 =? chr "r" then reboot_to_bootloader s
  else if at_ (line s) 0 =? chr "d" then Ret tt (prompt (dump_flash s))
  else if at_ (line s) 0 =? chr "h"
       then Ret tt (prompt (uart_send_string help_text s))
  else if at_ (line s) 0 =? 0 then Ret tt (prompt s)
  else Ret tt (prompt (uart_send_string (chars "'h' for help" ++ crlf) s)).
Proof.
  unfold run_command. run_M.
  repeat match goal with
         | |- context [if ?b then _ else _] => destruct b
         end; reflexivity.
Qed.

Lemma run_command_cases (s : state) (c : Z) :
  let r := if c =? chr "q" then reboot_to_app s
           else if c =? chr "r" then reboot_to_bootloader s
           else if c =? chr "d" then Ret tt (prompt (dump_flash s))
           else if c =? chr "h" then Ret tt (prompt (uart_send_string help_text s))
           else if c =? 0 then Ret tt (prompt s)
           else Ret tt (prompt (uart_send_string (chars "'h' for help" ++ crlf) s)) in
  (c = chr "q" ->
   exists o, r =
     Halt SPIN_UNTIL_RESET
       (set_wdt true (set_sig BOOTAPP_SIG_1 BOOTAPP_SIG_2 (set_sent (sent s ++ o) s)))) /\
  (c = chr "r" ->
   exists o, r =
     Halt IDLE_UNTIL_RESET (set_wdt true (set_sig 0 0 (set_sent (sent s ++ o) s)))) /\
  (c <> chr "q" -> c <> chr "r" ->
   exists o, r = Ret tt (set_sent (sent s ++ o ++ chars ">: ") s)).
Proof.
  cbv zeta. split; [|split].
  - intros Hc. assert (Q : (c =? chr "q") = true) by (now apply Z.eqb_eq).
    rewrite Q. eexists. apply reboot_to_app_eq.
  - intros Hc. assert (Q : (c =? chr "r") = true) by (now apply Z.eqb_eq).
    assert (Q' : (c =? chr "q") = false) by (rewrite Hc; reflexivity).
    rewrite Q', Q. eexists. apply reboot_to_bootloader_eq.
  - intros Hq%Z.eqb_neq Hr%Z.eqb_neq. rewrite Hq, Hr.
    destruct (c =? chr "d").
    { destruct (dump_flash_sends s) as (o & E). rewrite E, prompt_after.
      exists o. reflexivity. }
    destruct (c =? chr "h").
    { rewrite uart_send_string_eq, prompt_after. eexists. reflexivity. }
    destruct (c =? 0).
    { exists []. rewrite <- (prompt_after [] s), set_sent_id. reflexivity. }
    rewrite uart_send_string_eq, prompt_after. eexists. reflexivity.
Qed.

(** X19: [run_command] looks at the first character of the line only.
    [q] and [r] do not return: they arm the watchdog with the signature
    of the application or of the bootloader.  Every other line, the dump
    command included, only sends text that ends with the prompt, and
    returns; nothing but the output changes. *)
Theorem run_command_dispatch (s : state) :
  let c := at_ (line s) 0 in
  (c = chr "q" ->
   exists o, run_command s =
     Halt SPIN_UNTIL_RESET
       (set_wdt true (set_sig BOOTAPP_SIG_1 BOOTAPP_SIG_2 (set_sent (sent s ++ o) s)))) /\
  (c = chr "r" ->
   exists o, run_command s =
     Halt IDLE_UNTIL_RESET (set_wdt true (set_sig 0 0 (set_sent (sent s ++ o) s)))) /\
  (c <> chr "q" -> c <> chr "r" ->
   exists o, run_command s = Ret tt (set_sent (sent s ++ o ++ chars ">: ") s)).
Proof.
  intros c. rewrite run_command_unfold.
  exact (run_command_cases s (at_ (line s) 0)).
Qed.

Lemma run_command_dispatch_witness :
  exists o, run_command (with_line (chars "help") fresh) =
            Ret tt (set_sent (sent fresh ++ o ++ chars ">: ")
                      (with_line (chars "help") fresh)).
Proof.
  destruct (run_command_dispatch (with_line (chars "help") fresh)) as (_ & _ & R).
  destruct R as (o & E); [vm_compute; congruence | vm_compute; congruence |].
  exists o. exact E.
Defined.

(** ** The bootloader as a whole *)

Lemma get_line_idle (s : state) : rx_idle s -> get_line s = Ret 0 s.
Proof.
  intros (E & F1 & F2). rewrite (get_line_unfold s F1 F2).
  unfold uart_available. rewrite E, Z.eqb_refl. reflexivity.
Qed.

Lemma pass_iteration_idle (mode fs : Z) (s : state) :
  rx_idle s -> pass_iteration mode fs s = Ret fs s.
Proof.
  intros I. unfold pass_iteration. run_M. rewrite (get_line_idle s I).
  reflexivity.
Qed.

(** Without input the loop of a pass goes on, and only the clock moves. *)
Lemma pass_loop_quiet (mode : Z) (evs : list event) :
  forall fs s, quiet evs -> rx_idle s ->
  (fs =? FLASH_GOING_ON) || (fs =? FLASH_WAITING) = true ->
  exists c, pass_loop mode fs evs s = PassPolling fs (set_time c (t0 s) s).
Proof.
  induction evs as [|e evs IH]; intros fs s Q I Hfs.
  - exists (clock s). cbn [pass_loop]. now destruct s.
  - apply Forall_cons in Q as [Qe Q]. destruct e as [st d| |]; [contradiction| |].
    + cbn [pass_loop]. unfold ISR_TIMER0_COMPA.
      destruct (IH fs (set_time (u32 (clock s + 1)) (t0 s) s) Q I Hfs) as (c & E).
      exists c. rewrite E. reflexivity.
    + cbn [pass_loop]. rewrite (pass_iteration_idle mode fs s I), Hfs.
      apply IH; assumption.
Qed.

(** X20: the bootloader has no timeout of its own.  Entered with the
    watchdog off (as after an external reset) and an empty receive ring,
    and as long as no byte arrives, it sends the banner and the prompt and
    then stays in the loop of flash mode, waiting: whatever the number of
    timer interrupts and loop iterations, only the clock has moved, and the
    watchdog is still off.  (With the watchdog running, as after a
    watchdog reset, the device is reset 15 ms after the last UART
    interrupt instead.) *)
Theorem bootloader_waits_for_input (evs : list event) (s : state) :
  wdt_armed s = false -> quiet evs -> rx_idle s ->
  exists c s',
    bootloader evs s = Polling MODE_FLASH FLASH_WAITING s' /\
    s' = set_time c (t0 s) (prompt (banner MODE_FLASH (new_page s))) /\
    wdt_armed s' = false.
Proof.
  intros Wd Q I.
  cut (exists c, bootloader evs s =
         Polling MODE_FLASH FLASH_WAITING
           (set_time c (t0 s) (prompt (banner MODE_FLASH (new_page s))))).
  { intros (c & E). exists c. eexists. split; [exact E|].
    split; [reflexivity|].
    unfold prompt, banner. change (MODE_FLASH =? MODE_FLASH) with true.
    cbv iota. rewrite !uart_send_string_eq. exact Wd. }
  unfold bootloader. cbn [passes]. unfold run_pass.
  set (s1 := prompt (banner MODE_FLASH (new_page s))).
  assert (I1 : rx_idle s1).
  { subst s1. unfold prompt, banner. change (MODE_FLASH =? MODE_FLASH) with true.
    cbv iota. rewrite !uart_send_string_eq. exact I. }
  assert (T : t0 s1 = t0 s).
  { subst s1. unfold prompt, banner. change (MODE_FLASH =? MODE_FLASH) with true.
    cbv iota. rewrite !uart_send_string_eq. reflexivity. }
  destruct (pass_loop_quiet MODE_FLASH evs FLASH_WAITING s1 Q I1 eq_refl) as (c & E).
  exists c. rewrite E, T. reflexivity.
Qed.

Lemma bootloader_waits_for_input_witness :
  exists c, bootloader [MAIN_LOOP; TIMER0_COMPA; MAIN_LOOP; TIMER0_COMPA] fresh =
    Polling MODE_FLASH FLASH_WAITING
      (set_time c (t0 fresh) (prompt (banner MODE_FLASH (new_page fresh)))).
Proof.
  destruct (bootloader_waits_for_input
              [MAIN_LOOP; TIMER0_COMPA; MAIN_LOOP; TIMER0_COMPA] fresh)
    as (c & s' & E & -> & _).
  - reflexivity.
  - repeat constructor.
  - repeat split.
  - exists c. exact E.
Defined.

(** X21: [bootloader] never returns to [main] and never jumps to the
    application itself: every run that ends, ends in a watchdog reset. *)
Theorem bootloader_never_returns (evs : list event) (s : state) :
  (forall s', bootloader evs s <> Exited s') /\
  (forall s', bootloader evs s <> Halted JMP_0 s') /\
  (forall h s', bootloader evs s = Halted h s' -> wdt_armed s' = true).
Proof.
  assert (N : forall modes evs s s', passes modes evs s <> Exited s').
  { induction modes as [|mode modes IH]; intros evs0 s0 s'; cbn [passes].
    - destruct (reboot_to_app_halts s0) as (s1 & ->). discriminate.
    - destruct (run_pass mode evs0 s0) as [fs s1 rest | h1 s1 | fs s1];
        [|discriminate|discriminate].
      destruct (negb (fs =? FLASH_OK)); cbn [when].
      + destruct (reboot_to_bootloader_halts s1) as (s2 & ->). discriminate.
      + apply IH. }
  split; [intros s'; apply N|]. unfold bootloader.
  split.
  - intros s' H. apply passes_halted_ok in H. exact H.
  - intros h s' H. apply passes_halted_ok in H.
    destruct h; cbn [halted_ok] in H; [apply H | apply H | contradiction].
Qed.

(** ** The elapsed time *)

(** X22: after a pass the elapsed time is printed as the decimal value
    of the 16 low bits of [millis() - t0]: a pass that takes 65536 ms or
    longer is reported short by a multiple of 65536 ms. *)
Theorem report_ok_elapsed (s : state) :
  exists digits,
    report_ok s = set_sent (sent s ++ chars " OK! (" ++ digits ++
                            chars "ms)" ++ crlf) s /\
    Forall is_digit digits /\
    dec_value digits = (clock s - t0 s) mod 65536.
Proof.
  unfold report_ok. rewrite !uart_send_string_eq.
  change (map u8 (chars " OK! (")) with (chars " OK! (").
  change (map u8 (chars "ms)" ++ crlf)) with (chars "ms)" ++ crlf).
  change (millis (set_sent (sent s ++ chars " OK! (") s)) with (clock s).
  change (t0 (set_sent (sent s ++ chars " OK! (") s)) with (t0 s).
  unfold uart_send_int.
  assert (Hx : 0 <= u16 (clock s - t0 s) < 10 ^ Z.of_nat 5).
  { unfold u16. change (10 ^ Z.of_nat 5) with 100000.
    euclid (clock s - t0 s) 65536. lia. }
  destruct (uart_send_int_rec_digits 4 (u16 (clock s - t0 s))
              (set_sent (sent s ++ chars " OK! (") s) Hx)
    as (o & E & F & V & _).
  rewrite E. cbn [sent set_sent]. rewrite !set_sent_twice.
  exists o. split; [|split; [exact F | exact V]].
  rewrite <- !app_assoc. reflexivity.
Qed.

(** ** Flashing an image *)

Lemma at_erased_page (k : nat) : (k < 128)%nat -> at_ erased_page k = 0xff.
Proof.
  intros H. unfold at_, erased_page. rewrite nth_lookup.
  rewrite lookup_replicate_2 by exact H. reflexivity.
Qed.

Lemma at_insert (p : list Z) (x y : nat) (b : Z) :
  (x < length p)%nat ->
  at_ (<[x := b]> p) y = if Nat.eqb y x then b else at_ p y.
Proof.
  intros H. destruct (Nat.eqb y x) eqn:E.
  - apply Nat.eqb_eq in E. subst y. now apply at_insert_eq.
  - apply Nat.eqb_neq in E. apply at_insert_ne. congruence.
Qed.

(** One staged byte, seen from program memory as it will be: the byte is
    at its address; entering another page commits the staged page and
    presents the new one erased; nothing else moves. *)
Lemma stage_byte_view (address i b : Z) (s : state) :
  flash_ready s -> is_byte b ->
  let a := u16 (address + i) in
  let s' := stage_byte address i b s in
  flash_ready s' /\ current_page_address s' = a / PAGE_SIZE /\
  (forall x, view s' x =
             if x =? a then b
             else if (x / PAGE_SIZE =? a / PAGE_SIZE)
                     && negb (a / PAGE_SIZE =? current_page_address s)
                  then 0xff else view s x) /\
  (forall x, flash s' x =
             if a / PAGE_SIZE =? current_page_address s then flash s x
             else view s x).
Proof.
  intros R Hb a s'. subst s'.
  pose proof R as (Lp & Bp & Lb & Hc).
  change (Z.to_nat PAGE_SIZE) with 128%nat in Lp, Lb.
  assert (Ra : 0 <= a < 65536) by (apply Z.mod_pos_bound; lia).
  assert (Ea : byte_page address i = a / PAGE_SIZE) by reflexivity.
  assert (Oa : byte_offset address i = a mod PAGE_SIZE) by reflexivity.
  assert (Ro : 0 <= a mod PAGE_SIZE < 128) by (apply Z.mod_pos_bound; reflexivity).
  assert (Same : forall x, x / PAGE_SIZE = a / PAGE_SIZE ->
            Nat.eqb (Z.to_nat (x mod PAGE_SIZE)) (Z.to_nat (a mod PAGE_SIZE))
            = (x =? a)).
  { intros x Hx. unfold PAGE_SIZE in *.
    euclid x 128. euclid a 128.
    destruct (x =? a) eqn:E.
    - apply Z.eqb_eq in E. subst x. apply Nat.eqb_refl.
    - apply Z.eqb_neq in E. apply Nat.eqb_neq. lia. }
  assert (Diff : forall x, x / PAGE_SIZE <> a / PAGE_SIZE -> (x =? a) = false).
  { intros x Hx. apply Z.eqb_neq. intros ->. now apply Hx. }
  destruct (Z.eq_dec (byte_page address i) (current_page_address s)) as [E | E].
  - rewrite (stage_byte_same _ _ _ _ E). rewrite Oa. rewrite Ea in E.
    set (p' := <[Z.to_nat (a mod PAGE_SIZE) := b]> (page s)).
    pose proof (set_page_flash_part p' s) as Q.
    generalize dependent (set_page p' s). intros s' Q.
    unfold flash_part in Q. injection Q as Q1 Q2 Q3 Q4.
    assert (Eb : (a / PAGE_SIZE =? current_page_address s) = true)
      by (now apply Z.eqb_eq).
    split; [|split; [|split]].
    + unfold flash_ready. rewrite Q1, Q2, Q4. subst p'.
      rewrite length_insert. repeat split; try assumption; try apply Hc.
      apply Forall_insert; assumption.
    + rewrite Q2. symmetry. exact E.
    + intros x. unfold view. rewrite Q1, Q2, Q3, Eb. cbn [negb].
      rewrite andb_false_r. rewrite <- E.
      destruct (x / PAGE_SIZE =? a / PAGE_SIZE) eqn:Ex.
      * apply Z.eqb_eq in Ex. subst p'. rewrite at_insert by lia.
        rewrite (Same x Ex). reflexivity.
      * apply Z.eqb_neq in Ex. rewrite (Diff x Ex). reflexivity.
    + intros x. rewrite Q3, Eb. reflexivity.
  - rewrite (stage_byte_cross _ _ _ _ E). rewrite Oa, Ea. rewrite Ea in E.
    destruct (write_current_page_flash s R) as (F & B & _ & _).
    cbv zeta in F, B.
    set (p' := <[Z.to_nat (a mod PAGE_SIZE) := b]> erased_page).
    pose proof (crossed_flash_part p' (a / PAGE_SIZE) (write_current_page s))
      as Q.
    generalize dependent (write_current_page s). intros w F B Q.
    generalize dependent
      (set_page p' (set_current_page_address (a / PAGE_SIZE) (new_page w))).
    intros s' Q.
    unfold flash_part in Q. injection Q as Q1 Q2 Q3 Q4.
    assert (Eb : (a / PAGE_SIZE =? current_page_address s) = false)
      by (now apply Z.eqb_neq).
    split; [|split; [|split]].
    + unfold flash_ready. rewrite Q1, Q2, Q4, B. subst p'.
      rewrite length_insert. split; [reflexivity|].
      split; [apply Forall_insert; [apply erased_page_bytes | exact Hb]|].
      split; [reflexivity|].
      unfold PAGE_SIZE. euclid a 128. lia.
    + exact Q2.
    + intros x. unfold view at 1. rewrite Q1, Q2, Q3, Eb. cbn [negb].
      rewrite andb_true_r.
      destruct (x / PAGE_SIZE =? a / PAGE_SIZE) eqn:Ex.
      * apply Z.eqb_eq in Ex. subst p'.
        rewrite at_insert by (rewrite length_erased_page; lia).
        rewrite (Same x Ex). destruct (x =? a); [reflexivity|].
        apply at_erased_page.
        assert (0 <= x mod PAGE_SIZE < 128) by (apply Z.mod_pos_bound; reflexivity).
        lia.
      * apply Z.eqb_neq in Ex. rewrite (Diff x Ex). rewrite F. reflexivity.
    + intros x. rewrite Q3, Eb, F. reflexivity.
Qed.

Lemma image_inv_flash_part (mem0 : Z -> Z) (s t : state) (next : Z)
    (K : Z -> Z -> Prop) :
  flash_part t = flash_part s -> image_inv mem0 s next K -> image_inv mem0 t next K.
Proof.
  intros H. destruct (flash_part_kept s t H) as (Rk & _).
  apply flash_part_fields in H as (E1 & E2 & E3 & E4).
  unfold image_inv, view. rewrite E1, E2, E3.
  intros (R & I). split; [now apply Rk | exact I].
Qed.

Lemma image_inv_ext (mem0 : Z -> Z) (s : state) (next : Z)
    (K K' : Z -> Z -> Prop) :
  (forall y b, K y b <-> K' y b) ->
  image_inv mem0 s next K -> image_inv mem0 s next K'.
Proof.
  intros H (R & N & C & A & T & F).
  split; [exact R|]. split; [exact N|]. split; [exact C|].
  split; [intros y b Hk; apply A, H, Hk|].
  split.
  - destruct T as [(y & b & Hk & Hp) | (C0 & Hn)].
    + left. exists y, b. split; [apply H, Hk | exact Hp].
    + right. split; [exact C0|]. intros y b Hk. apply (Hn y b), H, Hk.
  - intros x Hx Hn. apply F; [exact Hx|].
    intros y b Hk. apply (Hn y b), H, Hk.
Qed.

(** The invariant through one staged byte. *)
Lemma stage_byte_inv (mem0 : Z -> Z) (address i b : Z) (s : state) (next : Z)
    (K : Z -> Z -> Prop) :
  image_inv mem0 s next K ->
  next <= address + i < 65536 -> is_byte b ->
  ((forall y c, ~ K y c) -> (address + i) / PAGE_SIZE = current_page_address s) ->
  image_inv mem0 (stage_byte address i b s) (address + i + 1)
    (fun y c => K y c \/ (y = address + i /\ c = b)).
Proof.
  intros (R & N & C & A & T & F) Ha Hb H0.
  destruct (stage_byte_view address i b s R Hb) as (R' & C' & V' & F').
  cbv zeta in R', C', V', F'.
  assert (U : u16 (address + i) = address + i) by (apply Z.mod_small; lia).
  rewrite U in C', V', F'.
  set (a := address + i) in *.
  generalize dependent (stage_byte address i b s). intros s' R' C' V' F'.
  assert (Pa : current_page_address s <= a / PAGE_SIZE).
  { unfold PAGE_SIZE in *. euclid a 128. nia. }
  split; [exact R'|]. split; [lia|].
  split; [rewrite C'; unfold PAGE_SIZE; euclid a 128; lia|].
  split; [|split].
  - intros y c [Hk | [-> ->]].
    + destruct (A y c Hk) as (Hy & Hp & Hv).
      split; [lia|]. split; [rewrite C'; lia|].
      rewrite V'.
      assert (Q : (y =? a) = false) by (apply Z.eqb_neq; lia).
      rewrite Q.
      destruct ((y / PAGE_SIZE =? a / PAGE_SIZE)
                && negb (a / PAGE_SIZE =? current_page_address s)) eqn:X;
        [|exact Hv].
      apply andb_true_iff in X as [X1%Z.eqb_eq X2%negb_true_iff%Z.eqb_neq].
      lia.
    + split; [lia|]. split; [rewrite C'; lia|].
      rewrite V', Z.eqb_refl. reflexivity.
  - left. exists a, b. split; [right; auto | now rewrite C'].
  - intros x Hx Hn. rewrite C' in Hx. rewrite F'.
    destruct (a / PAGE_SIZE =? current_page_address s) eqn:E.
    + apply Z.eqb_eq in E. apply F; [congruence|].
      intros y c Hk. apply (Hn y c). now left.
    + apply Z.eqb_neq in E. unfold view.
      destruct (x / PAGE_SIZE =? current_page_address s) eqn:Ex.
      * apply Z.eqb_eq in Ex. exfalso.
        destruct T as [(y & c & Hk & Hp) | (C0 & Hnone)].
        -- apply (Hn y c); [now left | congruence].
        -- apply E. apply H0. exact Hnone.
      * apply Z.eqb_neq in Ex. apply F; [exact Ex|].
        intros y c Hk. apply (Hn y c). now left.
Qed.

(** The invariant through the loop over the data bytes of a record. *)
Lemma data_loop_inv (mem0 : Z -> Z) (address : Z) (l : list Z) (n : nat) :
  forall i c s c1 s1 next K,
  line s = l -> image_inv mem0 s next K -> 0 <= i ->
  next <= address + i -> address + i + Z.of_nat n <= 65536 ->
  ((forall y b, ~ K y b) -> (address + i) / PAGE_SIZE = current_page_address s) ->
  (n = 0%nat -> next = address + i) ->
  data_loop MODE_FLASH address n i c s = Completed c1 s1 ->
  image_inv mem0 s1 (address + i + Z.of_nat n)
    (fun y b => K y b \/
                exists k, i <= k < i + Z.of_nat n /\ y = address + k /\
                          b = rec_byte l k).
Proof.
  induction n as [|n IH]; intros i c s c1 s1 next K Hl I Hi Hn Hmax H0 Hz L.
  - cbn [data_loop] in L. injection L as _ <-.
    rewrite Z.add_0_r, <- (Hz eq_refl).
    apply (image_inv_ext mem0 s next K); [|exact I].
    intros y b. split; [now left|]. intros [Hk | (k & Hk & _)]; [exact Hk | lia].
  - change (data_loop MODE_FLASH address (S n) i c s)
      with (data_loop MODE_FLASH address n (i + 1) (u8 (c + rec_byte (line s) i))
              (stage_byte address i (rec_byte (line s) i) s)) in L.
    rewrite Hl in L.
    pose proof (stage_byte_inv mem0 address i (rec_byte l i) s next K I
                  ltac:(lia) (rec_byte_is_byte l i) H0) as I1.
    assert (Hl1 : line (stage_byte address i (rec_byte l i) s) = l).
    { destruct (stages_fields _ _ (stage_byte_stages address i (rec_byte l i) s))
        as [-> _]. exact Hl. }
    generalize dependent (stage_byte address i (rec_byte l i) s). intros s' L I1 Hl1.
    pose proof (IH (i + 1) (u8 (c + rec_byte l i)) s' c1 s1 (address + i + 1) _
                  Hl1 I1
                  ltac:(lia) ltac:(lia) ltac:(lia)) as I2.
    replace (address + i + Z.of_nat (S n)) with (address + (i + 1) + Z.of_nat n)
      by lia.
    eapply image_inv_ext; [|apply I2].
    + intros y b. split.
      * intros [[Hk | [-> ->]] | (k & Hk & -> & ->)].
        -- now left.
        -- right. exists i. split; [lia | auto].
        -- right. exists k. split; [lia | auto].
      * intros [Hk | (k & Hk & -> & ->)].
        -- left. now left.
        -- destruct (Z.eq_dec k i) as [-> | Hne].
           ++ left. right. auto.
           ++ right. exists k. split; [lia | auto].
    + intros Hnone. exfalso. apply (Hnone (address + i) (rec_byte l i)).
      right. auto.
    + intros _. lia.
    + exact L.
Qed.

Lemma length_hex_record (a ty : Z) (d : list Z) :
  length (hex_record a ty d) = (11 + 2 * length d)%nat.
Proof.
  unfold hex_record. cbn [length]. rewrite !length_app.
  assert (F : length (flat_map byte_hex_chars d) = (2 * length d)%nat).
  { induction d as [|x d IH]; [reflexivity|]. cbn [flat_map length].
    rewrite length_app, IH. cbn [length byte_hex_chars]. lia. }
  rewrite F. cbn [length byte_hex_chars word_hex_chars]. lia.
Qed.

(** A string that fits the line buffer is in it, followed by NULs. *)
Lemma buffer_short (str : list Z) :
  (length str <= 64)%nat -> exists rest, buffer str = str ++ rest.
Proof.
  intros H. unfold buffer. change (Z.to_nat MAX_LINE_LEN) with 64%nat.
  rewrite take_app_ge by exact H. eexists. reflexivity.
Qed.

Lemma covers_one (a : Z) (d : list Z) (l : list Z) :
  (forall i, (i < length d)%nat -> rec_byte l (Z.of_nat i) = nth i d 0) ->
  forall y b,
  (exists k, 0 <= k < 0 + Z.of_nat (length d) /\ y = a + k /\ b = rec_byte l k)
  <-> covers [(a, d)] y b.
Proof.
  intros B y b. split.
  - intros (k & Hk & -> & ->). exists a, d, (Z.to_nat k).
    split; [now left|]. split; [lia|]. split; [lia|].
    rewrite <- B by lia. f_equal. lia.
  - intros (a' & d' & k & [E | []] & Hk & -> & ->). injection E as <- <-.
    exists (Z.of_nat k). split; [lia|]. split; [reflexivity|].
    symmetry. now apply B.
Qed.

Lemma covers_cons (r : Z * list Z) (recs : list (Z * list Z)) (y b : Z) :
  covers (r :: recs) y b <-> covers [r] y b \/ covers recs y b.
Proof.
  split.
  - intros (a & d & k & [E | I] & H).
    + left. exists a, d, k. split; [now left | exact H].
    + right. exists a, d, k. split; [exact I | exact H].
  - intros [(a & d & k & [E | []] & H) | (a & d & k & I & H)].
    + exists a, d, k. split; [now left | exact H].
    + exists a, d, k. split; [now right | exact H].
Qed.


(** One data record of an image in flash mode. *)
Lemma flash_record_inv (mem0 : Z -> Z) (a : Z) (d rest : list Z) (s : state)
    (next : Z) (K : Z -> Z -> Prop) :
  line s = hex_record a 0 d ++ rest ->
  image_inv mem0 s next K -> image_tracks s next K ->
  (if next =? 0 then a = 0 else next <= a) ->
  (1 <= length d <= 26)%nat -> Forall is_byte d ->
  a + Z.of_nat (length d) <= 65535 ->
  let r := flash_hex_line MODE_FLASH s in
  let K' := fun y b => K y b \/ covers [(a, d)] y b in
  fst r = FLASH_GOING_ON /\
  image_inv mem0 (snd r) (a + Z.of_nat (length d)) K' /\
  image_tracks (snd r) (a + Z.of_nat (length d)) K'.
Proof.
  intros Hl I Tr Ha Hd Hb Hmax r K'.
  pose proof I as (R & N & Cp & _).
  assert (A0 : 0 <= a /\ next <= a).
  { destruct (next =? 0) eqn:E; [apply Z.eqb_eq in E|]; lia. }
  destruct (hex_record_fields a 0 d rest ltac:(lia) ltac:(lia) Hb ltac:(lia))
    as (C & A & T & B & S).
  cbv zeta in C, A, T, B, S. rewrite <- Hl in C, A, T, B, S.
  pose proof (flash_hex_line_flash s) as F. cbv zeta in F. fold r in F.
  rewrite T, A, C, S in F.
  assert (Acc : address_accepted (last_address s) a = true).
  { unfold image_tracks in Tr. unfold address_accepted.
    destruct (next =? 0) eqn:E.
    - rewrite Tr. rewrite Ha. reflexivity.
    - apply Z.eqb_neq in E. destruct Tr as (-> & _).
      assert (Q : (next - 1 =? 65535) = false) by (apply Z.eqb_neq; lia).
      rewrite Q. apply negb_true_iff, Z.ltb_ge. lia. }
  rewrite Acc in F. change (negb (0 =? 0) || true) with true in F.
  change (0 =? 0) with true in F. change (0 =? 1) with false in F.
  cbv iota in F. rewrite Nat2Z.id in F.
  destruct F as (c1 & s1 & L & _ & G & o & E).
  assert (I1 : image_inv mem0 s1 (a + 0 + Z.of_nat (length d))
                 (fun y b => K y b \/
                    exists k, 0 <= k < 0 + Z.of_nat (length d) /\ y = a + k /\
                              b = rec_byte (line s) k)).
  { apply (data_loop_inv mem0 a (line s) (length d) 0 (rec_header_sum (line s))
             s c1 s1 next K eq_refl I);
      [lia | lia | lia | | intros Q; lia | exact L].
    intros Hnone. rewrite Z.add_0_r.
    unfold image_tracks in Tr. destruct (next =? 0) eqn:E0.
    - apply Z.eqb_eq in E0. rewrite Ha.
      destruct R as (_ & _ & _ & Rc). unfold PAGE_SIZE in *.
      change (0 / 128) with 0. lia.
    - destruct Tr as (_ & y & b & Hk). exfalso. exact (Hnone y b Hk). }
  rewrite Z.add_0_r in I1.
  assert (I2 : image_inv mem0 s1 (a + Z.of_nat (length d)) K').
  { eapply image_inv_ext; [|exact I1]. intros y b. subst K'. cbv beta.
    pose proof (covers_one a d (line s) B y b) as Q. tauto. }
  split; [exact G|]. rewrite E.
  split.
  - eapply image_inv_flash_part; [|exact I2]. reflexivity.
  - unfold image_tracks.
    assert (Q : (a + Z.of_nat (length d) =? 0) = false) by (apply Z.eqb_neq; lia).
    rewrite Q. split.
    + cbn [last_address set_last_address]. unfold u16.
      apply Z.mod_small. lia.
    + exists a, (nth 0 d 0). right. exists a, d, 0%nat.
      split; [now left|]. split; [lia|]. split; [lia | reflexivity].
Qed.

(** The data records of an image, one after the other. *)
Lemma flash_lines_inv (mem0 : Z -> Z) (recs : list (Z * list Z)) :
  forall s next K status,
  image_ok next recs -> image_inv mem0 s next K -> image_tracks s next K ->
  let r := flash_lines MODE_FLASH (image_lines recs) status s in
  (recs <> [] -> fst r = FLASH_GOING_ON) /\
  exists next',
    image_inv mem0 (snd r) next' (fun y b => K y b \/ covers recs y b).
Proof.
  induction recs as [|[a d] recs IH]; intros s next K status Ok I Tr r; subst r.
  - cbn [image_lines map flash_lines snd]. split; [congruence|].
    exists next. eapply image_inv_ext; [|exact I].
    intros y b. split; [now left|].
    intros [Hk | (a & d & k & [] & _)]. exact Hk.
  - destruct Ok as (Ha & Hd & Hb & Hmax & Ok).
    cbn [image_lines map flash_lines fst snd].
    fold (image_lines recs).
    destruct (buffer_short (hex_record a 0 d)) as (rest & Eb).
    { rewrite length_hex_record. lia. }
    assert (Hl : line (with_line (hex_record a 0 d) s) = hex_record a 0 d ++ rest).
    { rewrite (proj1 (with_line_fields _ _)). exact Eb. }
    assert (Iw : image_inv mem0 (with_line (hex_record a 0 d) s) next K).
    { eapply image_inv_flash_part; [|exact I]. apply with_line_flash_part. }
    assert (Tw : image_tracks (with_line (hex_record a 0 d) s) next K).
    { unfold image_tracks in *. rewrite (proj2 (with_line_fields _ _)). exact Tr. }
    generalize dependent (with_line (hex_record a 0 d) s). intros t Hl Iw Tw.
    destruct (flash_record_inv mem0 a d rest t next K Hl Iw Tw Ha Hd Hb Hmax)
      as (G & I1 & T1).
    cbv zeta in G, I1, T1.
    destruct (flash_hex_line MODE_FLASH t) as [st t1]. cbn [fst snd] in G, I1, T1.
    rewrite G. change (FLASH_GOING_ON =? FLASH_GOING_ON) with true. cbv iota.
    destruct (IH t1 _ _ FLASH_GOING_ON Ok I1 T1) as (G2 & next' & I2).
    cbv zeta in G2, I2.
    split.
    + intros _. destruct recs as [|r0 recs0]; [reflexivity|].
      apply G2. congruence.
    + exists next'. eapply image_inv_ext; [|exact I2].
      intros y b. cbv beta. rewrite (covers_cons (a, d) recs y b). tauto.
Qed.

(** X23: flash mode programs an image.  Data records that start at
    address 0, follow each other in address order without overlap and have
    valid checksums are all accepted; once the end-of-file record has been
    taken, every byte of every record is in program memory at its address,
    and the pages that hold no byte of the image have kept their
    contents. *)
Theorem flash_image_programs (recs : list (Z * list Z)) (s : state) :
  flash_ready s -> current_page_address s = 0 -> last_address s = 0xffff ->
  recs <> [] -> image_ok 0 recs ->
  let r := flash_lines MODE_FLASH (image_lines recs) FLASH_WAITING s in
  let r2 := flash_hex_line MODE_FLASH (with_line eof_record (snd r)) in
  fst r = FLASH_GOING_ON /\ fst r2 = FLASH_OK /\
  (forall y b, covers recs y b -> flash (snd r2) y = b) /\
  (forall x, (forall y b, covers recs y b -> y / PAGE_SIZE <> x / PAGE_SIZE) ->
             flash (snd r2) x = flash s x).
Proof.
  intros R C0 L0 Hne Ok r r2.
  assert (I0 : image_inv (flash s) s 0 (fun _ _ => False)).
  { split; [exact R|]. split; [lia|]. split; [rewrite C0; reflexivity|].
    split; [intros y b []|]. split; [right; split; [exact C0 | auto]|].
    reflexivity. }
  assert (T0 : image_tracks s 0 (fun _ _ => False)) by exact L0.
  destruct (flash_lines_inv (flash s) recs s 0 _ FLASH_WAITING Ok I0 T0)
    as (G & next' & I1).
  cbv zeta in G, I1. fold r in G, I1.
  split; [apply G, Hne|].
  assert (I2 : image_inv (flash s) (snd r) next' (covers recs)).
  { eapply image_inv_ext; [|exact I1]. intros y b. cbv beta. tauto. }
  clear I1. generalize dependent (snd r). intros s1 r2 I2.
  set (t := with_line eof_record s1) in *.
  assert (It : image_inv (flash s) t next' (covers recs)).
  { eapply image_inv_flash_part; [|exact I2]. apply with_line_flash_part. }
  assert (Lt : line t = buffer eof_record) by apply with_line_fields.
  assert (T2 : rec_type (line t) = 1) by (rewrite Lt; vm_compute; reflexivity).
  assert (C2 : rec_count (line t) = 0) by (rewrite Lt; vm_compute; reflexivity).
  assert (S2 : rec_sum (line t) = 0) by (rewrite Lt; vm_compute; reflexivity).
  clearbody t. destruct It as (Rt & _ & _ & A & T & F).
  assert (Fl : forall x, flash (snd r2) x = view t x).
  { subst r2. rewrite (flash_hex_line_eof t T2 C2 S2).
    destruct (write_current_page_flash t Rt) as (Fl & _). cbv zeta in Fl.
    generalize dependent (write_current_page t). intros w Fl.
    destruct (committed_fields w) as (E1 & _). cbv zeta in E1.
    unfold snd. rewrite E1. exact Fl. }
  split; [subst r2; rewrite (flash_hex_line_eof t T2 C2 S2); reflexivity|].
  split.
  - intros y b Hk. rewrite Fl. apply A, Hk.
  - intros x Hx. rewrite Fl. unfold view.
    destruct (x / PAGE_SIZE =? current_page_address t) eqn:Ex.
    + apply Z.eqb_eq in Ex. exfalso.
      destruct T as [(y & b & Hk & Hp) | (_ & Hnone)].
      * apply (Hx y b Hk). congruence.
      * destruct recs as [|[a d] recs0]; [congruence|].
        destruct Ok as (_ & Hd & _).
        apply (Hnone a (nth 0 d 0)). exists a, d, 0%nat.
        split; [now left|]. split; [lia|]. split; [lia | reflexivity].
    + apply Z.eqb_neq in Ex. apply F; assumption.
Qed.

Lemma flash_image_programs_witness :
  let recs := [(0, [0x0c; 0x94; 0x34]); (126, [0x11; 0x22; 0x33; 0x44])] in
  let r := flash_lines MODE_FLASH (image_lines recs) FLASH_WAITING fresh in
  let r2 := flash_hex_line MODE_FLASH (with_line eof_record (snd r)) in
  fst r2 = FLASH_OK /\ flash (snd r2) 1 = 0x94 /\ flash (snd r2) 128 = 0x33 /\
  flash (snd r2) 300 = flash fresh 300.
Proof.
  intros recs r r2.
  assert (R : flash_ready fresh).
  { repeat split; try (vm_compute; congruence). apply erased_page_bytes. }
  assert (Ok : image_ok 0 recs).
  { assert (B : forall l, forallb (fun b => (0 <=? b) && (b <? 256)) l = true ->
                Forall is_byte l).
    { intros l H. apply List.Forall_forall. intros x Hx.
      rewrite forallb_forall in H. specialize (H x Hx). unfold is_byte. lia. }
    subst recs. clear - B. cbn [image_ok length Z.eqb].
    split; [reflexivity|]. split; [split; repeat constructor|].
    split; [now apply B|]. split; [vm_compute; discriminate|].
    split; [vm_compute; discriminate|]. split; [split; repeat constructor|].
    split; [now apply B|]. split; [vm_compute; discriminate | exact Logic.I]. }
  destruct (flash_image_programs recs fresh R eq_refl eq_refl
              ltac:(subst recs; congruence) Ok) as (_ & G & A & F).
  fold r r2 in G, A, F.
  split; [exact G|]. split; [|split].
  - apply A. exists 0, [0x0c; 0x94; 0x34], 1%nat.
    split; [now left|]. split; [cbn; lia|]. split; reflexivity.
  - apply A. exists 126, [0x11; 0x22; 0x33; 0x44], 2%nat.
    split; [right; now left|]. split; [cbn; lia|]. split; reflexivity.
  - apply F. intros y b (a & d & k & Hin & Hk & -> & _).
    change (300 / PAGE_SIZE) with 2.
    destruct Hin as [E | [E | []]]; injection E as <- <-; cbn [length] in Hk;
      unfold PAGE_SIZE; intros Q; Z.div_mod_to_equations; lia.
Defined.
